(** * Ledger-and-categorization engine of the finance application

    Shallow embedding of
      - finance_app/models/models.py          (the records),
      - finance_app/db/session.py, context.py (the session and the unit of work),
      - finance_app/services/posting_generator.py,
      - finance_app/services/rules_engine.py,
      - finance_app/services/importer.py,
    followed by the properties of the engine.

    Conventions.
      - An amount is a [Numeric(14, 2)] column: it is modelled as the
        integer number of hundredths ([Z]), so [-4250] stands for -42.50.
        The services convert amounts with [float(...)] before comparing
        them; on values with at most 14 digits that conversion is injective
        and monotone, so the comparisons are those of [Z].
      - A table is the list of its rows, in insertion order.  Primary keys
        are SQLite row ids: a new row gets one more than the largest id
        present in its table.
      - The session is configured with [autoflush=False]: queries read the
        rows already sent to the database, objects passed to [session.add]
        stay pending until [flush] or [commit], and attribute changes on
        loaded objects stay in memory until then as well. *)

From Stdlib Require Import ZArith List String Ascii Bool Lia.
From Stdlib Require Import Permutation Sorted.
Import ListNotations.
Local Open Scope Z_scope.

(** ** Records of models.py *)

Record Date := mkDate { year : Z; month : Z; day : Z }.

Module Account.
Record t := mk { id : Z; name : string; type : string }.
End Account.

Module Category.
Record t := mk { id : Z; name : string; parent_id : option Z }.
End Category.

Module Transaction.
Record t := mk {
    id : Z;
    date : Date;
    description : string;
    amount : Z;
    source_account_id : Z;
    normalized_memo : option string;
    category_id : option Z }.
End Transaction.

Module Posting.
Record t := mk {
    id : Z;
    transaction_id : Z;
    account_id : Z;
    debit : Z;
    credit : Z }.
End Posting.

Module Rule.
Record t := mk {
    id : Z;
    pattern : string;
    category_id : Z;
    amount_min : option Z;
    amount_max : option Z;
    priority : Z;
    active : bool }.
End Rule.

(** ** The store *)

Record Db := mkDb {
  accounts : list Account.t;
  categories : list Category.t;
  transactions : list Transaction.t;
  postings : list Posting.t;
  rules : list Rule.t }.

(** Objects handed to [session.add] and not yet inserted: they have no id. *)
Inductive New :=
| NewTransaction (date : Date) (description : string) (amount : Z)
                 (source_account_id : Z)
| NewPosting (transaction_id account_id debit credit : Z).

(** [new] is [session.new]; [dirty] lists the assignments
    [txn.category_id = c] made on loaded transactions, oldest first. *)
Record Session := mkSession {
  db : Db;
  new : list New;
  dirty : list (Z * Z) }.

Inductive Exc :=
| AttributeError   (* attribute access on [None] *)
| KeyError         (* [row[col]] for a column the frame does not have *)
| ValueError       (* [float] of a malformed string *)
| ReError.         (* [re.error]: the pattern does not compile *)

Inductive Res (A : Type) :=
| Ok (a : A)
| Raise (e : Exc).
Arguments Ok {A} a.
Arguments Raise {A} e.

(** Computations in a session that may raise. *)
Definition M (A : Type) := Session -> Res (A * Session).

Definition ret {A} (a : A) : M A := fun s => Ok (a, s).
Definition raise {A} (e : Exc) : M A := fun _ => Raise e.
Definition bind {A B} (m : M A) (k : A -> M B) : M B :=
  fun s => match m s with
           | Ok (a, s') => k a s'
           | Raise e => Raise e
           end.

Notation "x <- m ;; k" := (bind m (fun x => k))
  (at level 61, m at next level, right associativity).
Notation "m ;;; k" := (bind m (fun _ => k))
  (at level 61, right associativity).

(** ** Row ids and flushing *)

Definition next_id (ids : list Z) : Z := 1 + fold_right Z.max 0 ids.

Definition set_category (tid c : Z) (t : Transaction.t) : Transaction.t :=
  if Transaction.id t =? tid
  then Transaction.mk (Transaction.id t) (Transaction.date t)
         (Transaction.description t) (Transaction.amount t)
         (Transaction.source_account_id t) (Transaction.normalized_memo t)
         (Some c)
  else t.

(** The object the session holds for a row: the row with the pending
    attribute changes applied. *)
Definition load (dirty : list (Z * Z)) (t : Transaction.t) : Transaction.t :=
  fold_left (fun t u => set_category (fst u) (snd u) t) dirty t.

Definition insert_new (d : Db) (o : New) : Db :=
  match o with
  | NewTransaction dt desc amt src =>
      mkDb (accounts d) (categories d)
        (transactions d ++
           [Transaction.mk (next_id (map Transaction.id (transactions d)))
              dt desc amt src None None])
        (postings d) (rules d)
  | NewPosting tid aid dr cr =>
      mkDb (accounts d) (categories d) (transactions d)
        (postings d ++
           [Posting.mk (next_id (map Posting.id (postings d))) tid aid dr cr])
        (rules d)
  end.

Definition update_dirty (dirty : list (Z * Z)) (d : Db) : Db :=
  mkDb (accounts d) (categories d) (map (load dirty) (transactions d))
    (postings d) (rules d).

(** [session.flush()]: pending rows are inserted, pending attribute
    changes are written. *)
Definition flush_session (s : Session) : Session :=
  mkSession (update_dirty (dirty s) (fold_left insert_new (new s) (db s))) [] [].

Definition flush : M unit := fun s => Ok (tt, flush_session s).

Definition commit (s : Session) : Db := db (flush_session s).

(** db/context.py, [session_scope]: a session is opened on the store, the
    body runs, and the store is committed; if the body raises, the store
    is rolled back and the exception propagates. *)
Definition session_scope {A} (body : M A) (d : Db) : Db * Res A :=
  match body (mkSession d [] []) with
  | Ok (a, s) => (commit s, Ok a)
  | Raise e => (d, Raise e)
  end.

(** ** Session primitives used by the services *)

Definition add (o : New) : M unit :=
  fun s => Ok (tt, mkSession (db s) (new s ++ [o]) (dirty s)).

(** [session.query(m.Account).filter_by(name=n).first()] *)
Definition account_by_name (n : string) : M (option Account.t) :=
  fun s => Ok (find (fun a => String.eqb (Account.name a) n) (accounts (db s)), s).

(** [session.get(m.Category, cid)] *)
Definition get_category (cid : Z) : M (option Category.t) :=
  fun s => Ok (find (fun c => Category.id c =? cid) (categories (db s)), s).

(** [a = m.Account(name=n, type=ty); session.add(a); session.flush()]:
    everything pending is flushed and [a] comes back with its row id. *)
Definition create_account (n ty : string) : M Account.t :=
  fun s =>
    let s1 := flush_session s in
    let a := Account.mk (next_id (map Account.id (accounts (db s1)))) n ty in
    Ok (a, mkSession (mkDb (accounts (db s1) ++ [a]) (categories (db s1))
                        (transactions (db s1)) (postings (db s1)) (rules (db s1)))
             [] []).

(** [session.query(m.Posting).filter(m.Posting.transaction_id == tid).delete()]:
    a bulk DELETE on the rows of the database; what is still pending in
    the session is not a row yet. *)
Definition delete_postings (tid : Z) : M unit :=
  fun s =>
    let d := db s in
    Ok (tt, mkSession
              (mkDb (accounts d) (categories d) (transactions d)
                 (filter (fun p => negb (Posting.transaction_id p =? tid)) (postings d))
                 (rules d))
              (new s) (dirty s)).

(** ** services/posting_generator.py *)

(** [x.id] and [x.name] where [x] may be [None]. *)
Definition attr {A B} (f : A -> B) (x : option A) : M B :=
  match x with
  | Some a => ret (f a)
  | None => raise AttributeError
  end.

(** The counterpart account: [prefix] is "Expense" or "Income", [generic]
    is "Expenses" or "Income", [ty] is "expense" or "income".
    [if transaction.category_id:] is false for [None] and for [0]. *)
Definition counterpart_account (transaction : Transaction.t)
    (prefix generic ty : string) : M (option Account.t) :=
  match Transaction.category_id transaction with
  | Some cid =>
      if cid =? 0 then account_by_name generic
      else
        category <- get_category cid ;;
        cname <- attr Category.name category ;;
        let n := String.append prefix (String.append ":" cname) in
        account <- account_by_name n ;;
        match account with
        | Some a => ret (Some a)
        | None => a <- create_account n ty ;; ret (Some a)
        end
  | None => account_by_name generic
  end.

Definition generate_postings_for_transaction (transaction : Transaction.t) : M Z :=
  delete_postings (Transaction.id transaction) ;;;
  if Transaction.amount transaction <? 0 then
    expense_account <- counterpart_account transaction "Expense" "Expenses" "expense" ;;
    expense_account_id <- attr Account.id expense_account ;;
    let posting1 := NewPosting (Transaction.id transaction)
                      (Transaction.source_account_id transaction)
                      0 (Z.abs (Transaction.amount transaction)) in
    let posting2 := NewPosting (Transaction.id transaction)
                      expense_account_id
                      (Z.abs (Transaction.amount transaction)) 0 in
    add posting1 ;;; add posting2 ;;; ret 2
  else
    income_account <- counterpart_account transaction "Income" "Income" "income" ;;
    income_account_id <- attr Account.id income_account ;;
    let posting1 := NewPosting (Transaction.id transaction)
                      (Transaction.source_account_id transaction)
                      (Z.abs (Transaction.amount transaction)) 0 in
    let posting2 := NewPosting (Transaction.id transaction)
                      income_account_id
                      0 (Z.abs (Transaction.amount transaction)) in
    add posting1 ;;; add posting2 ;;; ret 2.

(** The rows the LEFT OUTER JOIN keeps: transactions without a posting
    row, as the objects the session holds for them. *)
Definition has_posting (d : Db) (tid : Z) : bool :=
  existsb (fun p => Posting.transaction_id p =? tid) (postings d).

Definition unposted (s : Session) : list Transaction.t :=
  map (load (dirty s))
    (filter (fun t => negb (has_posting (db s) (Transaction.id t)))
       (transactions (db s))).

Fixpoint generate_each (txns : list Transaction.t) (count : Z) : M Z :=
  match txns with
  | [] => ret count
  | txn :: rest =>
      generate_postings_for_transaction txn ;;;
      generate_each rest (count + 1)
  end.

Definition generate_all_postings (limit : nat) : M Z :=
  fun s => generate_each (firstn limit (unposted s)) 0 s.

(** ** Ordering of query results

    [ORDER BY] is modelled by a stable insertion sort: rows with equal keys
    stay in table order. *)

Fixpoint insert_by {A} (leb : A -> A -> bool) (x : A) (l : list A) : list A :=
  match l with
  | [] => [x]
  | y :: l' => if leb x y then x :: y :: l' else y :: insert_by leb x l'
  end.

Definition sort_by {A} (leb : A -> A -> bool) (l : list A) : list A :=
  fold_right (insert_by leb) [] l.

Definition date_leb (a b : Date) : bool :=
  if year a <? year b then true
  else if year b <? year a then false
  else if month a <? month b then true
  else if month b <? month a then false
  else day a <=? day b.

Definition is_none {A} (o : option A) : bool :=
  match o with
  | None => true
  | Some _ => false
  end.

(** [session.query(m.Rule).filter(m.Rule.active.is_(True))
       .order_by(m.Rule.priority.asc()).all()] *)
Definition active_rules (s : Session) : list Rule.t :=
  sort_by (fun a b => Rule.priority a <=? Rule.priority b)
    (filter Rule.active (rules (db s))).

(** [session.query(m.Transaction).filter(m.Transaction.category_id.is_(None))]:
    the filter is evaluated on the rows of the database. *)
Definition uncategorized (s : Session) : list Transaction.t :=
  filter (fun t => is_none (Transaction.category_id t)) (transactions (db s)).

(** ** services/rules_engine.py *)

Module RuleMatch.
Record t := mk { transaction_id : Z; rule_id : Z; category_id : Z }.
End RuleMatch.

Section Services.

(** The library functions the services call.
    [re_search p d] is [re.search(p, d, flags=re.IGNORECASE)]: [Some true]
    for a match object, [Some false] for [None], and [None] when the call
    raises [re.error].
    [strptime v fmt] is [datetime.strptime(v, fmt).date()], [None] when it
    raises.  [py_float c] is [float(c)] in hundredths, [None] when it
    raises. *)
Variable re_search : string -> string -> option bool.
Variable strptime : string -> string -> option Date.
Variable py_float : string -> option Z.

Definition _rule_matches (rule : Rule.t) (description : string) (amount : Z)
  : Res bool :=
  if negb (Rule.active rule) then Ok false
  else
    match re_search (Rule.pattern rule) description with
    | None => Raise ReError
    | Some false => Ok false
    | Some true =>
        if match Rule.amount_min rule with
           | Some lo => amount <? lo
           | None => false
           end
        then Ok false
        else if match Rule.amount_max rule with
                | Some hi => amount >? hi
                | None => false
                end
        then Ok false
        else Ok true
    end.

(** The inner loop of [dry_run_matches]: [for rule in rules: ... break]. *)
Fixpoint dry_run_txn (rules : list Rule.t) (txn : Transaction.t)
    (results : list RuleMatch.t) : Res (list RuleMatch.t) :=
  match rules with
  | [] => Ok results
  | rule :: rest =>
      match _rule_matches rule (Transaction.description txn)
              (Transaction.amount txn) with
      | Raise e => Raise e
      | Ok true =>
          Ok (results ++
                [RuleMatch.mk (Transaction.id txn) (Rule.id rule)
                   (Rule.category_id rule)])
      | Ok false => dry_run_txn rest txn results
      end
  end.

Fixpoint dry_run_loop (rules : list Rule.t) (txns : list Transaction.t)
    (results : list RuleMatch.t) : Res (list RuleMatch.t) :=
  match txns with
  | [] => Ok results
  | txn :: rest =>
      match dry_run_txn rules txn results with
      | Raise e => Raise e
      | Ok results' => dry_run_loop rules rest results'
      end
  end.

(** The transactions [dry_run_matches] looks at: uncategorized, most
    recent first, at most [limit]. *)
Definition dry_run_transactions (limit : nat) (s : Session) : list Transaction.t :=
  map (load (dirty s))
    (firstn limit
       (sort_by (fun a b => date_leb (Transaction.date b) (Transaction.date a))
          (uncategorized s))).

Definition dry_run_matches (limit : nat) : M (list RuleMatch.t) :=
  fun s =>
    match dry_run_loop (active_rules s) (dry_run_transactions limit s) [] with
    | Raise e => Raise e
    | Ok results => Ok (results, s)
    end.

(** [txn.category_id = c] on a loaded transaction. *)
Definition assign_category (txn : Transaction.t) (c : Z) : M unit :=
  fun s => Ok (tt, mkSession (db s) (new s) (dirty s ++ [(Transaction.id txn, c)])).

(** The inner loop of [apply_rules]. *)
Fixpoint apply_rules_txn (rules : list Rule.t) (txn : Transaction.t)
    (updated : Z) : M Z :=
  match rules with
  | [] => ret updated
  | rule :: rest =>
      match _rule_matches rule (Transaction.description txn)
              (Transaction.amount txn) with
      | Raise e => raise e
      | Ok true =>
          assign_category txn (Rule.category_id rule) ;;;
          ret (updated + 1)
      | Ok false => apply_rules_txn rest txn updated
      end
  end.

Fixpoint apply_rules_loop (rules : list Rule.t) (txns : list Transaction.t)
    (updated : Z) : M Z :=
  match txns with
  | [] => ret updated
  | txn :: rest =>
      updated' <- apply_rules_txn rules txn updated ;;
      apply_rules_loop rules rest updated'
  end.

(** The transactions [apply_rules] iterates over: uncategorized, oldest
    first.  The result set is fixed when the query runs; [yield_per] only
    sets how many rows are fetched at a time. *)
Definition apply_rules_transactions (s : Session) : list Transaction.t :=
  map (load (dirty s))
    (sort_by (fun a b => date_leb (Transaction.date a) (Transaction.date b))
       (uncategorized s)).

Definition apply_rules (batch_size : nat) : M Z :=
  fun s => apply_rules_loop (active_rules s) (apply_rules_transactions s) 0 s.

(** ** services/importer.py *)

Record ImportMapping := mkImportMapping {
  date_col : string;
  description_col : string;
  amount_col : string;
  source_account_name : string }.

(** A row of the data frame: column name and cell.  A cell is kept as the
    text [str(cell)] gives. *)
Definition Row := list (string * string).

Definition is_space (c : ascii) : bool :=
  let n := N_of_ascii c in
  ((9 <=? n) && (n <=? 13) || (n =? 32))%N.

Fixpoint lstrip (v : string) : string :=
  match v with
  | String c v' => if is_space c then lstrip v' else v
  | EmptyString => EmptyString
  end.

Fixpoint rstrip (v : string) : string :=
  match v with
  | String c v' =>
      match rstrip v' with
      | EmptyString => if is_space c then EmptyString else String c EmptyString
      | r => String c r
      end
  | EmptyString => EmptyString
  end.

Definition strip (v : string) : string := rstrip (lstrip v).

Definition SUPPORTED_DATE_FORMATS : list string := ["%Y-%m-%d"; "%m/%d/%Y"]%string.

Fixpoint parse_date_with (formats : list string) (value : string) : Res Date :=
  match formats with
  | [] => Raise ValueError
  | fmt :: rest =>
      match strptime (strip value) fmt with
      | Some d => Ok d
      | None => parse_date_with rest value
      end
  end.

Definition parse_date (value : string) : Res Date :=
  parse_date_with SUPPORTED_DATE_FORMATS value.

(** [row[col]] *)
Definition getitem (row : Row) (col : string) : Res string :=
  match find (fun kv => String.eqb (fst kv) col) row with
  | Some kv => Ok (snd kv)
  | None => Raise KeyError
  end.

Definition lift {A} (r : Res A) : M A :=
  fun s => match r with
           | Ok a => Ok (a, s)
           | Raise e => Raise e
           end.

Definition float_cell (c : string) : Res Z :=
  match py_float c with
  | Some z => Ok z
  | None => Raise ValueError
  end.

(** The date of a row, inside [try: ... except Exception: continue]. *)
Definition row_date (row : Row) (mapping : ImportMapping) : Res Date :=
  match getitem row (date_col mapping) with
  | Ok v => parse_date v
  | Raise e => Raise e
  end.

Fixpoint import_rows (rows : list Row) (mapping : ImportMapping)
    (account : Account.t) (created : Z) : M Z :=
  match rows with
  | [] => ret created
  | row :: rest =>
      match row_date row mapping with
      | Raise _ => import_rows rest mapping account created
      | Ok dt =>
          desc <- lift (getitem row (description_col mapping)) ;;
          cell <- lift (getitem row (amount_col mapping)) ;;
          amt <- lift (float_cell cell) ;;
          add (NewTransaction dt desc amt (Account.id account)) ;;;
          import_rows rest mapping account (created + 1)
      end
  end.

(** [df] is the frame [pd.read_csv(csv_path)] returned. *)
Definition import_transactions (df : list Row) (mapping : ImportMapping) : M Z :=
  found <- account_by_name (source_account_name mapping) ;;
  account <- match found with
             | Some a => ret a
             | None => create_account (source_account_name mapping) "asset"
             end ;;
  import_rows df mapping account 0.

End Services.

(** ** Notions used in the statements *)

Definition postings_of (d : Db) (tid : Z) : list Posting.t :=
  filter (fun p => Posting.transaction_id p =? tid) (postings d).

Definition sum_debit (ps : list Posting.t) : Z :=
  fold_right (fun p acc => Posting.debit p + acc) 0 ps.

Definition sum_credit (ps : list Posting.t) : Z :=
  fold_right (fun p acc => Posting.credit p + acc) 0 ps.

(** What a posting says, without its row id. *)
Module Entry.
Record t := mk { transaction_id : Z; account_id : Z; debit : Z; credit : Z }.
End Entry.

Definition entry (p : Posting.t) : Entry.t :=
  Entry.mk (Posting.transaction_id p) (Posting.account_id p)
    (Posting.debit p) (Posting.credit p).

Definition entries_of (tid : Z) (es : list Entry.t) : list Entry.t :=
  filter (fun e => Entry.transaction_id e =? tid) es.

(** The postings pending in a session. *)
Definition pending_entries (l : list New) : list Entry.t :=
  flat_map (fun o => match o with
                     | NewPosting tid aid dr cr => [Entry.mk tid aid dr cr]
                     | NewTransaction _ _ _ _ => []
                     end) l.

(** The postings a transaction will have once the session is committed,
    without their row ids. *)
Definition ledger_of (s : Session) (tid : Z) : list Entry.t :=
  map entry (postings_of (db s) tid) ++ entries_of tid (pending_entries (new s)).

Definition new_posting (e : Entry.t) : New :=
  NewPosting (Entry.transaction_id e) (Entry.account_id e)
    (Entry.debit e) (Entry.credit e).

(** The session after the bulk DELETE of a transaction's postings. *)
Definition deleted (tid : Z) (s : Session) : Session :=
  mkSession
    (mkDb (accounts (db s)) (categories (db s)) (transactions (db s))
       (filter (fun p => negb (Posting.transaction_id p =? tid)) (postings (db s)))
       (rules (db s)))
    (new s) (dirty s).

(** The session after an account has been added and flushed. *)
Definition with_account (n ty : string) (s : Session) : Session :=
  let s1 := flush_session s in
  mkSession
    (mkDb (accounts (db s1) ++
             [Account.mk (next_id (map Account.id (accounts (db s1)))) n ty])
       (categories (db s1)) (transactions (db s1)) (postings (db s1))
       (rules (db s1)))
    [] [].

(** The names the generator uses on each side: expense for an outflow,
    income otherwise. *)
Definition role_prefix (t : Transaction.t) : string :=
  if Transaction.amount t <? 0 then "Expense" else "Income".

Definition role_generic (t : Transaction.t) : string :=
  if Transaction.amount t <? 0 then "Expenses" else "Income".

Definition role_type (t : Transaction.t) : string :=
  if Transaction.amount t <? 0 then "expense" else "income".

(** The two postings the generator writes for a transaction, given the
    counterpart account. *)
Definition entries_for (t : Transaction.t) (counterpart : Z) : list Entry.t :=
  if Transaction.amount t <? 0 then
    [Entry.mk (Transaction.id t) (Transaction.source_account_id t)
       0 (Z.abs (Transaction.amount t));
     Entry.mk (Transaction.id t) counterpart (Z.abs (Transaction.amount t)) 0]
  else
    [Entry.mk (Transaction.id t) (Transaction.source_account_id t)
       (Z.abs (Transaction.amount t)) 0;
     Entry.mk (Transaction.id t) counterpart 0 (Z.abs (Transaction.amount t))].

Definition transaction_by_id (d : Db) (tid : Z) : option Transaction.t :=
  find (fun t => Transaction.id t =? tid) (transactions d).

(** The category [dry_run_matches] reports for a transaction. *)
Definition predicted (results : list RuleMatch.t) (tid : Z) : option Z :=
  option_map RuleMatch.category_id
    (find (fun r => RuleMatch.transaction_id r =? tid) results).

(** The category stored for a transaction. *)
Definition persisted (d : Db) (tid : Z) : option Z :=
  match transaction_by_id d tid with
  | Some t => Transaction.category_id t
  | None => None
  end.

(** The four conditions of a rule on a description and an amount. *)
Definition conditions (re_search : string -> string -> option bool)
    (rule : Rule.t) (description : string) (amount : Z) : Prop :=
  Rule.active rule = true /\
  re_search (Rule.pattern rule) description = Some true /\
  (forall lo, Rule.amount_min rule = Some lo -> lo <= amount) /\
  (forall hi, Rule.amount_max rule = Some hi -> amount <= hi).

(** The first rule of a list that matches, as both loops of the rules
    engine look for it: an earlier rule whose pattern does not compile
    raises. *)
Fixpoint first_match (re_search : string -> string -> option bool)
    (rules : list Rule.t) (description : string) (amount : Z)
  : Res (option Rule.t) :=
  match rules with
  | [] => Ok None
  | rule :: rest =>
      match _rule_matches re_search rule description amount with
      | Raise e => Raise e
      | Ok true => Ok (Some rule)
      | Ok false => first_match re_search rest description amount
      end
  end.

Definition matched_rule (re_search : string -> string -> option bool)
    (rules : list Rule.t) (t : Transaction.t) : option Rule.t :=
  match first_match re_search rules (Transaction.description t)
          (Transaction.amount t) with
  | Ok (Some r) => Some r
  | _ => None
  end.

Definition matched_category (re_search : string -> string -> option bool)
    (rules : list Rule.t) (t : Transaction.t) : option Z :=
  option_map Rule.category_id (matched_rule re_search rules t).

(** A transaction after rule application: an uncategorized transaction
    takes the category of its first matching rule, any other is kept. *)
Definition categorize (re_search : string -> string -> option bool)
    (rules : list Rule.t) (t : Transaction.t) : Transaction.t :=
  match Transaction.category_id t, matched_category re_search rules t with
  | None, Some c => set_category (Transaction.id t) c t
  | _, _ => t
  end.

(** The counterpart account of a transaction can be resolved in a store:
    the category exists when one is assigned, the seeded generic account
    exists otherwise. *)
Definition resolvable (d : Db) (t : Transaction.t) : Prop :=
  match Transaction.category_id t with
  | Some cid =>
      if cid =? 0
      then find (fun a => String.eqb (Account.name a) (role_generic t))
             (accounts d) <> None
      else find (fun c => Category.id c =? cid) (categories d) <> None
  | None =>
      find (fun a => String.eqb (Account.name a) (role_generic t))
        (accounts d) <> None
  end.

(** No rule that is reached for the transaction raises. *)
Definition evaluates (re_search : string -> string -> option bool)
    (rules : list Rule.t) (t : Transaction.t) : Prop :=
  exists o, first_match re_search rules (Transaction.description t)
              (Transaction.amount t) = Ok o.

(** What the two loops produce over a list of transactions. *)
Definition matches_of (re_search : string -> string -> option bool)
    (rules : list Rule.t) (txns : list Transaction.t) : list RuleMatch.t :=
  flat_map (fun t => match matched_rule re_search rules t with
                     | Some r => [RuleMatch.mk (Transaction.id t) (Rule.id r)
                                    (Rule.category_id r)]
                     | None => []
                     end) txns.

Definition assignments_of (re_search : string -> string -> option bool)
    (rules : list Rule.t) (txns : list Transaction.t) : list (Z * Z) :=
  flat_map (fun t => match matched_rule re_search rules t with
                     | Some r => [(Transaction.id t, Rule.category_id r)]
                     | None => []
                     end) txns.

(** Rows whose date is accepted by [parse_date]. *)
Definition date_ok (strptime : string -> string -> option Date)
    (mapping : ImportMapping) (row : Row) : bool :=
  match row_date strptime row mapping with
  | Ok _ => true
  | Raise _ => false
  end.

(** A row that converts to a transaction, and the transaction it
    converts to: date, description and amount come from the mapped cells,
    the source account is the one resolved by the import, and no category
    is assigned. *)
Definition imported (strptime : string -> string -> option Date)
    (py_float : string -> option Z) (mapping : ImportMapping) (source : Z)
    (row : Row) (t : Transaction.t) : Prop :=
  row_date strptime row mapping = Ok (Transaction.date t) /\
  getitem row (description_col mapping) = Ok (Transaction.description t) /\
  (exists cell, getitem row (amount_col mapping) = Ok cell /\
                py_float cell = Some (Transaction.amount t)) /\
  Transaction.source_account_id t = source /\
  Transaction.category_id t = None.

(** The same, for the object still pending in the session. *)
Definition imported_new (strptime : string -> string -> option Date)
    (py_float : string -> option Z) (mapping : ImportMapping) (source : Z)
    (row : Row) (o : New) : Prop :=
  match o with
  | NewTransaction dt desc amt src =>
      row_date strptime row mapping = Ok dt /\
      getitem row (description_col mapping) = Ok desc /\
      (exists cell, getitem row (amount_col mapping) = Ok cell /\
                    py_float cell = Some amt) /\
      src = source
  | NewPosting _ _ _ _ => False
  end.

(** A row the import can convert or skip: its date is rejected, or its
    three mapped cells are all usable. *)
Definition row_valid (strptime : string -> string -> option Date)
    (py_float : string -> option Z) (mapping : ImportMapping) (row : Row)
  : Prop :=
  date_ok strptime mapping row = false \/
  exists dt desc cell amt,
    row_date strptime row mapping = Ok dt /\
    getitem row (description_col mapping) = Ok desc /\
    getitem row (amount_col mapping) = Ok cell /\
    py_float cell = Some amt.

(** ** A model of the library functions on a fragment of their inputs

    The services are parametric in [re_search], [strptime] and [py_float];
    the definitions below give them on the inputs the examples use. *)

Module PyRe.

(** Regular expressions: literals, [.], [|], grouping, [*], [+], [?].
    Patterns that use an opening bracket, a backslash, a caret, a dollar or
    an opening brace, or the [(?] extensions, are outside the fragment and
    rejected by [parse]. *)
Inductive re :=
| Nul
| Eps
| Sym (p : ascii -> bool)
| Alt (a b : re)
| Cat (a b : re)
| Star (a : re).

Fixpoint nullable (r : re) : bool :=
  match r with
  | Nul => false
  | Eps => true
  | Sym _ => false
  | Alt a b => nullable a || nullable b
  | Cat a b => nullable a && nullable b
  | Star _ => true
  end.

Fixpoint deriv (c : ascii) (r : re) : re :=
  match r with
  | Nul => Nul
  | Eps => Nul
  | Sym p => if p c then Eps else Nul
  | Alt a b => Alt (deriv c a) (deriv c b)
  | Cat a b =>
      if nullable a then Alt (Cat (deriv c a) b) (deriv c b)
      else Cat (deriv c a) b
  | Star a => Cat (deriv c a) (Star a)
  end.

Fixpoint matches (r : re) (s : string) : bool :=
  match s with
  | EmptyString => nullable r
  | String c s' => matches (deriv c r) s'
  end.

(** [re.IGNORECASE] on ASCII letters. *)
Definition lower (c : ascii) : ascii :=
  let n := N_of_ascii c in
  if ((65 <=? n) && (n <=? 90))%N then ascii_of_N (n + 32) else c.

Definition lit (a : ascii) : re := Sym (fun c => Ascii.eqb (lower c) (lower a)).
Definition dot : re := Sym (fun c => negb (Ascii.eqb c "010"%char)).
Definition any : re := Sym (fun _ => true).

Definition outside (c : ascii) : bool :=
  existsb (Ascii.eqb c) ["["; "\"; "^"; "$"; "{"]%char.

(** An optional quantifier after an atom; a second [*] or [+] is
    "multiple repeat", a [?] after a quantifier only makes it lazy. *)
Definition quantified (r : re) (rest : string) : option (re * string) :=
  let lazy (q : re) (rest' : string) :=
    match rest' with
    | String "*" _ => None
    | String "+" _ => None
    | String "?" rest'' => Some (q, rest'')
    | _ => Some (q, rest')
    end in
  match rest with
  | String "*" rest' => lazy (Star r) rest'
  | String "+" rest' => lazy (Cat r (Star r)) rest'
  | String "?" rest' => lazy (Alt Eps r) rest'
  | _ => Some (r, rest)
  end.

Fixpoint parse_alt (fuel : nat) (s : string) : option (re * string) :=
  match fuel with
  | O => None
  | S fuel' =>
      match parse_cat fuel' s with
      | Some (r, String "|" rest) =>
          match parse_alt fuel' rest with
          | Some (r', rest') => Some (Alt r r', rest')
          | None => None
          end
      | other => other
      end
  end
with parse_cat (fuel : nat) (s : string) : option (re * string) :=
  match fuel with
  | O => None
  | S fuel' =>
      match s with
      | EmptyString => Some (Eps, s)
      | String "|" _ => Some (Eps, s)
      | String ")" _ => Some (Eps, s)
      | _ =>
          match parse_atom fuel' s with
          | Some (r, rest) =>
              match quantified r rest with
              | Some (q, rest') =>
                  match parse_cat fuel' rest' with
                  | Some (r', rest'') => Some (Cat q r', rest'')
                  | None => None
                  end
              | None => None
              end
          | None => None
          end
      end
  end
with parse_atom (fuel : nat) (s : string) : option (re * string) :=
  match fuel with
  | O => None
  | S fuel' =>
      match s with
      | EmptyString => None
      | String "(" (String "?" _) => None
      | String "(" rest =>
          match parse_alt fuel' rest with
          | Some (r, String ")" rest') => Some (r, rest')
          | _ => None
          end
      | String "*" _ => None
      | String "+" _ => None
      | String "?" _ => None
      | String "." rest => Some (dot, rest)
      | String c rest => if outside c then None else Some (lit c, rest)
      end
  end.

(** [re.compile]: [None] for a pattern that does not compile (nothing to
    repeat, unterminated group, unbalanced parenthesis, ...). *)
Definition parse (p : string) : option re :=
  match parse_alt (3 * String.length p + 3) p with
  | Some (r, EmptyString) => Some r
  | _ => None
  end.

Definition search (p d : string) : option bool :=
  match parse p with
  | Some r => Some (matches (Cat (Star any) (Cat r (Star any))) d)
  | None => None
  end.

End PyRe.

(** Plain substring test, ignoring case: what rule matching would be if it
    were not a regular-expression search. *)
Fixpoint prefix_ci (p d : string) : bool :=
  match p, d with
  | EmptyString, _ => true
  | String a p', String b d' =>
      Ascii.eqb (PyRe.lower a) (PyRe.lower b) && prefix_ci p' d'
  | String _ _, EmptyString => false
  end.

Fixpoint substring_ci (p d : string) : bool :=
  prefix_ci p d ||
  match d with
  | EmptyString => false
  | String _ d' => substring_ci p d'
  end.

Module PyTime.

Definition digit (c : ascii) : option Z :=
  let n := N_of_ascii c in
  if ((48 <=? n) && (n <=? 57))%N then Some (Z.of_N n - 48) else None.

(** The number a string of digits writes; [Some acc] on the empty string. *)
Fixpoint number (s : string) (acc : Z) : option Z :=
  match s with
  | EmptyString => Some acc
  | String c s' =>
      match digit c with
      | Some d => number s' (10 * acc + d)
      | None => None
      end
  end.

Fixpoint split (sep : ascii) (s : string) : list string :=
  match s with
  | EmptyString => [EmptyString]
  | String c s' =>
      if Ascii.eqb c sep then EmptyString :: split sep s'
      else match split sep s' with
           | h :: t => String c h :: t
           | [] => [String c EmptyString]
           end
  end.

Definition between (lo hi : Z) (o : option Z) : option Z :=
  match o with
  | Some n => if (lo <=? n) && (n <=? hi) then Some n else None
  | None => None
  end.

Definition short (s : string) : bool :=
  ((1 <=? String.length s) && (String.length s <=? 2))%nat.

(** Directive [%Y]: four digits. *)
Definition field_Y (s : string) : option Z :=
  if (String.length s =? 4)%nat then number s 0 else None.

(** Directive [%m]: [1[0-2]|0[1-9]|[1-9]]. *)
Definition field_m (s : string) : option Z :=
  if short s then between 1 12 (number s 0) else None.

(** Directive [%d]: [3[01]|[12]\d|0[1-9]|[1-9]| [1-9]]. *)
Definition field_d (s : string) : option Z :=
  match s with
  | String " " (String c EmptyString) => between 1 9 (digit c)
  | _ => if short s then between 1 31 (number s 0) else None
  end.

Definition leap (y : Z) : bool :=
  (y mod 4 =? 0) && (negb (y mod 100 =? 0) || (y mod 400 =? 0)).

Definition days_in_month (y m : Z) : Z :=
  if m =? 2 then (if leap y then 29 else 28)
  else if (m =? 4) || (m =? 6) || (m =? 9) || (m =? 11) then 30
  else 31.

(** [datetime.date(y, m, d)], [None] for a day the month does not have or
    a year below [MINYEAR]. *)
Definition make_date (y m d : option Z) : option Date :=
  match y, m, d with
  | Some y, Some m, Some d =>
      if (1 <=? y) && (d <=? days_in_month y m) then Some (mkDate y m d)
      else None
  | _, _, _ => None
  end.

(** [strptime] for the two formats of [SUPPORTED_DATE_FORMATS]; the whole
    string has to be consumed. *)
Definition strptime (v fmt : string) : option Date :=
  if String.eqb fmt "%Y-%m-%d" then
    match split "-" v with
    | [y; m; d] => make_date (field_Y y) (field_m m) (field_d d)
    | _ => None
    end
  else if String.eqb fmt "%m/%d/%Y" then
    match split "/" v with
    | [m; d; y] => make_date (field_Y y) (field_m m) (field_d d)
    | _ => None
    end
  else None.

End PyTime.

Module PyFloat.

(** [float] on plain decimal text: optional sign, digits, optional point
    and at most two digits after it, blanks around.  Exponents, [inf],
    [nan], underscores and longer fractions are outside the fragment. *)
Definition unsigned (s : string) : option Z :=
  match PyTime.split "." s with
  | [i] =>
      if (1 <=? String.length i)%nat
      then option_map (Z.mul 100) (PyTime.number i 0) else None
  | [i; f] =>
      if ((1 <=? String.length i + String.length f)
          && (String.length f <=? 2))%nat
      then
        match PyTime.number i 0, PyTime.number f 0 with
        | Some a, Some b =>
            Some (100 * a + (if (String.length f =? 1)%nat then 10 * b else b))
        | _, _ => None
        end
      else None
  | _ => None
  end.

Definition float (c : string) : option Z :=
  match strip c with
  | String "-" s => option_map Z.opp (unsigned s)
  | String "+" s => unsigned s
  | s => unsigned s
  end.

End PyFloat.

(** ** A seeded store

    The accounts and categories of [seed_minimal] (db/init_db.py), three
    imported transactions, one of them already posted, and three rules. *)

Module Example.

Definition checking : Account.t := Account.mk 1 "Checking" "asset".

Definition seeded_accounts : list Account.t :=
  [checking; Account.mk 2 "Savings" "asset"; Account.mk 3 "Income" "income";
   Account.mk 4 "Expenses" "expense"; Account.mk 5 "Transfers" "equity"].

Definition seeded_categories : list Category.t :=
  [Category.mk 1 "Groceries" None; Category.mk 2 "Rent" None;
   Category.mk 3 "Utilities" None; Category.mk 4 "Dining" None;
   Category.mk 5 "Salary" None; Category.mk 6 "Misc" None].

Definition walmart : Transaction.t :=
  Transaction.mk 1 (mkDate 2024 3 5) "WALMART #123" (-4250) 1 None None.

Definition payroll : Transaction.t :=
  Transaction.mk 2 (mkDate 2024 3 1) "ACME PAYROLL" 100000 1 None None.

Definition rent : Transaction.t :=
  Transaction.mk 3 (mkDate 2024 3 2) "RENT MARCH" (-120000) 1 None (Some 2).

Definition adjustment : Transaction.t :=
  Transaction.mk 4 (mkDate 2024 3 9) "BALANCE ADJUSTMENT" 0 1 None None.

Definition rent_postings : list Posting.t :=
  [Posting.mk 1 3 1 0 120000; Posting.mk 2 3 4 120000 0].

Definition groceries_rule : Rule.t :=
  Rule.mk 1 "walmart" 1 None None 10 true.

Definition salary_rule : Rule.t :=
  Rule.mk 2 "payroll|salary" 5 (Some 0) None 20 true.

Definition misc_rule : Rule.t :=
  Rule.mk 3 "wal" 6 None None 50 true.

Definition store : Db :=
  mkDb seeded_accounts seeded_categories [walmart; payroll; rent; adjustment]
    rent_postings [misc_rule; groceries_rule; salary_rule].

(** The same store with one more rule, of the lowest priority value,
    whose pattern does not compile. *)
Definition broken_rule : Rule.t :=
  Rule.mk 4 "(" 1 None None 1 true.

Definition broken_store : Db :=
  mkDb seeded_accounts seeded_categories [walmart; payroll; rent; adjustment]
    rent_postings [misc_rule; groceries_rule; salary_rule; broken_rule].

Definition mapping : ImportMapping :=
  mkImportMapping "Date" "Description" "Amount" "Checking".

Definition row (date description amount : string) : Row :=
  [("Date", date); ("Description", description); ("Amount", amount)]%string.

(** Two good rows around a row whose date no format accepts. *)
Definition frame : list Row :=
  [row "2024-03-05" "WALMART #123" "-42.50";
   row "5 March 2024" "COFFEE" "-3.20";
   row "03/01/2024" "ACME PAYROLL" "1000.00"].

(** A row whose date parses and whose amount does not. *)
Definition frame_bad_amount : list Row :=
  [row "2024-03-05" "WALMART #123" "-42.50";
   row "2024-03-06" "COFFEE" "three dollars"].

(** A row whose amount does not parse and whose date does not either. *)
Definition frame_bad_both : list Row :=
  [row "2024-03-05" "WALMART #123" "-42.50";
   row "yesterday" "COFFEE" "three dollars"].

End Example.

(** ** services/reports.py and db/init_db.py *)

(** [session.query(m.Transaction)
       .filter(m.Transaction.category_id.is_(None)).count()] *)
Definition get_uncategorized_count : M Z :=
  fun s => Ok (Z.of_nat (List.length (uncategorized s)), s).

(** The accounts and categories [seed_minimal] lists. *)
Definition SEED_ACCOUNTS : list (string * string) :=
  [("Checking", "asset"); ("Savings", "asset"); ("Income", "income");
   ("Expenses", "expense"); ("Transfers", "equity")]%string.

Definition SEED_CATEGORIES : list string :=
  ["Groceries"; "Rent"; "Utilities"; "Dining"; "Salary"; "Misc"]%string.

Definition has_account (d : Db) (n : string) : bool :=
  negb (is_none (find (fun a => String.eqb (Account.name a) n) (accounts d))).

Definition has_category (d : Db) (n : string) : bool :=
  negb (is_none (find (fun c => String.eqb (Category.name c) n) (categories d))).

(** The INSERTs of the accounts and categories added by [seed_minimal]. *)
Definition insert_account (accs : list Account.t) (nt : string * string)
  : list Account.t :=
  accs ++ [Account.mk (next_id (map Account.id accs)) (fst nt) (snd nt)].

Definition insert_category (cats : list Category.t) (n : string)
  : list Category.t :=
  cats ++ [Category.mk (next_id (map Category.id cats)) n None].

(** [seed_minimal]: each listed account and category that no row of the
    database has yet is added to the session (the lookups do not see what
    the function itself has added, the names in the lists are distinct),
    and [session.commit()] writes everything. *)
Definition seed_minimal : M unit :=
  fun s =>
    let accounts_added :=
      filter (fun nt => negb (has_account (db s) (fst nt))) SEED_ACCOUNTS in
    let categories_added :=
      filter (fun n => negb (has_category (db s) n)) SEED_CATEGORIES in
    let d := db (flush_session s) in
    Ok (tt,
        mkSession
          (mkDb (fold_left insert_account accounts_added (accounts d))
             (fold_left insert_category categories_added (categories d))
             (transactions d) (postings d) (rules d))
          [] []).

(** The store [main] leaves after seeding a store. *)
Definition seeded (d : Db) : Db :=
  match seed_minimal (mkSession d [] []) with
  | Ok (_, s) => db s
  | Raise _ => d
  end.

(** ** More notions used in the statements *)

(** The name of the counterpart account the generator posts to. *)
Definition counterpart_name (d : Db) (t : Transaction.t) : option string :=
  match Transaction.category_id t with
  | Some cid =>
      if cid =? 0 then Some (role_generic t)
      else option_map
             (fun c => String.append (role_prefix t)
                         (String.append ":" (Category.name c)))
             (find (fun c => Category.id c =? cid) (categories d))
  | None => Some (role_generic t)
  end.

(** The transactions the batch selects in a store. *)
Definition batch_selection (limit : nat) (d : Db) : list Transaction.t :=
  firstn limit
    (filter (fun t => negb (has_posting d (Transaction.id t))) (transactions d)).

(** Every transaction's postings balance. *)
Definition balanced (d : Db) : Prop :=
  forall tid, sum_debit (postings_of d tid) = sum_credit (postings_of d tid).

(** The CHECK constraint of the postings table. *)
Definition non_negative (d : Db) : Prop :=
  Forall (fun p => 0 <= Posting.debit p /\ 0 <= Posting.credit p) (postings d).

(** The keys of the accounts and postings tables: primary keys and the
    unique account name. *)
Definition keys_distinct (d : Db) : Prop :=
  NoDup (map Account.id (accounts d)) /\
  NoDup (map Account.name (accounts d)) /\
  NoDup (map Posting.id (postings d)).

(** Strings made of the characters [str.strip()] removes. *)
Fixpoint all_space (v : string) : bool :=
  match v with
  | EmptyString => true
  | String c v' => is_space c && all_space v'
  end.

(** ** More example stores *)

Module Sample.

(** The example store before seeding: only the bank account exists. *)
Definition bare_store : Db :=
  mkDb [Example.checking] Example.seeded_categories
    [Example.walmart; Example.payroll; Example.rent; Example.adjustment]
    Example.rent_postings
    [Example.misc_rule; Example.groceries_rule; Example.salary_rule].

End Sample.

(** * Properties *)

(** ** Flushing *)

Lemma load_nil : forall t, load [] t = t.
Proof. reflexivity. Qed.

Lemma map_load_nil : forall l, map (load []) l = l.
Proof. intro l. apply map_id. Qed.

Lemma insert_new_frame : forall l d,
  accounts (fold_left insert_new l d) = accounts d /\
  categories (fold_left insert_new l d) = categories d /\
  rules (fold_left insert_new l d) = rules d.
Proof.
  induction l as [|o l IH]; intro d; simpl.
  - auto.
  - destruct (IH (insert_new d o)) as (Ha & Hc & Hr).
    rewrite Ha, Hc, Hr. destruct o; simpl; auto.
Qed.

Lemma insert_new_postings : forall l d,
  exists ps,
    postings (fold_left insert_new l d) = postings d ++ ps /\
    map entry ps = pending_entries l.
Proof.
  induction l as [|o l IH]; intro d; simpl.
  - exists []. rewrite app_nil_r. auto.
  - destruct (IH (insert_new d o)) as (ps & Hp & He).
    destruct o as [dt desc amt src | tid aid dr cr]; simpl in *.
    + exists ps. auto.
    + eexists (_ :: ps). rewrite Hp, <- app_assoc. simpl. split.
      * reflexivity.
      * rewrite He. reflexivity.
Qed.

Lemma insert_new_posting_transactions : forall es d,
  transactions (fold_left insert_new (map new_posting es) d) = transactions d.
Proof.
  induction es as [|e es IH]; intro d; simpl.
  - reflexivity.
  - rewrite IH. reflexivity.
Qed.

(** ** The posting generator *)

Lemma create_account_eq : forall n ty s,
  create_account n ty s =
  Ok (Account.mk (next_id (map Account.id (accounts (db (flush_session s))))) n ty,
      with_account n ty s).
Proof. reflexivity. Qed.

Lemma bind_ok : forall A B (m : M A) (k : A -> M B) s r,
  bind m k s = Ok r ->
  exists a s1, m s = Ok (a, s1) /\ k a s1 = Ok r.
Proof.
  intros A B m k s r. unfold bind.
  destruct (m s) as [[a s1]|e]; [eauto | discriminate].
Qed.

Lemma attr_ok : forall A B (f : A -> B) x s r,
  attr f x s = Ok r -> exists a, x = Some a /\ r = (f a, s).
Proof.
  intros A B f [a|] s r; unfold attr, ret, raise; intro H; inversion H; eauto.
Qed.

Lemma counterpart_account_cases : forall t prefix generic ty s oa s1,
  counterpart_account t prefix generic ty s = Ok (oa, s1) ->
  (s1 = s /\
   exists n, oa = find (fun a => String.eqb (Account.name a) n) (accounts (db s))) \/
  (exists n,
     find (fun a => String.eqb (Account.name a) n) (accounts (db s)) = None /\
     s1 = with_account n ty s /\
     oa = Some (Account.mk
                  (next_id (map Account.id (accounts (db (flush_session s))))) n ty)).
Proof.
  intros t prefix generic ty s oa s1.
  unfold counterpart_account.
  destruct (Transaction.category_id t) as [cid|].
  - destruct (cid =? 0).
    + unfold account_by_name. intro H. inversion H; subst. left. eauto.
    + intro H.
      apply bind_ok in H. destruct H as (category & s2 & Hg & H).
      unfold get_category in Hg. inversion Hg; subst s2. clear Hg.
      apply bind_ok in H. destruct H as (cname & s2 & Ha & H).
      apply attr_ok in Ha. destruct Ha as (c & _ & Ha). inversion Ha; subst s2.
      clear Ha.
      apply bind_ok in H. destruct H as (account & s2 & Hq & H).
      unfold account_by_name in Hq. inversion Hq; subst s2.
      destruct account as [a|].
      * unfold ret in H. inversion H; subst. left. split; [reflexivity|].
        eexists. symmetry. eassumption.
      * apply bind_ok in H. destruct H as (a & s2 & Hc & H).
        rewrite create_account_eq in Hc. inversion Hc; subst a s2.
        unfold ret in H. inversion H; subst.
        right. eexists. split; [eassumption|]. split; reflexivity.
  - unfold account_by_name. intro H. inversion H; subst. left. eauto.
Qed.

Lemma generate_cases : forall t s n s',
  generate_postings_for_transaction t s = Ok (n, s') ->
  n = 2 /\
  exists aid s1,
    (s1 = deleted (Transaction.id t) s \/
     exists nm ty, s1 = with_account nm ty (deleted (Transaction.id t) s)) /\
    s' = mkSession (db s1)
           (new s1 ++ map new_posting (entries_for t aid)) (dirty s1).
Proof.
  intros t s n s'.
  unfold generate_postings_for_transaction, entries_for.
  unfold bind at 1. unfold delete_postings.
  fold (deleted (Transaction.id t) s).
  destruct (Transaction.amount t <? 0).
  - unfold bind at 1.
    destruct (counterpart_account t "Expense" "Expenses" "expense"
                (deleted (Transaction.id t) s)) as [[oa s1]|e] eqn:Hc;
      [|discriminate].
    destruct oa as [a|]; simpl; [|discriminate].
    unfold bind, add, ret; simpl. intro H. inversion H; subst. split; [reflexivity|].
    exists (Account.id a), s1. split.
    + apply counterpart_account_cases in Hc.
      destruct Hc as [[-> _]|(nm & _ & -> & _)]; eauto.
    + rewrite <- app_assoc. reflexivity.
  - unfold bind at 1.
    destruct (counterpart_account t "Income" "Income" "income"
                (deleted (Transaction.id t) s)) as [[oa s1]|e] eqn:Hc;
      [|discriminate].
    destruct oa as [a|]; simpl; [|discriminate].
    unfold bind, add, ret; simpl. intro H. inversion H; subst. split; [reflexivity|].
    exists (Account.id a), s1. split.
    + apply counterpart_account_cases in Hc.
      destruct Hc as [[-> _]|(nm & _ & -> & _)]; eauto.
    + rewrite <- app_assoc. reflexivity.
Qed.

(** ** What a session will commit *)

Lemma pending_entries_app : forall l1 l2,
  pending_entries (l1 ++ l2) = pending_entries l1 ++ pending_entries l2.
Proof. intros. unfold pending_entries. apply flat_map_app. Qed.

Lemma pending_entries_new_posting : forall es,
  pending_entries (map new_posting es) = es.
Proof.
  induction es as [|[tid aid dr cr] es IH]; simpl.
  - reflexivity.
  - rewrite IH. reflexivity.
Qed.

Lemma entries_of_app : forall tid l1 l2,
  entries_of tid (l1 ++ l2) = entries_of tid l1 ++ entries_of tid l2.
Proof. intros. unfold entries_of. apply filter_app. Qed.

Lemma entries_of_map_entry : forall tid ps,
  entries_of tid (map entry ps) =
  map entry (filter (fun p => Posting.transaction_id p =? tid) ps).
Proof.
  induction ps as [|p ps IH]; simpl.
  - reflexivity.
  - destruct (Posting.transaction_id p =? tid); simpl; rewrite IH; reflexivity.
Qed.

Lemma entries_of_entries_for : forall t aid tid,
  entries_of tid (entries_for t aid) =
  if Transaction.id t =? tid then entries_for t aid else [].
Proof.
  intros t aid tid. unfold entries_for, entries_of.
  destruct (Transaction.amount t <? 0); simpl;
    destruct (Transaction.id t =? tid); reflexivity.
Qed.

Lemma insert_new_transactions_ext : forall l d1 d2,
  transactions d1 = transactions d2 ->
  transactions (fold_left insert_new l d1) =
  transactions (fold_left insert_new l d2).
Proof.
  induction l as [|o l IH]; intros d1 d2 H; simpl.
  - exact H.
  - apply IH. destruct o; simpl; rewrite H; reflexivity.
Qed.

Lemma flush_postings_of : forall s tid,
  exists ps,
    postings_of (db (flush_session s)) tid = postings_of (db s) tid ++ ps /\
    map entry ps = entries_of tid (pending_entries (new s)).
Proof.
  intros s tid. unfold flush_session, postings_of. simpl.
  destruct (insert_new_postings (new s) (db s)) as (ps & Hp & He).
  rewrite Hp, filter_app.
  exists (filter (fun p => Posting.transaction_id p =? tid) ps).
  split; [reflexivity|].
  rewrite <- He. symmetry. apply entries_of_map_entry.
Qed.

Lemma flush_ledger_of : forall s tid,
  ledger_of (flush_session s) tid = ledger_of s tid.
Proof.
  intros s tid. unfold ledger_of at 1.
  destruct (flush_postings_of s tid) as (ps & Hp & He).
  rewrite Hp, map_app, He. simpl. rewrite app_nil_r. reflexivity.
Qed.

Lemma commit_ledger_of : forall s tid,
  map entry (postings_of (commit s) tid) = ledger_of s tid.
Proof.
  intros s tid. rewrite <- flush_ledger_of. unfold ledger_of, commit. simpl.
  rewrite app_nil_r. reflexivity.
Qed.

Lemma flush_postings_of_untouched : forall s tid,
  entries_of tid (pending_entries (new s)) = [] ->
  postings_of (db (flush_session s)) tid = postings_of (db s) tid.
Proof.
  intros s tid H.
  destruct (flush_postings_of s tid) as (ps & Hp & He).
  rewrite H in He. apply map_eq_nil in He. subst ps.
  rewrite Hp. apply app_nil_r.
Qed.

Lemma deleted_postings_of : forall tid s tid',
  postings_of (db (deleted tid s)) tid' =
  if tid' =? tid then [] else postings_of (db s) tid'.
Proof.
  intros tid s tid'. unfold postings_of, deleted. simpl.
  induction (postings (db s)) as [|p ps IH]; simpl.
  - destruct (tid' =? tid); reflexivity.
  - destruct (Posting.transaction_id p =? tid) eqn:E1; simpl.
    + rewrite IH. destruct (tid' =? tid) eqn:E2; [reflexivity|].
      destruct (Posting.transaction_id p =? tid') eqn:E3; [|reflexivity].
      apply Z.eqb_eq in E1, E3. apply Z.eqb_neq in E2. congruence.
    + rewrite IH. destruct (tid' =? tid) eqn:E2.
      * destruct (Posting.transaction_id p =? tid') eqn:E3; [|reflexivity].
        apply Z.eqb_eq in E2, E3. apply Z.eqb_neq in E1. congruence.
      * reflexivity.
Qed.

Lemma deleted_ledger_of : forall tid s tid',
  ledger_of (deleted tid s) tid' =
  if tid' =? tid then entries_of tid' (pending_entries (new s))
  else ledger_of s tid'.
Proof.
  intros tid s tid'. unfold ledger_of. rewrite deleted_postings_of.
  destruct (tid' =? tid); reflexivity.
Qed.

Lemma with_account_ledger_of : forall n ty s tid,
  ledger_of (with_account n ty s) tid = ledger_of s tid.
Proof.
  intros n ty s tid. rewrite <- (flush_ledger_of s tid). reflexivity.
Qed.

Lemma deleted_commit_transactions : forall tid s,
  transactions (commit (deleted tid s)) = transactions (commit s).
Proof.
  intros tid s. unfold commit, flush_session. simpl. f_equal.
  apply insert_new_transactions_ext. reflexivity.
Qed.

Lemma flush_frame : forall s,
  categories (db (flush_session s)) = categories (db s) /\
  rules (db (flush_session s)) = rules (db s).
Proof.
  intro s. unfold flush_session. simpl.
  destruct (insert_new_frame (new s) (db s)) as (_ & Hc & Hr). auto.
Qed.

Lemma with_account_commit_transactions : forall n ty s,
  transactions (commit (with_account n ty s)) = transactions (commit s).
Proof.
  intros n ty s. unfold commit at 1. unfold flush_session. simpl.
  apply map_load_nil.
Qed.

Lemma add_entries_commit_transactions : forall s es,
  transactions
    (commit (mkSession (db s) (new s ++ map new_posting es) (dirty s))) =
  transactions (commit s).
Proof.
  intros s es. unfold commit, flush_session. simpl.
  rewrite fold_left_app, insert_new_posting_transactions. reflexivity.
Qed.

Lemma add_entries_ledger_of : forall s es tid,
  ledger_of (mkSession (db s) (new s ++ map new_posting es) (dirty s)) tid =
  ledger_of s tid ++ entries_of tid es.
Proof.
  intros s es tid. unfold ledger_of. simpl.
  rewrite pending_entries_app, pending_entries_new_posting, entries_of_app.
  apply app_assoc.
Qed.

Lemma generate_ledger : forall t s n s',
  generate_postings_for_transaction t s = Ok (n, s') ->
  n = 2 /\
  exists aid,
    ledger_of s' (Transaction.id t) =
      entries_of (Transaction.id t) (pending_entries (new s)) ++
      entries_for t aid /\
    (forall tid, tid <> Transaction.id t -> ledger_of s' tid = ledger_of s tid) /\
    (forall tid, tid <> Transaction.id t ->
       entries_of tid (pending_entries (new s)) = [] ->
       postings_of (db s') tid = postings_of (db s) tid /\
       entries_of tid (pending_entries (new s')) = []) /\
    transactions (commit s') = transactions (commit s) /\
    categories (db s') = categories (db s) /\
    rules (db s') = rules (db s).
Proof.
  intros t s n s' H.
  apply generate_cases in H. destruct H as (Hn & aid & s1 & Hs1 & ->).
  split; [exact Hn|]. exists aid.
  assert (Hne : forall tid, tid <> Transaction.id t ->
            (tid =? Transaction.id t) = false /\
            (Transaction.id t =? tid) = false).
  { intros tid Hd. split; apply Z.eqb_neq; congruence. }
  split; [|split; [|split; [|split]]].
  - rewrite add_entries_ledger_of, entries_of_entries_for, Z.eqb_refl.
    f_equal.
    destruct Hs1 as [->|(nm & ty & ->)];
      [|rewrite with_account_ledger_of];
      rewrite deleted_ledger_of, Z.eqb_refl; reflexivity.
  - intros tid Hd. destruct (Hne tid Hd) as (E1 & E2).
    rewrite add_entries_ledger_of, entries_of_entries_for, E2, app_nil_r.
    destruct Hs1 as [->|(nm & ty & ->)];
      [|rewrite with_account_ledger_of];
      rewrite deleted_ledger_of, E1; reflexivity.
  - intros tid Hd Hp. destruct (Hne tid Hd) as (E1 & E2). simpl.
    rewrite pending_entries_app, pending_entries_new_posting, entries_of_app,
      entries_of_entries_for, E2, app_nil_r.
    destruct Hs1 as [->|(nm & ty & ->)].
    + rewrite deleted_postings_of, E1. simpl. auto.
    + split; [|reflexivity].
      change (postings_of (db (flush_session (deleted (Transaction.id t) s))) tid
              = postings_of (db s) tid).
      rewrite flush_postings_of_untouched by exact Hp.
      rewrite deleted_postings_of, E1. reflexivity.
  - rewrite add_entries_commit_transactions.
    destruct Hs1 as [->|(nm & ty & ->)];
      [|rewrite with_account_commit_transactions];
      apply deleted_commit_transactions.
  - simpl. destruct Hs1 as [->|(nm & ty & ->)].
    + simpl; auto.
    + exact (flush_frame (deleted (Transaction.id t) s)).
Qed.

Lemma map_entry_entries_for : forall ps t aid,
  map entry ps = entries_for t aid ->
  List.length ps = 2%nat /\
  sum_debit ps = Z.abs (Transaction.amount t) /\
  sum_credit ps = Z.abs (Transaction.amount t) /\
  Forall (fun p => 0 <= Posting.debit p /\ 0 <= Posting.credit p) ps.
Proof.
  intros ps t aid. unfold entries_for.
  pose proof (Z.abs_nonneg (Transaction.amount t)) as Habs.
  destruct (Transaction.amount t <? 0);
    destruct ps as [|p1 [|p2 [|p3 ps]]]; simpl; try discriminate;
    intro H; inversion H;
    unfold sum_debit, sum_credit; simpl;
    repeat split; try lia;
    repeat constructor; lia.
Qed.

Lemma generate_in_scope : forall d t n s',
  generate_postings_for_transaction t (mkSession d [] []) = Ok (n, s') ->
  n = 2 /\
  transactions (commit s') = transactions d /\
  exists aid,
    map entry (postings_of (commit s') (Transaction.id t)) = entries_for t aid.
Proof.
  intros d t n s' H. apply generate_ledger in H.
  destruct H as (Hn & aid & Hl & _ & _ & Ht & _).
  split; [exact Hn|]. split.
  - rewrite Ht. unfold commit, flush_session. simpl. apply map_load_nil.
  - exists aid. rewrite commit_ledger_of, Hl. reflexivity.
Qed.

(** ** The batch loop *)

Lemma generate_each_ledger : forall txns s count n s',
  NoDup (map Transaction.id txns) ->
  (forall t, In t txns ->
     entries_of (Transaction.id t) (pending_entries (new s)) = []) ->
  generate_each txns count s = Ok (n, s') ->
  n = count + Z.of_nat (List.length txns) /\
  (forall t, In t txns ->
     exists aid, ledger_of s' (Transaction.id t) = entries_for t aid) /\
  (forall tid, ~ In tid (map Transaction.id txns) ->
     ledger_of s' tid = ledger_of s tid) /\
  (forall tid, ~ In tid (map Transaction.id txns) ->
     entries_of tid (pending_entries (new s)) = [] ->
     postings_of (db s') tid = postings_of (db s) tid /\
     entries_of tid (pending_entries (new s')) = []) /\
  transactions (commit s') = transactions (commit s).
Proof.
  induction txns as [|t txns IH]; intros s count n s' Hnd Hpend H.
  - unfold generate_each, ret in H. inversion H; subst.
    simpl. split; [lia|]. split; [intros t []|]. auto.
  - simpl in H. apply bind_ok in H. destruct H as (k & s1 & Hg & H).
    apply generate_ledger in Hg.
    destruct Hg as (_ & aid & Hl & Hother & Hkeep & Htx & _).
    simpl in Hnd. inversion Hnd as [|x l Hnotin Hnd']; subst.
    assert (Hpend1 : forall t', In t' txns ->
              entries_of (Transaction.id t') (pending_entries (new s1)) = []).
    { intros t' Ht'. apply Hkeep.
      - intro E. apply Hnotin. rewrite <- E. apply in_map. exact Ht'.
      - apply Hpend. right. exact Ht'. }
    destruct (IH s1 (count + 1) n s' Hnd' Hpend1 H)
      as (Hn & Hdone & Hrest & Hkeep' & Htx').
    split; [|split; [|split; [|split]]].
    + rewrite Hn. simpl List.length. lia.
    + intros t' [<-|Ht'].
      * exists aid. rewrite (Hrest _ Hnotin), Hl, (Hpend t (or_introl eq_refl)).
        reflexivity.
      * apply Hdone. exact Ht'.
    + intros tid Hno. simpl in Hno.
      rewrite Hrest by tauto. apply Hother. intro E. apply Hno. left. auto.
    + intros tid Hno Hp. simpl in Hno.
      assert (Hd : tid <> Transaction.id t) by (intro E; apply Hno; left; auto).
      destruct (Hkeep tid Hd Hp) as (Hk1 & Hk2).
      destruct (Hkeep' tid (fun i => Hno (or_intror i)) Hk2) as (Hk3 & Hk4).
      split; [congruence | exact Hk4].
    + congruence.
Qed.

Lemma NoDup_map_filter : forall A B (f : A -> B) (p : A -> bool) l,
  NoDup (map f l) -> NoDup (map f (filter p l)).
Proof.
  induction l as [|a l IH]; simpl; intro H.
  - constructor.
  - inversion H as [|x l' Hnotin Hnd]; subst.
    destruct (p a); simpl; auto.
    constructor; auto.
    intro Hin. apply Hnotin. apply in_map_iff in Hin.
    destruct Hin as (b & Hb & Hin). apply filter_In in Hin.
    rewrite <- Hb. apply in_map. tauto.
Qed.

Lemma In_firstn : forall A (x : A) n l, In x (firstn n l) -> In x l.
Proof.
  induction n as [|n IH]; intros [|a l] H; simpl in *; try tauto.
  destruct H as [H|H]; auto.
Qed.

Lemma NoDup_map_firstn : forall A B (f : A -> B) n l,
  NoDup (map f l) -> NoDup (map f (firstn n l)).
Proof.
  induction n as [|n IH]; intros [|a l] H; simpl; try constructor.
  - inversion H as [|x l' Hnotin Hnd]; subst.
    intro Hin. apply Hnotin. apply in_map_iff in Hin.
    destruct Hin as (b & Hb & Hin). rewrite <- Hb. apply in_map.
    eapply In_firstn; eauto.
  - inversion H; subst. apply IH. assumption.
Qed.

Lemma has_posting_postings_of : forall d tid,
  has_posting d tid = false <-> postings_of d tid = [].
Proof.
  intros d tid. unfold has_posting, postings_of.
  induction (postings d) as [|p ps IH]; simpl.
  - tauto.
  - destruct (Posting.transaction_id p =? tid); simpl.
    + split; discriminate.
    + exact IH.
Qed.

Lemma unposted_fresh : forall d,
  unposted (mkSession d [] []) =
  filter (fun t => negb (has_posting d (Transaction.id t))) (transactions d).
Proof. intro d. unfold unposted. simpl. apply map_load_nil. Qed.

(** ** Posting generation: balance and frame *)



(** C8. Run as a unit of work, [generate_all_postings] processes the
    first [limit] transactions that have no posting and nothing else: it
    returns their number, each of them ends with exactly two postings, the
    postings of every other transaction (in particular of every
    transaction that already had some) are the same rows as before, and
    the transactions themselves are unchanged. *)
Theorem generate_all_postings_frame : forall d limit d' n,
  NoDup (map Transaction.id (transactions d)) ->
  session_scope (generate_all_postings limit) d = (d', Ok n) ->
  let processed :=
    firstn limit
      (filter (fun t => negb (has_posting d (Transaction.id t)))
         (transactions d)) in
  n = Z.of_nat (List.length processed) /\
  (List.length processed <= limit)%nat /\
  (forall t, In t processed ->
     postings_of d (Transaction.id t) = [] /\
     List.length (postings_of d' (Transaction.id t)) = 2%nat /\
     exists aid,
       map entry (postings_of d' (Transaction.id t)) = entries_for t aid) /\
  (forall tid, ~ In tid (map Transaction.id processed) ->
     postings_of d' tid = postings_of d tid) /\
  (forall t, In t (transactions d) ->
     has_posting d (Transaction.id t) = true ->
     postings_of d' (Transaction.id t) = postings_of d (Transaction.id t)) /\
  transactions d' = transactions d.
Proof.
  intros d limit d' n Hnd. unfold session_scope, generate_all_postings.
  rewrite unposted_fresh.
  set (todo := firstn limit _).
  destruct (generate_each todo 0 (mkSession d [] [])) as [[k s']|e] eqn:Hg;
    intro H; inversion H; subst k d'. clear H.
  assert (Hnd' : NoDup (map Transaction.id todo)).
  { apply NoDup_map_firstn, NoDup_map_filter. exact Hnd. }
  apply generate_each_ledger in Hg; [|exact Hnd'|reflexivity].
  destruct Hg as (Hn & Hdone & _ & Hkeep & Htx).
  assert (Hrest : forall tid, ~ In tid (map Transaction.id todo) ->
            postings_of (commit s') tid = postings_of d tid).
  { intros tid Hno. destruct (Hkeep tid Hno eq_refl) as (Hk1 & Hk2).
    unfold commit. rewrite flush_postings_of_untouched by exact Hk2.
    exact Hk1. }
  assert (Htodo : forall t, In t todo -> has_posting d (Transaction.id t) = false).
  { intros t Ht. apply In_firstn in Ht. apply filter_In in Ht.
    destruct Ht as (_ & Ht). apply negb_true_iff in Ht. exact Ht. }
  cbv zeta. split; [lia|]. split; [apply firstn_le_length|].
  split; [|split; [|split]].
  - intros t Ht. split; [apply has_posting_postings_of; auto|].
    destruct (Hdone t Ht) as (aid & Hl).
    rewrite <- commit_ledger_of in Hl. split; [|eauto].
    apply map_entry_entries_for in Hl. tauto.
  - exact Hrest.
  - intros t _ Hp. apply Hrest. intro Hin. apply in_map_iff in Hin.
    destruct Hin as (t' & Hid & Ht'). apply Htodo in Ht'. congruence.
  - rewrite Htx. unfold commit, flush_session. simpl. apply map_load_nil.
Qed.

(** ** Posting generation twice *)

Lemma generate_eq : forall t s,
  generate_postings_for_transaction t s =
  match counterpart_account t (role_prefix t) (role_generic t) (role_type t)
          (deleted (Transaction.id t) s) with
  | Ok (Some a, s1) =>
      Ok (2, mkSession (db s1)
               (new s1 ++ map new_posting (entries_for t (Account.id a)))
               (dirty s1))
  | Ok (None, _) => Raise AttributeError
  | Raise e => Raise e
  end.
Proof.
  intros t s.
  unfold generate_postings_for_transaction, role_prefix, role_generic,
    role_type, entries_for.
  unfold bind at 1. unfold delete_postings.
  fold (deleted (Transaction.id t) s).
  destruct (Transaction.amount t <? 0); unfold bind at 1;
    match goal with
    | |- context [counterpart_account ?a ?b ?c ?d ?e] =>
        destruct (counterpart_account a b c d e) as [[[acc|] s1]|e0]
    end; try reflexivity;
    unfold bind, attr, add, ret; simpl; rewrite <- app_assoc; reflexivity.
Qed.

(** ** When the generator succeeds *)

Lemma counterpart_account_resolves : forall t s,
  resolvable (db s) t <->
  exists a s1,
    counterpart_account t (role_prefix t) (role_generic t) (role_type t) s
    = Ok (Some a, s1).
Proof.
  intros t s. unfold resolvable, counterpart_account.
  destruct (Transaction.category_id t) as [cid|].
  - destruct (cid =? 0).
    + unfold account_by_name.
      destruct (find (fun a => String.eqb (Account.name a) (role_generic t))
                  (accounts (db s))) as [a|].
      * split; [eauto | discriminate].
      * split; [congruence|]. intros (a & s1 & H). discriminate.
    + unfold bind at 1. unfold get_category.
      destruct (find (fun c => Category.id c =? cid) (categories (db s)))
        as [c|]; simpl.
      * split; [intros _ | discriminate].
        unfold bind at 1. unfold attr, ret. unfold bind at 1.
        unfold account_by_name.
        destruct (find _ (accounts (db s))) as [a|].
        -- eauto.
        -- unfold bind. rewrite create_account_eq. unfold ret. eauto.
      * split; [congruence|]. intros (a & s1 & H). discriminate.
  - unfold account_by_name.
    destruct (find (fun a => String.eqb (Account.name a) (role_generic t))
                (accounts (db s))) as [a|].
    + split; [eauto | discriminate].
    + split; [congruence|]. intros (a & s1 & H). discriminate.
Qed.

(** The generator returns 2 exactly when the counterpart account can be
    resolved; otherwise it raises. *)
Lemma generate_succeeds_iff : forall t s,
  resolvable (db s) t <->
  exists s', generate_postings_for_transaction t s = Ok (2, s').
Proof.
  intros t s. rewrite generate_eq.
  assert (Hdb : resolvable (db s) t <->
                resolvable (db (deleted (Transaction.id t) s)) t)
    by (unfold resolvable; simpl; tauto).
  rewrite Hdb, counterpart_account_resolves.
  destruct (counterpart_account t (role_prefix t) (role_generic t)
              (role_type t) (deleted (Transaction.id t) s))
    as [[[a|] s1]|e].
  - split; eauto.
  - split; [intros (a & s2 & H) | intros (s' & H)]; discriminate.
  - split; [intros (a & s2 & H) | intros (s' & H)]; discriminate.
Qed.

Lemma find_app_last : forall A (f : A -> bool) l a,
  find f l = None -> f a = true -> find f (l ++ [a]) = Some a.
Proof.
  induction l as [|x l IH]; simpl; intros a Hn Ha.
  - rewrite Ha. reflexivity.
  - destruct (f x); [discriminate|]. apply IH; assumption.
Qed.

Lemma flush_accounts : forall s,
  accounts (db (flush_session s)) = accounts (db s).
Proof.
  intro s. unfold flush_session. simpl.
  destruct (insert_new_frame (new s) (db s)) as (Ha & _). exact Ha.
Qed.

Lemma with_account_accounts : forall n ty s,
  accounts (db (with_account n ty s)) =
  accounts (db s) ++
  [Account.mk (next_id (map Account.id (accounts (db (flush_session s))))) n ty].
Proof.
  intros n ty s.
  change (accounts (db (with_account n ty s)))
    with (accounts (db (flush_session s)) ++
          [Account.mk
             (next_id (map Account.id (accounts (db (flush_session s))))) n ty]).
  rewrite flush_accounts at 1. reflexivity.
Qed.

(** Once the counterpart account has been resolved, resolving it again
    on a store with the same categories and the resulting accounts finds
    the same account and creates nothing. *)
Lemma counterpart_again : forall t prefix generic ty s a s1 s2,
  counterpart_account t prefix generic ty s = Ok (Some a, s1) ->
  categories (db s2) = categories (db s) ->
  accounts (db s2) = accounts (db s1) ->
  counterpart_account t prefix generic ty s2 = Ok (Some a, s2).
Proof.
  intros t prefix generic ty s a s1 s2 H Hcat Hacc.
  assert (Hfind : exists n,
            find (fun x => String.eqb (Account.name x) n) (accounts (db s2))
            = Some a /\
            (counterpart_account t prefix generic ty s2 =
             match find (fun x => String.eqb (Account.name x) n)
                     (accounts (db s2)) with
             | Some x => Ok (Some x, s2)
             | None => counterpart_account t prefix generic ty s2
             end)).
  { revert H. unfold counterpart_account.
    destruct (Transaction.category_id t) as [cid|].
    - destruct (cid =? 0).
      + unfold account_by_name. intro H. inversion H; subst.
        exists generic. rewrite Hacc. split; [auto|].
        destruct (find _ (accounts (db s1))); reflexivity.
      + unfold bind at 1 3 5. unfold get_category. rewrite Hcat.
        destruct (find (fun c => Category.id c =? cid) (categories (db s)))
          as [c|]; [|discriminate].
        unfold bind at 1 3 5. unfold attr, ret.
        set (n := String.append prefix (String.append ":" (Category.name c))).
        unfold bind, account_by_name.
        destruct (find (fun x => String.eqb (Account.name x) n)
                    (accounts (db s))) as [x|] eqn:Hf.
        * intro H. inversion H; subst. exists n. rewrite Hacc, Hf.
          split; reflexivity.
        * rewrite create_account_eq. intro H. inversion H; subst.
          exists n. rewrite Hacc, with_account_accounts.
          rewrite (find_app_last _ _ _ _ Hf) by apply String.eqb_refl.
          split; reflexivity.
    - unfold account_by_name. intro H. inversion H; subst.
      exists generic. rewrite Hacc. split; [auto|].
      destruct (find _ (accounts (db s1))); reflexivity. }
  destruct Hfind as (n & Hf & Heq). rewrite Heq, Hf. reflexivity.
Qed.

Lemma update_dirty_nil : forall d, update_dirty [] d = d.
Proof.
  intros [accs cats txns posts rls]. unfold update_dirty. simpl.
  rewrite map_load_nil. reflexivity.
Qed.

Lemma filter_twice : forall A (f : A -> bool) l,
  filter f (filter f l) = filter f l.
Proof.
  induction l as [|a l IH]; simpl.
  - reflexivity.
  - destruct (f a) eqn:E; simpl; [rewrite E|]; rewrite IH; reflexivity.
Qed.

(** Deleting the postings of a transaction right after they were
    inserted gives back the store they were inserted into. *)
Lemma repost_db : forall d0 t aid,
  filter (fun p => negb (Posting.transaction_id p =? Transaction.id t))
    (postings d0) = postings d0 ->
  db (deleted (Transaction.id t)
        (mkSession
           (fold_left insert_new (map new_posting (entries_for t aid)) d0)
           [] [])) = d0.
Proof.
  intros [accs cats txns posts rls] t aid. simpl. intro Hf.
  unfold entries_for, deleted.
  destruct (Transaction.amount t <? 0); simpl;
    rewrite <- app_assoc, filter_app; simpl;
    rewrite Z.eqb_refl; simpl; rewrite Hf, app_nil_r; reflexivity.
Qed.

(** With a commit between the two calls the second one does find the
    rows of the first: running the generator on a transaction as a unit
    of work and then running it again as another unit of work gives the
    store and the result of running it once. *)
Lemma generate_again_after_commit : forall d t,
  let once := session_scope (generate_postings_for_transaction t) d in
  session_scope (generate_postings_for_transaction t) (fst once) = once /\
  match snd once with
  | Ok _ =>
      exists aid,
        map entry (postings_of (fst once) (Transaction.id t)) = entries_for t aid
  | Raise _ => fst once = d
  end.
Proof.
  intros d t. cbv zeta. unfold session_scope at 2 3 4 5.
  destruct (generate_postings_for_transaction t (mkSession d [] []))
    as [[n s']|e] eqn:Hg; simpl.
  - split.
    + pose proof Hg as Hg'. rewrite generate_eq in Hg'.
      destruct (counterpart_account t (role_prefix t) (role_generic t)
                  (role_type t) (deleted (Transaction.id t) (mkSession d [] [])))
        as [[[a|] s1]|e] eqn:Hc; try discriminate.
      inversion Hg'; subst n s'. clear Hg'.
      assert (Hs1 : new s1 = [] /\ dirty s1 = [] /\
                    categories (db s1) = categories d /\
                    filter (fun p => negb (Posting.transaction_id p
                                           =? Transaction.id t))
                      (postings (db s1)) = postings (db s1)).
      { apply counterpart_account_cases in Hc.
        destruct Hc as [[-> _]|(nm & _ & -> & _)]; simpl;
          repeat split; try reflexivity; apply filter_twice. }
      destruct Hs1 as (Hnew & Hdirty & Hcat & Hfilt).
      rewrite Hnew, Hdirty. simpl app.
      set (es := entries_for t (Account.id a)).
      assert (Hcommit : commit (mkSession (db s1) (map new_posting es) [])
                        = fold_left insert_new (map new_posting es) (db s1)).
      { unfold commit, flush_session. simpl. apply update_dirty_nil. }
      rewrite Hcommit.
      unfold session_scope. rewrite generate_eq.
      set (s2 := deleted (Transaction.id t)
                   (mkSession (fold_left insert_new (map new_posting es) (db s1))
                      [] [])).
      assert (Hdb : db s2 = db s1) by (apply repost_db; exact Hfilt).
      rewrite (counterpart_again _ _ _ _ _ _ _ s2 Hc).
      * fold es. rewrite Hdb. simpl. rewrite Hcommit. reflexivity.
      * rewrite Hdb. exact Hcat.
      * rewrite Hdb. reflexivity.
    + apply generate_in_scope in Hg. destruct Hg as (_ & _ & aid & He). eauto.
  - unfold session_scope. simpl. rewrite Hg. split; reflexivity.
Qed.

Lemma entries_for_length : forall t aid,
  List.length (entries_for t aid) = 2%nat.
Proof.
  intros t aid. unfold entries_for.
  destruct (Transaction.amount t <? 0); reflexivity.
Qed.

(** What a session opened on a store holds for a transaction once the
    generator has returned: the two postings, all of them pending. *)
Lemma generate_pending : forall d t n s1,
  generate_postings_for_transaction t (mkSession d [] []) = Ok (n, s1) ->
  exists a s0,
    counterpart_account t (role_prefix t) (role_generic t) (role_type t)
      (deleted (Transaction.id t) (mkSession d [] [])) = Ok (Some a, s0) /\
    s1 = mkSession (db s0)
           (map new_posting (entries_for t (Account.id a))) [] /\
    categories (db s0) = categories d /\
    postings_of (db s0) (Transaction.id t) = [].
Proof.
  intros d t n s1 Hg. rewrite generate_eq in Hg.
  destruct (counterpart_account t (role_prefix t) (role_generic t)
              (role_type t) (deleted (Transaction.id t) (mkSession d [] [])))
    as [[[a|] s0]|e] eqn:Hc; try discriminate.
  inversion Hg; subst n s1. clear Hg.
  exists a, s0. split; [reflexivity|].
  pose proof Hc as Hc'. apply counterpart_account_cases in Hc'.
  destruct Hc' as [[-> _]|(nm & _ & -> & _)].
  - split; [reflexivity|]. split; [reflexivity|].
    rewrite deleted_postings_of, Z.eqb_refl. reflexivity.
  - split; [reflexivity|]. split.
    + exact (proj1 (flush_frame
                      (deleted (Transaction.id t) (mkSession d [] [])))).
    + change (postings_of
                (db (flush_session
                       (deleted (Transaction.id t) (mkSession d [] []))))
                (Transaction.id t) = []).
      rewrite flush_postings_of_untouched by reflexivity.
      rewrite deleted_postings_of, Z.eqb_refl. reflexivity.
Qed.

(** C3. [generate_postings_for_transaction] called twice in succession on
    one session does not leave the ledger as one call does.  For every
    store and every transaction whose counterpart account can be resolved,
    one call in a unit of work returns 2 and the transaction ends with the
    two postings of the generator; two calls in one unit of work return 2
    as well, and the transaction ends with those two postings twice: the
    bulk DELETE of the second call acts on the rows of the database, the
    postings of the first call are still pending in the session, and the
    commit writes all four.  The two stores differ. *)
Theorem generate_twice_duplicates : forall d t,
  resolvable d t ->
  let once := session_scope (generate_postings_for_transaction t) d in
  let twice := session_scope (generate_postings_for_transaction t ;;;
                              generate_postings_for_transaction t) d in
  exists aid,
    snd once = Ok 2 /\
    map entry (postings_of (fst once) (Transaction.id t)) = entries_for t aid /\
    snd twice = Ok 2 /\
    map entry (postings_of (fst twice) (Transaction.id t)) =
      entries_for t aid ++ entries_for t aid /\
    fst twice <> fst once.
Proof.
  intros d t Hres. cbv zeta.
  destruct (proj1 (generate_succeeds_iff t (mkSession d [] [])) Hres)
    as (s1 & Hg1).
  destruct (generate_pending _ _ _ _ Hg1) as (a & s0 & Hc & Hs1 & Hcat & Hnone).
  set (es := entries_for t (Account.id a)) in *.
  set (s2 := deleted (Transaction.id t) s1).
  assert (Hg2 : generate_postings_for_transaction t s1 =
                Ok (2, mkSession (db s2) (new s2 ++ map new_posting es)
                         (dirty s2))).
  { rewrite generate_eq. fold s2.
    rewrite (counterpart_again _ _ _ _ _ _ _ s2 Hc).
    - reflexivity.
    - unfold s2. rewrite Hs1. simpl. exact Hcat.
    - unfold s2. rewrite Hs1. reflexivity. }
  assert (Hone : map entry (postings_of (commit s1) (Transaction.id t)) = es).
  { rewrite commit_ledger_of. unfold ledger_of. rewrite Hs1. cbn [db new].
    rewrite Hnone, pending_entries_new_posting. unfold es.
    rewrite entries_of_entries_for, Z.eqb_refl. reflexivity. }
  assert (Htwo : map entry
                   (postings_of
                      (commit (mkSession (db s2) (new s2 ++ map new_posting es)
                                 (dirty s2))) (Transaction.id t)) = es ++ es).
  { rewrite commit_ledger_of, add_entries_ledger_of. unfold s2.
    rewrite deleted_ledger_of, Z.eqb_refl, Hs1. cbn [new].
    rewrite pending_entries_new_posting. unfold es.
    rewrite entries_of_entries_for, Z.eqb_refl. reflexivity. }
  unfold session_scope, bind. rewrite Hg1, Hg2. cbn [fst snd].
  exists (Account.id a). fold es.
  split; [reflexivity|]. split; [exact Hone|]. split; [reflexivity|].
  split; [exact Htwo|].
  intro Heq. rewrite Heq, Hone in Htwo.
  apply (f_equal (@List.length Entry.t)) in Htwo.
  rewrite length_app in Htwo. unfold es in Htwo.
  rewrite entries_for_length in Htwo. discriminate.
Qed.

(** ** When the batch succeeds *)

Lemma find_app_some : forall A (f : A -> bool) l l' x,
  find f l = Some x -> find f (l ++ l') = Some x.
Proof.
  induction l as [|a l IH]; simpl; intros l' x H.
  - discriminate.
  - destruct (f a); [exact H | apply IH; exact H].
Qed.

Lemma resolvable_mono : forall d1 d2 t,
  categories d2 = categories d1 ->
  (exists l, accounts d2 = accounts d1 ++ l) ->
  resolvable d1 t -> resolvable d2 t.
Proof.
  intros d1 d2 t Hcat (l & Hacc). unfold resolvable. rewrite Hcat, Hacc.
  assert (Hfind : forall n,
            find (fun a => String.eqb (Account.name a) n) (accounts d1) <> None ->
            find (fun a => String.eqb (Account.name a) n) (accounts d1 ++ l)
            <> None).
  { intros n H.
    destruct (find (fun a => String.eqb (Account.name a) n) (accounts d1))
      as [a|] eqn:E; [|congruence].
    rewrite (find_app_some _ _ _ l _ E). discriminate. }
  destruct (Transaction.category_id t) as [cid|];
    [destruct (cid =? 0)|]; auto.
Qed.

Lemma generate_db_grows : forall t s n s',
  generate_postings_for_transaction t s = Ok (n, s') ->
  categories (db s') = categories (db s) /\
  exists l, accounts (db s') = accounts (db s) ++ l.
Proof.
  intros t s n s' H. apply generate_cases in H.
  destruct H as (_ & aid & s1 & [->|(nm & ty & ->)] & ->); cbn [db].
  - split; [reflexivity|]. exists []. simpl. rewrite app_nil_r. reflexivity.
  - split.
    + exact (proj1 (flush_frame (deleted (Transaction.id t) s))).
    + eexists. rewrite with_account_accounts. reflexivity.
Qed.

Lemma generate_each_succeeds : forall txns count s,
  (forall t, In t txns -> resolvable (db s) t) ->
  exists n s', generate_each txns count s = Ok (n, s').
Proof.
  induction txns as [|t txns IH]; intros count s H; simpl.
  - unfold ret. eauto.
  - destruct (proj1 (generate_succeeds_iff t s) (H t (or_introl eq_refl)))
      as (s1 & Hg).
    unfold bind. rewrite Hg. apply IH.
    intros t' Ht'. destruct (generate_db_grows _ _ _ _ Hg) as (Hcat & Hacc).
    eapply resolvable_mono; eauto. apply H. right. exact Ht'.
Qed.

(** With the seeded accounts in place and every assigned category in the
    store, the batch does return. *)
Lemma generate_all_postings_succeeds : forall d limit,
  (forall t, In t (transactions d) -> resolvable d t) ->
  exists d' n, session_scope (generate_all_postings limit) d = (d', Ok n).
Proof.
  intros d limit H. unfold session_scope, generate_all_postings.
  rewrite unposted_fresh.
  destruct (generate_each_succeeds
              (firstn limit
                 (filter (fun t => negb (has_posting d (Transaction.id t)))
                    (transactions d))) 0 (mkSession d [] [])) as (n & s' & Hg).
  - intros t Ht. apply H. apply In_firstn in Ht. apply filter_In in Ht. tauto.
  - rewrite Hg. eauto.
Qed.

(** * The rules engine *)

(** ** Ordered queries *)

Lemma insert_by_perm : forall A (leb : A -> A -> bool) x l,
  Permutation (x :: l) (insert_by leb x l).
Proof.
  induction l as [|y l IH]; simpl.
  - apply Permutation_refl.
  - destruct (leb x y).
    + apply Permutation_refl.
    + eapply perm_trans; [apply perm_swap|]. apply perm_skip. exact IH.
Qed.

Lemma sort_by_perm : forall A (leb : A -> A -> bool) l,
  Permutation l (sort_by leb l).
Proof.
  induction l as [|x l IH]; simpl.
  - apply perm_nil.
  - eapply perm_trans; [|apply insert_by_perm]. apply perm_skip. exact IH.
Qed.

Lemma sort_by_In : forall A (leb : A -> A -> bool) l x,
  In x (sort_by leb l) <-> In x l.
Proof.
  intros A leb l x. split; apply Permutation_in.
  - apply Permutation_sym, sort_by_perm.
  - apply sort_by_perm.
Qed.

Section SortedByKey.

Variable A : Type.
Variable key : A -> Z.




End SortedByKey.

(** ** Matching one transaction *)

Section RuleMatching.

Variable re_search : string -> string -> option bool.

Lemma rule_matches_conditions : forall rule description amount,
  _rule_matches re_search rule description amount = Ok true <->
  conditions re_search rule description amount.
Proof.
  intros rule description amount. unfold _rule_matches, conditions.
  destruct (Rule.active rule); simpl;
    [|split; [discriminate | intros (H & _); discriminate]].
  destruct (re_search (Rule.pattern rule) description) as [[|]|];
    try (split; [discriminate | intros (_ & H & _); discriminate]).
  destruct (Rule.amount_min rule) as [lo|];
    destruct (Rule.amount_max rule) as [hi|];
    rewrite ?Z.gtb_ltb;
    repeat match goal with
           | |- context [?a <? ?b] => destruct (Z.ltb_spec a b)
           end;
    (split;
     [ intro Hm; try discriminate;
       (split; [reflexivity|]); (split; [reflexivity|]);
       split; intros x Hx; inversion Hx; subst; lia
     | intros (_ & _ & Hlo & Hhi); try reflexivity;
       try (specialize (Hlo _ eq_refl)); try (specialize (Hhi _ eq_refl));
       lia ]).
Qed.


Lemma first_match_some : forall rs description amount r,
  first_match re_search rs description amount = Ok (Some r) ->
  exists before after,
    rs = before ++ r :: after /\
    _rule_matches re_search r description amount = Ok true /\
    forall r', In r' before ->
      _rule_matches re_search r' description amount = Ok false.
Proof.
  induction rs as [|x rs IH]; simpl; intros description amount r H.
  - discriminate.
  - destruct (_rule_matches re_search x description amount) as [[|]|e] eqn:E.
    + inversion H; subst. exists [], rs. simpl. repeat split; auto.
      intros r' [].
    + destruct (IH _ _ _ H) as (before & after & -> & Hr & Hb).
      exists (x :: before), after. simpl. repeat split; auto.
      intros r' [<-|Hin]; auto.
    + discriminate.
Qed.


Lemma first_match_prefix : forall before r after description amount,
  (forall r', In r' before ->
     _rule_matches re_search r' description amount = Ok false) ->
  _rule_matches re_search r description amount = Ok true ->
  first_match re_search (before ++ r :: after) description amount = Ok (Some r).
Proof.
  induction before as [|x before IH]; simpl; intros r after description amount Hb Hr.
  - rewrite Hr. reflexivity.
  - rewrite (Hb x (or_introl eq_refl)). apply IH; auto.
Qed.

Lemma dry_run_txn_eq : forall rs txn results,
  dry_run_txn re_search rs txn results =
  match first_match re_search rs (Transaction.description txn)
          (Transaction.amount txn) with
  | Raise e => Raise e
  | Ok None => Ok results
  | Ok (Some r) =>
      Ok (results ++
            [RuleMatch.mk (Transaction.id txn) (Rule.id r) (Rule.category_id r)])
  end.
Proof.
  induction rs as [|x rs IH]; simpl; intros txn results.
  - reflexivity.
  - destruct (_rule_matches re_search x (Transaction.description txn)
                (Transaction.amount txn)) as [[|]|e]; auto.
Qed.

Lemma apply_rules_txn_eq : forall rs txn updated s,
  apply_rules_txn re_search rs txn updated s =
  match first_match re_search rs (Transaction.description txn)
          (Transaction.amount txn) with
  | Raise e => Raise e
  | Ok None => Ok (updated, s)
  | Ok (Some r) =>
      Ok (updated + 1,
          mkSession (db s) (new s)
            (dirty s ++ [(Transaction.id txn, Rule.category_id r)]))
  end.
Proof.
  induction rs as [|x rs IH]; simpl; intros txn updated s.
  - reflexivity.
  - destruct (_rule_matches re_search x (Transaction.description txn)
                (Transaction.amount txn)) as [[|]|e]; auto.
Qed.

End RuleMatching.

(** ** The two loops *)

Section RuleLoops.

Variable re_search : string -> string -> option bool.

Lemma dry_run_loop_eq : forall rs txns acc results,
  dry_run_loop re_search rs txns acc = Ok results ->
  results = acc ++ matches_of re_search rs txns /\
  Forall (evaluates re_search rs) txns.
Proof.
  induction txns as [|t txns IH]; simpl; intros acc results H.
  - inversion H. rewrite app_nil_r. auto.
  - rewrite dry_run_txn_eq in H. unfold matched_rule.
    destruct (first_match re_search rs (Transaction.description t)
                (Transaction.amount t)) as [[r|]|e] eqn:E; try discriminate;
      apply IH in H; destruct H as (-> & Hall);
      (split; [rewrite <- ?app_assoc; reflexivity|]);
      constructor; auto; eexists; eassumption.
Qed.

Lemma apply_rules_loop_eq : forall rs txns updated s updated' s',
  apply_rules_loop re_search rs txns updated s = Ok (updated', s') ->
  s' = mkSession (db s) (new s) (dirty s ++ assignments_of re_search rs txns) /\
  updated' = updated + Z.of_nat (List.length (assignments_of re_search rs txns)) /\
  Forall (evaluates re_search rs) txns.
Proof.
  induction txns as [|t txns IH]; simpl; intros updated s updated' s' H.
  - unfold ret in H. inversion H; subst. rewrite app_nil_r.
    destruct s'; simpl. split; [reflexivity|]. split; [lia|constructor].
  - apply bind_ok in H. destruct H as (u1 & s1 & H1 & H).
    rewrite apply_rules_txn_eq in H1. unfold matched_rule.
    destruct (first_match re_search rs (Transaction.description t)
                (Transaction.amount t)) as [[r|]|e] eqn:E; try discriminate;
      inversion H1; subst u1 s1; clear H1;
      apply IH in H; destruct H as (-> & -> & Hall); simpl;
      (split; [rewrite <- ?app_assoc; reflexivity|]);
      (split; [simpl List.length; lia|]);
      constructor; auto; eexists; eassumption.
Qed.

Lemma apply_rules_loop_nothing : forall rs txns updated s,
  Forall (fun t => first_match re_search rs (Transaction.description t)
                     (Transaction.amount t) = Ok None) txns ->
  apply_rules_loop re_search rs txns updated s = Ok (updated, s).
Proof.
  induction txns as [|t txns IH]; simpl; intros updated s H.
  - reflexivity.
  - inversion H as [|x l Ht Hrest]; subst. unfold bind.
    rewrite apply_rules_txn_eq, Ht. apply IH. exact Hrest.
Qed.

End RuleLoops.

(** ** Pending category assignments *)

Lemma set_category_id : forall tid c t,
  Transaction.id (set_category tid c t) = Transaction.id t.
Proof.
  intros tid c t. unfold set_category.
  destruct (Transaction.id t =? tid); reflexivity.
Qed.

Lemma load_id : forall u t, Transaction.id (load u t) = Transaction.id t.
Proof.
  unfold load. induction u as [|[tid c] u IH]; simpl; intro t.
  - reflexivity.
  - rewrite IH. apply set_category_id.
Qed.

Lemma load_app : forall u1 u2 t, load (u1 ++ u2) t = load u2 (load u1 t).
Proof. intros. unfold load. apply fold_left_app. Qed.

Lemma load_other : forall u t,
  (forall x, In x u -> fst x <> Transaction.id t) -> load u t = t.
Proof.
  unfold load. induction u as [|[tid c] u IH]; simpl; intros t H.
  - reflexivity.
  - assert (E : set_category tid c t = t).
    { unfold set_category.
      destruct (Z.eqb_spec (Transaction.id t) tid) as [Heq|]; [|reflexivity].
      exfalso. apply (H (tid, c)); [left; reflexivity | simpl; congruence]. }
    rewrite E. apply IH. intros x Hx. apply H. right. exact Hx.
Qed.

Lemma assignments_of_ids : forall re_search rs txns x,
  In x (assignments_of re_search rs txns) ->
  In (fst x) (map Transaction.id txns).
Proof.
  intros re_search rs txns x H. unfold assignments_of in H.
  apply in_flat_map in H. destruct H as (t & Ht & Hx).
  destruct (matched_rule re_search rs t); [|destruct Hx].
  destruct Hx as [<-|[]]. simpl. apply in_map. exact Ht.
Qed.

Lemma load_assignments : forall re_search rs txns t,
  NoDup (map Transaction.id txns) ->
  In t txns ->
  Transaction.category_id t = None ->
  load (assignments_of re_search rs txns) t = categorize re_search rs t.
Proof.
  intros re_search rs.
  induction txns as [|t0 txns IH]; simpl; intros t Hnd Hin Hcat.
  - destruct Hin.
  - inversion Hnd as [|x l Hnotin Hnd']; subst.
    change (assignments_of re_search rs (t0 :: txns))
      with ((match matched_rule re_search rs t0 with
             | Some r => [(Transaction.id t0, Rule.category_id r)]
             | None => []
             end) ++ assignments_of re_search rs txns).
    rewrite load_app.
    destruct Hin as [->|Hin].
    + assert (E : load (match matched_rule re_search rs t with
                        | Some r => [(Transaction.id t, Rule.category_id r)]
                        | None => []
                        end) t = categorize re_search rs t).
      { unfold categorize, matched_category. rewrite Hcat.
        destruct (matched_rule re_search rs t); reflexivity. }
      rewrite E. apply load_other. intros x Hx.
      apply assignments_of_ids in Hx. intro Heq. apply Hnotin.
      rewrite Heq in Hx. unfold categorize in Hx.
      destruct (Transaction.category_id t);
        destruct (matched_category re_search rs t);
        rewrite ?set_category_id in Hx; exact Hx.
    + assert (E : load (match matched_rule re_search rs t0 with
                        | Some r => [(Transaction.id t0, Rule.category_id r)]
                        | None => []
                        end) t = t).
      { apply load_other. intros x Hx.
        destruct (matched_rule re_search rs t0); [|destruct Hx].
        destruct Hx as [<-|[]]. simpl. intro Heq. apply Hnotin.
        rewrite Heq. apply in_map. exact Hin. }
      rewrite E. apply IH; assumption.
Qed.

Lemma NoDup_map_inj : forall A B (f : A -> B) l a b,
  NoDup (map f l) -> In a l -> In b l -> f a = f b -> a = b.
Proof.
  induction l as [|x l IH]; simpl; intros a b Hnd Ha Hb Hf.
  - destruct Ha.
  - inversion Hnd as [|y l' Hnotin Hnd']; subst.
    destruct Ha as [->|Ha]; destruct Hb as [->|Hb]; auto.
    + exfalso. apply Hnotin. rewrite Hf. apply in_map. exact Hb.
    + exfalso. apply Hnotin. rewrite <- Hf. apply in_map. exact Ha.
Qed.

Lemma NoDup_map_sort_by : forall A B (f : A -> B) leb l,
  NoDup (map f l) -> NoDup (map f (sort_by leb l)).
Proof.
  intros A B f leb l H.
  eapply Permutation_NoDup; [|exact H].
  apply Permutation_map, sort_by_perm.
Qed.

Lemma categorize_id : forall re_search rs t,
  Transaction.id (categorize re_search rs t) = Transaction.id t.
Proof.
  intros re_search rs t. unfold categorize.
  destruct (Transaction.category_id t);
    destruct (matched_category re_search rs t);
    rewrite ?set_category_id; reflexivity.
Qed.

Lemma categorize_category : forall re_search rs t,
  Transaction.category_id (categorize re_search rs t) =
  match Transaction.category_id t with
  | Some c => Some c
  | None => matched_category re_search rs t
  end.
Proof.
  intros re_search rs t. unfold categorize.
  destruct (Transaction.category_id t) as [c|] eqn:E.
  - exact E.
  - destruct (matched_category re_search rs t) as [c|].
    + unfold set_category. rewrite Z.eqb_refl. reflexivity.
    + exact E.
Qed.

(** ** Rule application as a unit of work *)

Lemma apply_rules_in_scope : forall re_search d batch_size d' n,
  NoDup (map Transaction.id (transactions d)) ->
  session_scope (apply_rules re_search batch_size) d = (d', Ok n) ->
  d' = mkDb (accounts d) (categories d)
         (map (categorize re_search (active_rules (mkSession d [] [])))
            (transactions d))
         (postings d) (rules d) /\
  Forall (evaluates re_search (active_rules (mkSession d [] [])))
    (uncategorized (mkSession d [] [])).
Proof.
  intros re_search d batch_size d' n Hnd.
  unfold session_scope, apply_rules.
  set (s0 := mkSession d [] []).
  set (rs := active_rules s0).
  destruct (apply_rules_loop re_search rs (apply_rules_transactions s0) 0 s0)
    as [[k s']|e] eqn:Hl; intro H; inversion H; subst k d'. clear H.
  apply apply_rules_loop_eq in Hl. destruct Hl as (-> & _ & Hall).
  unfold apply_rules_transactions in *. simpl dirty in *.
  rewrite map_load_nil in *.
  set (txns := sort_by _ (uncategorized s0)) in *.
  assert (Hperm : Permutation (uncategorized s0) txns) by apply sort_by_perm.
  split.
  - unfold commit, flush_session, update_dirty. simpl. f_equal.
    apply map_ext_in. intros t Ht.
    destruct (Transaction.category_id t) as [c|] eqn:Hc.
    + unfold categorize. rewrite Hc. apply load_other.
      intros x Hx Heq. apply assignments_of_ids in Hx.
      apply in_map_iff in Hx. destruct Hx as (t' & Hid & Ht').
      apply (Permutation_in _ (Permutation_sym Hperm)) in Ht'.
      unfold uncategorized in Ht'. apply filter_In in Ht'.
      destruct Ht' as (Ht' & Hnone). simpl in Ht'.
      assert (t' = t) by (eapply NoDup_map_inj; eauto; congruence).
      subst t'. rewrite Hc in Hnone. discriminate.
    + apply load_assignments.
      * apply NoDup_map_sort_by. unfold uncategorized.
        apply NoDup_map_filter. exact Hnd.
      * apply (Permutation_in _ Hperm). unfold uncategorized.
        apply filter_In. simpl. rewrite Hc. auto.
      * exact Hc.
  - eapply Permutation_Forall; [apply Permutation_sym; exact Hperm|].
    exact Hall.
Qed.

Lemma commit_fresh : forall d, commit (mkSession d [] []) = d.
Proof. intro d. unfold commit, flush_session. simpl. apply update_dirty_nil. Qed.

Lemma categorize_settled : forall re_search rs t,
  evaluates re_search rs t ->
  Transaction.category_id (categorize re_search rs t) = None ->
  categorize re_search rs t = t /\
  first_match re_search rs (Transaction.description t) (Transaction.amount t)
  = Ok None.
Proof.
  intros re_search rs t (o & Ho) Hnone.
  rewrite categorize_category in Hnone.
  unfold categorize. unfold matched_category, matched_rule in *.
  rewrite Ho in *.
  destruct (Transaction.category_id t); [discriminate|].
  destruct o as [r|]; [discriminate|]. auto.
Qed.

(** C9. Once [apply_rules] has run as a unit of work, running it again
    changes nothing: the store stays the same and no transaction is
    updated (after a failed run the store is the one before it and the
    same exception is raised again).  A transaction that had a category
    before the first run is the same row after it, so its category is
    never overwritten; accounts, postings and rules are untouched. *)
Theorem apply_rules_idempotent : forall re_search d batch_size batch_size',
  NoDup (map Transaction.id (transactions d)) ->
  let once := session_scope (apply_rules re_search batch_size) d in
  session_scope (apply_rules re_search batch_size') (fst once) =
    (fst once, match snd once with
               | Ok _ => Ok 0
               | Raise e => Raise e
               end) /\
  (forall t c, In t (transactions d) -> Transaction.category_id t = Some c ->
     In t (transactions (fst once)) /\
     persisted (fst once) (Transaction.id t) = Some c) /\
  List.length (transactions (fst once)) = List.length (transactions d) /\
  accounts (fst once) = accounts d /\
  postings (fst once) = postings d /\
  rules (fst once) = rules d.
Proof.
  intros re_search d batch_size batch_size' Hnd. cbv zeta.
  destruct (session_scope (apply_rules re_search batch_size) d)
    as [d' [n|e]] eqn:Hrun; simpl.
  - apply apply_rules_in_scope in Hrun; [|exact Hnd].
    destruct Hrun as (Hd' & Hall).
    set (rs := active_rules (mkSession d [] [])) in *.
    split; [|split].
    + unfold session_scope, apply_rules.
      assert (Hrs : active_rules (mkSession d' [] []) = rs)
        by (rewrite Hd'; reflexivity).
      rewrite Hrs, apply_rules_loop_nothing.
      * rewrite commit_fresh. reflexivity.
      * unfold apply_rules_transactions. simpl dirty. rewrite map_load_nil.
        eapply Permutation_Forall; [apply sort_by_perm|].
        apply Forall_forall. intros x Hx.
        unfold uncategorized in Hx. apply filter_In in Hx.
        destruct Hx as (Hx & Hnone). rewrite Hd' in Hx. simpl in Hx.
        apply in_map_iff in Hx. destruct Hx as (t & <- & Ht).
        assert (Hcat : Transaction.category_id (categorize re_search rs t) = None).
        { destruct (Transaction.category_id (categorize re_search rs t));
            [discriminate | reflexivity]. }
        assert (Hev : evaluates re_search rs t).
        { rewrite Forall_forall in Hall. apply Hall.
          unfold uncategorized. apply filter_In. split; [exact Ht|].
          rewrite categorize_category in Hcat.
          destruct (Transaction.category_id t); [discriminate | reflexivity]. }
        destruct (categorize_settled _ _ _ Hev Hcat) as (-> & Hfm). exact Hfm.
    + intros t c Ht Hc.
      assert (Hsame : categorize re_search rs t = t)
        by (unfold categorize; rewrite Hc; reflexivity).
      assert (Hin : In t (transactions d')).
      { rewrite Hd'. simpl. rewrite <- Hsame. apply in_map. exact Ht. }
      split; [exact Hin|].
      unfold persisted, transaction_by_id.
      destruct (find (fun x => Transaction.id x =? Transaction.id t)
                  (transactions d')) as [x|] eqn:Hf.
      * apply find_some in Hf. destruct Hf as (Hx & Hid).
        apply Z.eqb_eq in Hid.
        assert (x = t).
        { apply (NoDup_map_inj _ _ Transaction.id (transactions d')); auto.
          rewrite Hd'. simpl. rewrite map_map.
          erewrite map_ext; [exact Hnd|]. intro a. apply categorize_id. }
        subst x. exact Hc.
      * exfalso. apply (find_none _ _ Hf) in Hin.
        rewrite Z.eqb_refl in Hin. discriminate.
    + rewrite Hd'. simpl. rewrite length_map. auto.
  - unfold session_scope, apply_rules in Hrun |- *.
    destruct (apply_rules_loop re_search (active_rules (mkSession d [] []))
                (apply_rules_transactions (mkSession d [] [])) 0
                (mkSession d [] [])) as [[k s']|e'] eqn:Hl;
      inversion Hrun; subst d' e. rewrite Hl.
    split; [reflexivity|]. split; [|auto].
    intros t c Ht Hc. split; [exact Ht|].
    unfold persisted, transaction_by_id.
    destruct (find (fun x => Transaction.id x =? Transaction.id t)
                (transactions d)) as [x|] eqn:Hf.
    + apply find_some in Hf. destruct Hf as (Hx & Hid).
      apply Z.eqb_eq in Hid.
      assert (x = t) by (eapply NoDup_map_inj; eauto). subst x. exact Hc.
    + exfalso. apply (find_none _ _ Hf) in Ht.
      rewrite Z.eqb_refl in Ht. discriminate.
Qed.

(** ** Dry run against application *)

Lemma find_by_id : forall l t,
  NoDup (map Transaction.id l) -> In t l ->
  find (fun x => Transaction.id x =? Transaction.id t) l = Some t.
Proof.
  intros l t Hnd Ht.
  destruct (find (fun x => Transaction.id x =? Transaction.id t) l)
    as [x|] eqn:Hf.
  - apply find_some in Hf. destruct Hf as (Hx & Hid). apply Z.eqb_eq in Hid.
    f_equal. eapply NoDup_map_inj; eauto.
  - exfalso. apply (find_none _ _ Hf) in Ht.
    rewrite Z.eqb_refl in Ht. discriminate.
Qed.

Lemma persisted_categorize : forall re_search rs d t accs cats posts rls,
  NoDup (map Transaction.id (transactions d)) ->
  In t (transactions d) ->
  persisted
    (mkDb accs cats (map (categorize re_search rs) (transactions d)) posts rls)
    (Transaction.id t) =
  Transaction.category_id (categorize re_search rs t).
Proof.
  intros re_search rs d t accs cats posts rls Hnd Ht.
  unfold persisted, transaction_by_id. simpl.
  rewrite <- (categorize_id re_search rs t).
  rewrite find_by_id; [reflexivity| |apply in_map; exact Ht].
  rewrite map_map. erewrite map_ext; [exact Hnd|].
  intro a. apply categorize_id.
Qed.

Lemma matches_of_other : forall re_search rs txns tid,
  ~ In tid (map Transaction.id txns) ->
  find (fun r => RuleMatch.transaction_id r =? tid)
    (matches_of re_search rs txns) = None.
Proof.
  intros re_search rs. induction txns as [|t0 txns IH]; simpl; intros tid H.
  - reflexivity.
  - destruct (matched_rule re_search rs t0); simpl.
    + destruct (Z.eqb_spec (Transaction.id t0) tid) as [E|E]; [tauto|].
      apply IH. tauto.
    + apply IH. tauto.
Qed.

Lemma predicted_matches_of : forall re_search rs txns t,
  NoDup (map Transaction.id txns) -> In t txns ->
  predicted (matches_of re_search rs txns) (Transaction.id t) =
  matched_category re_search rs t.
Proof.
  intros re_search rs. unfold predicted, matched_category.
  induction txns as [|t0 txns IH]; simpl; intros t Hnd Ht.
  - destruct Ht.
  - inversion Hnd as [|x l Hnotin Hnd']; subst.
    destruct Ht as [->|Ht].
    + destruct (matched_rule re_search rs t) as [r|]; simpl.
      * rewrite Z.eqb_refl. reflexivity.
      * rewrite matches_of_other by exact Hnotin. reflexivity.
    + assert (Hd : Transaction.id t0 <> Transaction.id t).
      { intro E. apply Hnotin. rewrite E. apply in_map. exact Ht. }
      destruct (matched_rule re_search rs t0) as [r|]; simpl.
      * destruct (Z.eqb_spec (Transaction.id t0) (Transaction.id t));
          [contradiction|]. apply IH; assumption.
      * apply IH; assumption.
Qed.

(** C4. For one store and one transaction that the dry run looks at,
    the category [dry_run_matches] reports (none when it reports no
    match) is the category the transaction has after [apply_rules] has
    run on that store. *)
Theorem dry_run_predicts_apply :
  forall re_search d limit batch_size results d' n t,
  NoDup (map Transaction.id (transactions d)) ->
  snd (session_scope (dry_run_matches re_search limit) d) = Ok results ->
  session_scope (apply_rules re_search batch_size) d = (d', Ok n) ->
  In t (dry_run_transactions limit (mkSession d [] [])) ->
  predicted results (Transaction.id t) = persisted d' (Transaction.id t).
Proof.
  intros re_search d limit batch_size results d' n t Hnd Hdry Happly Ht.
  set (s0 := mkSession d [] []) in *.
  set (rs := active_rules s0).
  unfold dry_run_transactions in Ht. simpl dirty in Ht.
  rewrite map_load_nil in Ht.
  assert (Hunc : In t (uncategorized s0)).
  { apply In_firstn in Ht. apply sort_by_In in Ht. exact Ht. }
  assert (Hin : In t (transactions d) /\ Transaction.category_id t = None).
  { unfold uncategorized in Hunc. apply filter_In in Hunc. simpl in Hunc.
    destruct Hunc as (H1 & H2). split; [exact H1|].
    destruct (Transaction.category_id t); [discriminate | reflexivity]. }
  destruct Hin as (Hin & Hcat).
  apply apply_rules_in_scope in Happly; [|exact Hnd].
  destruct Happly as (-> & _).
  rewrite persisted_categorize by assumption.
  rewrite categorize_category, Hcat.
  unfold session_scope, dry_run_matches in Hdry. fold s0 in Hdry. fold rs in Hdry.
  destruct (dry_run_loop re_search rs (dry_run_transactions limit s0) [])
    as [res|e] eqn:Hl; simpl in Hdry; [|discriminate].
  inversion Hdry; subst res. clear Hdry.
  apply dry_run_loop_eq in Hl. destruct Hl as (-> & _). simpl app.
  unfold dry_run_transactions. simpl dirty. rewrite map_load_nil.
  apply predicted_matches_of; [|exact Ht].
  apply NoDup_map_firstn, NoDup_map_sort_by.
  unfold uncategorized. apply NoDup_map_filter. exact Hnd.
Qed.

(** ** Priority order *)

Lemma active_rules_In : forall s r,
  In r (active_rules s) <-> In r (rules (db s)) /\ Rule.active r = true.
Proof.
  intros s r. unfold active_rules. rewrite sort_by_In, filter_In. tauto.
Qed.


(** ** Patterns that do not compile *)

Lemma sort_by_nonempty : forall A (leb : A -> A -> bool) l,
  l <> [] -> exists x l', sort_by leb l = x :: l'.
Proof.
  intros A leb l H.
  destruct (sort_by leb l) as [|x l'] eqn:E; [|eauto].
  exfalso. apply H. apply Permutation_nil.
  rewrite <- E. apply Permutation_sym, sort_by_perm.
Qed.

(** C10. A rule set whose first active rule, in priority order, has a
    pattern that is not a valid regular expression: [_rule_matches] raises
    on that rule for every description and amount, and as soon as the
    store holds one uncategorized transaction both [dry_run_matches] and
    [apply_rules] raise as well, leaving the store as it was.  Matching is
    whatever [re.search] answers: for an active rule without bounds
    [_rule_matches] returns exactly its verdict. *)
Theorem malformed_pattern_raises :
  forall re_search d rule rest limit batch_size,
  (forall description, re_search (Rule.pattern rule) description = None) ->
  active_rules (mkSession d [] []) = rule :: rest ->
  uncategorized (mkSession d [] []) <> [] ->
  (0 < limit)%nat ->
  (forall description amount,
     _rule_matches re_search rule description amount = Raise ReError) /\
  session_scope (dry_run_matches re_search limit) d = (d, Raise ReError) /\
  session_scope (apply_rules re_search batch_size) d = (d, Raise ReError) /\
  (forall r description amount,
     Rule.active r = true ->
     Rule.amount_min r = None -> Rule.amount_max r = None ->
     _rule_matches re_search r description amount =
     match re_search (Rule.pattern r) description with
     | Some verdict => Ok verdict
     | None => Raise ReError
     end).
Proof.
  intros re_search d rule rest limit batch_size Hbad Hrules Hunc Hlimit.
  assert (Hactive : Rule.active rule = true).
  { assert (Hin : In rule (active_rules (mkSession d [] [])))
      by (rewrite Hrules; left; reflexivity).
    apply active_rules_In in Hin. tauto. }
  assert (Hraise : forall description amount,
            _rule_matches re_search rule description amount = Raise ReError).
  { intros description amount. unfold _rule_matches.
    rewrite Hactive, Hbad. reflexivity. }
  split; [exact Hraise|]. split; [|split].
  - unfold session_scope, dry_run_matches, dry_run_transactions.
    rewrite Hrules. simpl dirty. rewrite map_load_nil.
    destruct (sort_by_nonempty _
                (fun a b => date_leb (Transaction.date b) (Transaction.date a))
                _ Hunc) as (t & l' & ->).
    destruct limit as [|k]; [lia|]. simpl. rewrite Hraise. reflexivity.
  - unfold session_scope, apply_rules, apply_rules_transactions.
    rewrite Hrules. simpl dirty. rewrite map_load_nil.
    destruct (sort_by_nonempty _
                (fun a b => date_leb (Transaction.date a) (Transaction.date b))
                _ Hunc) as (t & l' & ->).
    simpl. unfold bind. rewrite Hraise. reflexivity.
  - intros r description amount Ha Hmin Hmax. unfold _rule_matches.
    rewrite Ha, Hmin, Hmax. simpl.
    destruct (re_search (Rule.pattern r) description) as [[|]|]; reflexivity.
Qed.

(** ** When rule evaluation succeeds *)

Lemma first_match_total : forall re_search rs description amount,
  (forall r, In r rs -> Rule.active r = true ->
     re_search (Rule.pattern r) description <> None) ->
  exists o, first_match re_search rs description amount = Ok o.
Proof.
  intros re_search rs description amount.
  induction rs as [|r rs IH]; simpl; intro H.
  - eauto.
  - assert (Hr : exists b, _rule_matches re_search r description amount = Ok b).
    { unfold _rule_matches.
      destruct (Rule.active r) eqn:Ha; simpl; [|eauto].
      specialize (H r (or_introl eq_refl) Ha).
      destruct (re_search (Rule.pattern r) description) as [[|]|];
        [|eauto|congruence].
      destruct (match Rule.amount_min r with
                | Some lo => amount <? lo
                | None => false
                end); [eauto|].
      destruct (match Rule.amount_max r with
                | Some hi => amount >? hi
                | None => false
                end); eauto. }
    destruct Hr as ([|] & ->); [eauto|]. apply IH.
    intros r' Hr'. apply H. right. exact Hr'.
Qed.

Lemma apply_rules_loop_total : forall re_search rs txns updated s,
  Forall (evaluates re_search rs) txns ->
  exists updated' s',
    apply_rules_loop re_search rs txns updated s = Ok (updated', s').
Proof.
  intros re_search rs.
  induction txns as [|t txns IH]; intros updated s H; simpl.
  - unfold ret. eauto.
  - inversion H as [|x l (o & Ho) Hrest]; subst.
    unfold bind. rewrite apply_rules_txn_eq, Ho.
    destruct o as [r|]; apply IH; exact Hrest.
Qed.

Lemma dry_run_loop_total : forall re_search rs txns acc,
  Forall (evaluates re_search rs) txns ->
  exists results, dry_run_loop re_search rs txns acc = Ok results.
Proof.
  intros re_search rs.
  induction txns as [|t txns IH]; intros acc H; simpl.
  - eauto.
  - inversion H as [|x l (o & Ho) Hrest]; subst.
    rewrite dry_run_txn_eq, Ho.
    destruct o as [r|]; apply IH; exact Hrest.
Qed.

(** When every active rule has a pattern that compiles, both entry points
    return. *)
Lemma rules_engine_succeeds : forall re_search d limit batch_size,
  (forall r description, In r (rules d) -> Rule.active r = true ->
     re_search (Rule.pattern r) description <> None) ->
  (exists results,
     session_scope (dry_run_matches re_search limit) d = (d, Ok results)) /\
  (exists d' n,
     session_scope (apply_rules re_search batch_size) d = (d', Ok n)).
Proof.
  intros re_search d limit batch_size H.
  assert (Hev : forall txns,
            Forall (evaluates re_search (active_rules (mkSession d [] []))) txns).
  { intro txns. apply Forall_forall. intros t _. apply first_match_total.
    intros r Hr Ha. apply H; [|exact Ha].
    apply active_rules_In in Hr. simpl in Hr. tauto. }
  split.
  - unfold session_scope, dry_run_matches.
    destruct (dry_run_loop_total re_search _ _ [] 
                (Hev (dry_run_transactions limit (mkSession d [] []))))
      as (results & ->).
    rewrite commit_fresh. eauto.
  - unfold session_scope, apply_rules.
    destruct (apply_rules_loop_total re_search _ _ 0 (mkSession d [] [])
                (Hev (apply_rules_transactions (mkSession d [] []))))
      as (n & s' & ->).
    eauto.
Qed.

(** The converse of the priority property: a rule whose conditions hold
    and whose predecessors in priority order all fail without raising is
    the rule that is applied. *)
Lemma first_rule_is_applied :
  forall re_search s txn updated s1 before r after,
  active_rules s = before ++ r :: after ->
  (forall r', In r' before ->
     _rule_matches re_search r' (Transaction.description txn)
       (Transaction.amount txn) = Ok false) ->
  conditions re_search r (Transaction.description txn) (Transaction.amount txn) ->
  apply_rules_txn re_search (active_rules s) txn updated s1 =
  Ok (updated + 1,
      mkSession (db s1) (new s1)
        (dirty s1 ++ [(Transaction.id txn, Rule.category_id r)])).
Proof.
  intros re_search s txn updated s1 before r after Hsplit Hb Hc.
  rewrite apply_rules_txn_eq, Hsplit.
  rewrite (first_match_prefix re_search before r after _ _ Hb).
  - reflexivity.
  - apply rule_matches_conditions. exact Hc.
Qed.

(** * The import adapter *)

Section ImportRows.

Variable strptime : string -> string -> option Date.
Variable py_float : string -> option Z.

Lemma import_rows_valid : forall mapping account rows created s,
  Forall (row_valid strptime py_float mapping) rows ->
  exists news,
    import_rows strptime py_float rows mapping account created s =
      Ok (created + Z.of_nat (List.length news),
          mkSession (db s) (new s ++ news) (dirty s)) /\
    Forall2 (imported_new strptime py_float mapping (Account.id account))
      (filter (date_ok strptime mapping) rows) news.
Proof.
  intros mapping account.
  induction rows as [|row rows IH]; intros created s Hall.
  - exists []. simpl. unfold ret. rewrite app_nil_r, Z.add_0_r.
    destruct s; simpl. split; [reflexivity | constructor].
  - inversion Hall as [|x l Hrow Hrest]; subst. simpl.
    unfold date_ok at 1.
    destruct Hrow as [Hbad|(dt & desc & cell & amt & Hd & Hdesc & Hcell & Hamt)].
    + unfold date_ok in Hbad.
      destruct (row_date strptime row mapping) as [dt|e]; [discriminate|].
      apply IH. exact Hrest.
    + rewrite Hd. unfold bind, lift, float_cell, add.
      rewrite Hdesc, Hcell, Hamt.
      destruct (IH (created + 1)
                  (mkSession (db s)
                     (new s ++ [NewTransaction dt desc amt (Account.id account)])
                     (dirty s)) Hrest) as (news & Hrun & Hrel).
      exists (NewTransaction dt desc amt (Account.id account) :: news).
      split.
      * rewrite Hrun. simpl. rewrite <- app_assoc. simpl.
        do 2 f_equal. lia.
      * constructor; [|exact Hrel]. simpl. repeat split; eauto.
Qed.

Lemma import_rows_raises : forall mapping account rows created s row dt cell,
  In row rows ->
  row_date strptime row mapping = Ok dt ->
  getitem row (amount_col mapping) = Ok cell ->
  py_float cell = None ->
  exists e,
    import_rows strptime py_float rows mapping account created s = Raise e /\
    ((forall r, In r rows ->
        (exists v, getitem r (description_col mapping) = Ok v) /\
        (exists v, getitem r (amount_col mapping) = Ok v)) ->
     e = ValueError).
Proof.
  intros mapping account.
  induction rows as [|r rows IH]; intros created s row dt cell Hin Hd Hcell Hamt.
  - destruct Hin.
  - simpl.
    destruct (row_date strptime r mapping) as [dt'|e'] eqn:Hr.
    + unfold bind at 1. unfold lift at 1.
      destruct (getitem r (description_col mapping)) as [desc|e1] eqn:Hdesc.
      * unfold bind at 1. unfold lift at 1.
        destruct (getitem r (amount_col mapping)) as [cell'|e2] eqn:Hc.
        -- unfold bind at 1. unfold lift at 1, float_cell.
           destruct (py_float cell') as [amt|] eqn:Hf.
           ++ unfold bind at 1. unfold add at 1.
              destruct Hin as [->|Hin]; [congruence|].
              destruct (IH (created + 1)
                          (mkSession (db s)
                             (new s ++
                                [NewTransaction dt' desc amt (Account.id account)])
                             (dirty s)) row dt cell Hin Hd Hcell Hamt)
                as (e & He & Hcols).
              exists e. split; [exact He|].
              intro H. apply Hcols. intros r' Hr'. apply H. right. exact Hr'.
           ++ exists ValueError. split; reflexivity.
        -- exists e2. split; [reflexivity|]. intro H.
           destruct (H r (or_introl eq_refl)) as (_ & v & Hv). congruence.
      * exists e1. split; [reflexivity|]. intro H.
        destruct (H r (or_introl eq_refl)) as ((v & Hv) & _). congruence.
    + destruct Hin as [->|Hin]; [congruence|].
      destruct (IH created s row dt cell Hin Hd Hcell Hamt) as (e & He & Hcols).
      exists e. split; [exact He|].
      intro H. apply Hcols. intros r' Hr'. apply H. right. exact Hr'.
Qed.

End ImportRows.

Lemma insert_new_imported : forall strptime py_float mapping source rows news,
  Forall2 (imported_new strptime py_float mapping source) rows news ->
  forall d,
  exists ts,
    transactions (fold_left insert_new news d) = transactions d ++ ts /\
    Forall2 (imported strptime py_float mapping source) rows ts.
Proof.
  intros strptime py_float mapping source rows news H.
  induction H as [|row o rows news Ho Hrest IH]; intro d.
  - exists []. simpl. rewrite app_nil_r. split; [reflexivity | constructor].
  - destruct o as [dt desc amt src|]; [|destruct Ho].
    destruct Ho as (Hd & Hdesc & Hamt & ->). cbn [fold_left].
    destruct (IH (insert_new d (NewTransaction dt desc amt source)))
      as (ts & Hts & Hrel).
    eexists (_ :: ts). split.
    + rewrite Hts. simpl. rewrite <- app_assoc. reflexivity.
    + constructor; [|exact Hrel]. unfold imported. simpl. auto.
Qed.

Lemma import_transactions_eq : forall strptime py_float df mapping d,
  exists account d0,
    transactions d0 = transactions d /\
    import_transactions strptime py_float df mapping (mkSession d [] []) =
    import_rows strptime py_float df mapping account 0 (mkSession d0 [] []).
Proof.
  intros strptime py_float df mapping d.
  unfold import_transactions. unfold bind at 1. unfold account_by_name.
  simpl accounts.
  destruct (find (fun a => String.eqb (Account.name a) (source_account_name mapping))
              (accounts d)) as [a|].
  - exists a, d. split; reflexivity.
  - unfold bind. rewrite create_account_eq.
    eexists. eexists. split; [|reflexivity]. simpl. apply map_load_nil.
Qed.

(** C6. When every row of the frame either has a date that neither
    format accepts or is fully usable, [import_transactions], run as a
    unit of work, succeeds; it returns the number of rows whose date
    parses, and the transactions it adds to the store are, in order,
    exactly one per such row: no transaction comes from a row with a
    rejected date. *)
Theorem import_skips_unparseable_dates :
  forall strptime py_float df mapping d,
  Forall (row_valid strptime py_float mapping) df ->
  exists d' ts source,
    session_scope (import_transactions strptime py_float df mapping) d =
      (d', Ok (Z.of_nat (List.length (filter (date_ok strptime mapping) df)))) /\
    transactions d' = transactions d ++ ts /\
    Forall2 (imported strptime py_float mapping source)
      (filter (date_ok strptime mapping) df) ts.
Proof.
  intros strptime py_float df mapping d Hall.
  destruct (import_transactions_eq strptime py_float df mapping d)
    as (account & d0 & Htx & Heq).
  destruct (import_rows_valid strptime py_float mapping account df 0
              (mkSession d0 [] []) Hall) as (news & Hrun & Hrel).
  destruct (insert_new_imported _ _ _ _ _ _ Hrel d0) as (ts & Hts & Hrel').
  unfold session_scope. rewrite Heq, Hrun. simpl app.
  eexists. exists ts, (Account.id account). split; [|split].
  - rewrite (Forall2_length Hrel). reflexivity.
  - unfold commit, flush_session. simpl. rewrite map_load_nil, Hts, Htx.
    reflexivity.
  - exact Hrel'.
Qed.

(** C7, as the code has it.  When the frame contains a row whose date
    parses and whose amount cell does not parse as a number,
    [import_transactions] raises, and run as a unit of work it leaves the
    store exactly as it was: nothing of the batch is committed.  The
    exception is the [ValueError] of the conversion whenever the mapped
    description and amount columns are present in every row. *)
Theorem import_bad_amount_aborts :
  forall strptime py_float df mapping d row dt cell,
  In row df ->
  row_date strptime row mapping = Ok dt ->
  getitem row (amount_col mapping) = Ok cell ->
  py_float cell = None ->
  exists e,
    session_scope (import_transactions strptime py_float df mapping) d
      = (d, Raise e) /\
    ((forall r, In r df ->
        (exists v, getitem r (description_col mapping) = Ok v) /\
        (exists v, getitem r (amount_col mapping) = Ok v)) ->
     e = ValueError).
Proof.
  intros strptime py_float df mapping d row dt cell Hin Hd Hcell Hamt.
  destruct (import_transactions_eq strptime py_float df mapping d)
    as (account & d0 & _ & Heq).
  destruct (import_rows_raises strptime py_float mapping account df 0
              (mkSession d0 [] []) row dt cell Hin Hd Hcell Hamt)
    as (e & He & Hcols).
  exists e. split; [|exact Hcols].
  unfold session_scope. rewrite Heq, He. reflexivity.
Qed.

(** * The engine on the seeded store *)

Ltac distinct_ids :=
  repeat (constructor; [simpl; intuition discriminate|]); constructor.

Lemma store_ids_distinct :
  NoDup (map Transaction.id (transactions Example.store)).
Proof. simpl. distinct_ids. Defined.

(** ** Signs of generated postings *)

(** The postings written for a transaction are never negative, and when
    the amount is not zero exactly one side of each is zero. *)
Lemma generated_posting_signs : forall d t d' n,
  session_scope (generate_postings_for_transaction t) d = (d', Ok n) ->
  Forall (fun p =>
            0 <= Posting.debit p /\ 0 <= Posting.credit p /\
            (Transaction.amount t <> 0 ->
             (Posting.debit p = 0 /\ Posting.credit p <> 0) \/
             (Posting.debit p <> 0 /\ Posting.credit p = 0)) /\
            (Transaction.amount t = 0 ->
             Posting.debit p = 0 /\ Posting.credit p = 0))
    (postings_of d' (Transaction.id t)).
Proof.
  intros d t d' n. unfold session_scope.
  destruct (generate_postings_for_transaction t (mkSession d [] []))
    as [[k s']|e] eqn:Hg; intro H; inversion H; subst.
  apply generate_in_scope in Hg. destruct Hg as (_ & _ & aid & He).
  revert He. unfold entries_for.
  destruct (postings_of (commit s') (Transaction.id t)) as [|p1 [|p2 [|p3 ps]]];
    destruct (Transaction.amount t <? 0); simpl; intro He;
    try discriminate; unfold entry in He; inversion He;
    (constructor; [|constructor; [|constructor]]);
    repeat split; intros; lia.
Qed.

(** C2, at a transaction whose amount is zero.  The generator succeeds
    and writes two postings whose debit and credit are both zero: neither
    of them has a non-zero side. *)
Theorem zero_amount_postings :
  snd (session_scope (generate_postings_for_transaction Example.adjustment)
         Example.store) = Ok 2 /\
  map entry
    (postings_of
       (fst (session_scope (generate_postings_for_transaction Example.adjustment)
               Example.store)) 4) =
  [Entry.mk 4 1 0 0; Entry.mk 4 3 0 0].
Proof. split; reflexivity. Qed.

(** Two calls inside one session, with nothing flushed in between: the
    bulk DELETE of the second call finds no row, the two postings of the
    first call are still pending, and four postings are committed. *)
Lemma generate_twice_in_one_session :
  map entry
    (postings_of
       (fst (session_scope
               (generate_postings_for_transaction Example.walmart ;;;
                generate_postings_for_transaction Example.walmart)
               Example.store)) 1) =
  [Entry.mk 1 1 0 4250; Entry.mk 1 4 4250 0;
   Entry.mk 1 1 0 4250; Entry.mk 1 4 4250 0].
Proof. reflexivity. Qed.

(** ** Witnesses on the seeded store *)

Lemma generate_twice_duplicates_witness :
  resolvable Example.store Example.walmart /\
  session_scope (generate_postings_for_transaction Example.walmart)
    Example.store =
  (fst (session_scope (generate_postings_for_transaction Example.walmart)
          Example.store), Ok 2) /\
  map entry
    (postings_of
       (fst (session_scope (generate_postings_for_transaction Example.walmart)
               Example.store)) 1) =
  [Entry.mk 1 1 0 4250; Entry.mk 1 4 4250 0] /\
  snd (session_scope
         (generate_postings_for_transaction Example.walmart ;;;
          generate_postings_for_transaction Example.walmart)
         Example.store) = Ok 2 /\
  map entry
    (postings_of
       (fst (session_scope
               (generate_postings_for_transaction Example.walmart ;;;
                generate_postings_for_transaction Example.walmart)
               Example.store)) 1) =
  [Entry.mk 1 1 0 4250; Entry.mk 1 4 4250 0;
   Entry.mk 1 1 0 4250; Entry.mk 1 4 4250 0].
Proof.
  assert (Hres : resolvable Example.store Example.walmart)
    by (simpl; discriminate).
  split; [exact Hres|].
  pose proof (generate_twice_duplicates Example.store Example.walmart Hres)
    as H.
  cbv zeta in H. destruct H as (aid & Hr1 & Hp1 & Hr2 & Hp2 & _).
  assert (Haid : aid = 4).
  { assert (Hfour : map entry
              (postings_of
                 (fst (session_scope
                         (generate_postings_for_transaction Example.walmart)
                         Example.store)) 1) =
              entries_for Example.walmart 4) by reflexivity.
    change (Transaction.id Example.walmart) with 1 in Hp1.
    rewrite Hp1 in Hfour. unfold entries_for in Hfour. simpl in Hfour.
    inversion Hfour. reflexivity. }
  subst aid.
  split; [apply injective_projections; [reflexivity | exact Hr1]|].
  split; [exact Hp1|]. split; [exact Hr2|]. exact Hp2.
Defined.

Lemma generate_all_postings_frame_witness :
  NoDup (map Transaction.id (transactions Example.store)) /\
  session_scope (generate_all_postings 10) Example.store =
    (fst (session_scope (generate_all_postings 10) Example.store), Ok 3) /\
  postings_of (fst (session_scope (generate_all_postings 10) Example.store)) 3 =
    Example.rent_postings /\
  transactions (fst (session_scope (generate_all_postings 10) Example.store)) =
    transactions Example.store.
Proof.
  split; [exact store_ids_distinct|]. split; [reflexivity|].
  pose proof (generate_all_postings_frame Example.store 10
                (fst (session_scope (generate_all_postings 10) Example.store)) 3
                store_ids_distinct eq_refl) as H.
  cbv zeta in H. destruct H as (_ & _ & _ & _ & Hkeep & Htx).
  split; [|exact Htx].
  apply (Hkeep Example.rent).
  - simpl. tauto.
  - reflexivity.
Defined.

Lemma apply_rules_idempotent_witness :
  NoDup (map Transaction.id (transactions Example.store)) /\
  session_scope (apply_rules PyRe.search 1000)
    (fst (session_scope (apply_rules PyRe.search 1000) Example.store)) =
  (fst (session_scope (apply_rules PyRe.search 1000) Example.store), Ok 0) /\
  persisted (fst (session_scope (apply_rules PyRe.search 1000) Example.store)) 3
  = Some 2.
Proof.
  split; [exact store_ids_distinct|].
  pose proof (apply_rules_idempotent PyRe.search Example.store 1000%nat 1000%nat
                store_ids_distinct) as H.
  cbv zeta in H. destruct H as (Hagain & Hkeep & _).
  split; [exact Hagain|].
  apply (Hkeep Example.rent 2).
  - simpl. tauto.
  - reflexivity.
Defined.

Lemma dry_run_predicts_apply_witness :
  NoDup (map Transaction.id (transactions Example.store)) /\
  snd (session_scope (dry_run_matches PyRe.search 10) Example.store) =
    Ok [RuleMatch.mk 1 1 1; RuleMatch.mk 2 2 5] /\
  session_scope (apply_rules PyRe.search 1000) Example.store =
    (fst (session_scope (apply_rules PyRe.search 1000) Example.store), Ok 2) /\
  In Example.walmart
    (dry_run_transactions 10 (mkSession Example.store [] [])) /\
  predicted [RuleMatch.mk 1 1 1; RuleMatch.mk 2 2 5] 1 =
  persisted (fst (session_scope (apply_rules PyRe.search 1000) Example.store)) 1.
Proof.
  assert (Hin : In Example.walmart
                  (dry_run_transactions 10 (mkSession Example.store [] [])))
    by (simpl; tauto).
  split; [exact store_ids_distinct|]. split; [reflexivity|].
  split; [reflexivity|]. split; [exact Hin|].
  exact (dry_run_predicts_apply PyRe.search Example.store 10 1000
           [RuleMatch.mk 1 1 1; RuleMatch.mk 2 2 5]
           (fst (session_scope (apply_rules PyRe.search 1000) Example.store)) 2
           Example.walmart store_ids_distinct eq_refl eq_refl Hin).
Defined.


Lemma malformed_pattern_raises_witness :
  (forall description,
     PyRe.search (Rule.pattern Example.broken_rule) description = None) /\
  active_rules (mkSession Example.broken_store [] []) =
    [Example.broken_rule; Example.groceries_rule; Example.salary_rule;
     Example.misc_rule] /\
  uncategorized (mkSession Example.broken_store [] []) <> [] /\
  (0 < 500)%nat /\
  _rule_matches PyRe.search Example.broken_rule "WALMART #123" (-4250)
    = Raise ReError /\
  session_scope (dry_run_matches PyRe.search 500) Example.broken_store
    = (Example.broken_store, Raise ReError) /\
  session_scope (apply_rules PyRe.search 1000) Example.broken_store
    = (Example.broken_store, Raise ReError).
Proof.
  assert (H1 : forall description,
            PyRe.search (Rule.pattern Example.broken_rule) description = None)
    by (intro description; reflexivity).
  assert (H2 : active_rules (mkSession Example.broken_store [] []) =
               [Example.broken_rule; Example.groceries_rule;
                Example.salary_rule; Example.misc_rule]) by reflexivity.
  assert (H3 : uncategorized (mkSession Example.broken_store [] []) <> [])
    by (simpl; discriminate).
  assert (H4 : (0 < 500)%nat) by lia.
  destruct (malformed_pattern_raises PyRe.search Example.broken_store
              Example.broken_rule _ 500%nat 1000%nat H1 H2 H3 H4)
    as (Hrule & Hdry & Happly & _).
  repeat split; auto.
Defined.

(** Rule matching is a regular-expression search: the pattern of the
    salary rule is an alternation, it matches a description that does not
    contain the pattern text. *)
Lemma pattern_is_searched_as_regex :
  _rule_matches PyRe.search Example.salary_rule "ACME PAYROLL" 100000 = Ok true /\
  substring_ci (Rule.pattern Example.salary_rule) "ACME PAYROLL" = false.
Proof. split; reflexivity. Qed.

(** ** The import adapter on example frames *)

Ltac usable_row :=
  right; do 4 eexists; repeat split; reflexivity.

Lemma import_skips_unparseable_dates_witness :
  Forall (row_valid PyTime.strptime PyFloat.float Example.mapping) Example.frame /\
  exists d' ts source,
    session_scope
      (import_transactions PyTime.strptime PyFloat.float Example.frame
         Example.mapping) Example.store = (d', Ok 2) /\
    transactions d' = transactions Example.store ++ ts /\
    Forall2 (imported PyTime.strptime PyFloat.float Example.mapping source)
      [Example.row "2024-03-05" "WALMART #123" "-42.50";
       Example.row "03/01/2024" "ACME PAYROLL" "1000.00"] ts.
Proof.
  assert (H : Forall (row_valid PyTime.strptime PyFloat.float Example.mapping)
                Example.frame).
  { unfold Example.frame.
    apply Forall_cons; [usable_row|].
    apply Forall_cons; [left; reflexivity|].
    apply Forall_cons; [usable_row|].
    apply Forall_nil. }
  split; [exact H|].
  exact (import_skips_unparseable_dates PyTime.strptime PyFloat.float
           Example.frame Example.mapping Example.store H).
Defined.

Lemma import_bad_amount_aborts_witness :
  In (Example.row "2024-03-06" "COFFEE" "three dollars")
    Example.frame_bad_amount /\
  row_date PyTime.strptime (Example.row "2024-03-06" "COFFEE" "three dollars")
    Example.mapping = Ok (mkDate 2024 3 6) /\
  getitem (Example.row "2024-03-06" "COFFEE" "three dollars")
    (amount_col Example.mapping) = Ok "three dollars"%string /\
  PyFloat.float "three dollars" = None /\
  exists e,
    session_scope
      (import_transactions PyTime.strptime PyFloat.float
         Example.frame_bad_amount Example.mapping) Example.store
    = (Example.store, Raise e) /\
    ((forall r, In r Example.frame_bad_amount ->
        (exists v, getitem r (description_col Example.mapping) = Ok v) /\
        (exists v, getitem r (amount_col Example.mapping) = Ok v)) ->
     e = ValueError).
Proof.
  assert (H1 : In (Example.row "2024-03-06" "COFFEE" "three dollars")
                 Example.frame_bad_amount) by (simpl; tauto).
  split; [exact H1|]. split; [reflexivity|]. split; [reflexivity|].
  split; [reflexivity|].
  exact (import_bad_amount_aborts PyTime.strptime PyFloat.float
           Example.frame_bad_amount Example.mapping Example.store
           _ _ _ H1 eq_refl eq_refl eq_refl).
Defined.

(** C7, as stated, fails: the second row of this frame has an amount
    that does not parse, and the import neither raises nor leaves the
    store untouched.  The date of that row does not parse either, so the
    row is skipped before its amount is looked at; the first row is
    imported and committed. *)
Lemma bad_amount_row_with_bad_date_is_skipped :
  In (Example.row "yesterday" "COFFEE" "three dollars") Example.frame_bad_both /\
  float_cell PyFloat.float "three dollars" = Raise ValueError /\
  (forall e,
     session_scope
       (import_transactions PyTime.strptime PyFloat.float
          Example.frame_bad_both Example.mapping) Example.store
     <> (Example.store, Raise e)) /\
  snd (session_scope
         (import_transactions PyTime.strptime PyFloat.float
            Example.frame_bad_both Example.mapping) Example.store) = Ok 1 /\
  map Transaction.description
    (transactions
       (fst (session_scope
               (import_transactions PyTime.strptime PyFloat.float
                  Example.frame_bad_both Example.mapping) Example.store))) =
  map Transaction.description (transactions Example.store) ++
  ["WALMART #123"%string].
Proof.
  split; [simpl; tauto|]. split; [reflexivity|].
  split; [intro e; discriminate|]. split; reflexivity.
Qed.

(** * Further properties of the services *)

(** ** The posting policy *)

Lemma counterpart_account_name : forall t s a s1,
  counterpart_account t (role_prefix t) (role_generic t) (role_type t) s
    = Ok (Some a, s1) ->
  counterpart_name (db s) t = Some (Account.name a) /\
  ((s1 = s /\ In a (accounts (db s))) \/
   (s1 = with_account (Account.name a) (role_type t) s /\
    Account.type a = role_type t /\
    find (fun x => String.eqb (Account.name x) (Account.name a))
      (accounts (db s)) = None /\
    accounts (db s1) = accounts (db s) ++ [a])).
Proof.
  intros t s a s1. unfold counterpart_account, counterpart_name.
  assert (Hgen : account_by_name (role_generic t) s = Ok (Some a, s1) ->
                 Some (role_generic t) = Some (Account.name a) /\
                 ((s1 = s /\ In a (accounts (db s))) \/
                  (s1 = with_account (Account.name a) (role_type t) s /\
                   Account.type a = role_type t /\
                   find (fun x => String.eqb (Account.name x) (Account.name a))
                     (accounts (db s)) = None /\
                   accounts (db s1) = accounts (db s) ++ [a]))).
  { unfold account_by_name. intro H. inversion H as [[Hf Hs]].
    apply find_some in Hf. destruct Hf as (Hin & Hn).
    apply String.eqb_eq in Hn. rewrite Hn. subst s1. auto. }
  destruct (Transaction.category_id t) as [cid|]; [|exact Hgen].
  destruct (cid =? 0); [exact Hgen|]. clear Hgen.
  intro H.
  apply bind_ok in H. destruct H as (category & s2 & Hg & H).
  unfold get_category in Hg. inversion Hg; subst s2 category. clear Hg.
  apply bind_ok in H. destruct H as (cname & s2 & Ha & H).
  apply attr_ok in Ha. destruct Ha as (c & Hc & Ha). inversion Ha; subst s2 cname.
  clear Ha. rewrite Hc. simpl option_map.
  apply bind_ok in H. destruct H as (account & s2 & Hq & H).
  unfold account_by_name in Hq. inversion Hq; subst s2.
  destruct account as [x|].
  - unfold ret in H. inversion H; subst x s1.
    match goal with
    | Hf : find _ _ = Some _ |- _ =>
        apply find_some in Hf; destruct Hf as (Hin & Hn)
    end.
    apply String.eqb_eq in Hn. rewrite Hn. auto.
  - apply bind_ok in H. destruct H as (x & s2 & Hcr & H).
    rewrite create_account_eq in Hcr. inversion Hcr; subst x s2.
    unfold ret in H. inversion H; subst a s1. simpl Account.name.
    split; [reflexivity|]. right. split; [reflexivity|].
    split; [reflexivity|]. split; [auto|].
    apply with_account_accounts.
Qed.

Lemma commit_accounts : forall s, accounts (commit s) = accounts (db s).
Proof. intro s. unfold commit. apply flush_accounts. Qed.

(** What one run of the generator commits, with the account it used. *)
Lemma generate_scope_entries : forall d t n s',
  generate_postings_for_transaction t (mkSession d [] []) = Ok (n, s') ->
  exists a s1,
    counterpart_account t (role_prefix t) (role_generic t) (role_type t)
      (deleted (Transaction.id t) (mkSession d [] [])) = Ok (Some a, s1) /\
    accounts (commit s') = accounts (db s1) /\
    map entry (postings_of (commit s') (Transaction.id t)) =
      entries_for t (Account.id a).
Proof.
  intros d t n s' H. rewrite generate_eq in H.
  destruct (counterpart_account t (role_prefix t) (role_generic t) (role_type t)
              (deleted (Transaction.id t) (mkSession d [] [])))
    as [[[a|] s1]|e] eqn:Hc; try discriminate.
  inversion H; subst n s'. clear H.
  exists a, s1. split; [reflexivity|].
  split; [rewrite commit_accounts; reflexivity|].
  rewrite commit_ledger_of, add_entries_ledger_of, entries_of_entries_for,
    Z.eqb_refl.
  apply counterpart_account_name in Hc.
  destruct Hc as (_ & [(-> & _)|(-> & _)]);
    [|rewrite with_account_ledger_of];
    rewrite deleted_ledger_of, Z.eqb_refl; reflexivity.
Qed.

(** X1. After the generator has run on a transaction as a unit of work,
    the transaction has exactly two postings.  The first is on the
    transaction's source account and moves its balance (debit minus
    credit) by the signed amount; the second is on the counterpart
    account and moves its balance by the opposite.  The counterpart is an
    account of the store whose name is the generic "Expenses"/"Income"
    for a transaction without category and "Expense:<category>" or
    "Income:<category>" otherwise; it is the only account the run can have
    added, and when added it has the type of its role. *)
Theorem posting_policy : forall d t d' n,
  session_scope (generate_postings_for_transaction t) d = (d', Ok n) ->
  exists a p1 p2,
    postings_of d' (Transaction.id t) = [p1; p2] /\
    Posting.account_id p1 = Transaction.source_account_id t /\
    Posting.debit p1 - Posting.credit p1 = Transaction.amount t /\
    Posting.account_id p2 = Account.id a /\
    Posting.debit p2 - Posting.credit p2 = - Transaction.amount t /\
    In a (accounts d') /\
    counterpart_name d t = Some (Account.name a) /\
    (accounts d' = accounts d \/
     (accounts d' = accounts d ++ [a] /\ Account.type a = role_type t)).
Proof.
  intros d t d' n. unfold session_scope.
  destruct (generate_postings_for_transaction t (mkSession d [] []))
    as [[k s']|e] eqn:Hg; intro H; inversion H; subst k d'. clear H.
  apply generate_scope_entries in Hg.
  destruct Hg as (a & s1 & Hc & Hacc & He).
  apply counterpart_account_name in Hc. destruct Hc as (Hname & Hcase).
  exists a.
  assert (Hps : exists p1 p2,
            postings_of (commit s') (Transaction.id t) = [p1; p2] /\
            Posting.account_id p1 = Transaction.source_account_id t /\
            Posting.debit p1 - Posting.credit p1 = Transaction.amount t /\
            Posting.account_id p2 = Account.id a /\
            Posting.debit p2 - Posting.credit p2 = - Transaction.amount t).
  { revert He. unfold entries_for.
    destruct (postings_of (commit s') (Transaction.id t))
      as [|p1 [|p2 [|p3 ps]]];
      destruct (Z.ltb_spec (Transaction.amount t) 0); simpl; intro He;
      try discriminate; unfold entry in He; inversion He;
      exists p1, p2; repeat split; try assumption; lia. }
  destruct Hps as (p1 & p2 & H1 & H2 & H3 & H4 & H5).
  exists p1, p2. repeat split; try assumption.
  - rewrite Hacc. destruct Hcase as [(-> & Hin)|(_ & _ & _ & ->)].
    + exact Hin.
    + apply in_or_app. right. left. reflexivity.
  - rewrite Hacc. destruct Hcase as [(-> & _)|(_ & Hty & _ & ->)].
    + left. reflexivity.
    + right. split; [reflexivity | exact Hty].
Qed.

Lemma posting_policy_witness :
  session_scope (generate_postings_for_transaction Example.rent) Example.store
  = (fst (session_scope (generate_postings_for_transaction Example.rent)
            Example.store), Ok 2) /\
  exists a p1 p2,
    postings_of
      (fst (session_scope (generate_postings_for_transaction Example.rent)
              Example.store)) 3 = [p1; p2] /\
    Posting.debit p1 - Posting.credit p1 = -120000 /\
    Posting.account_id p2 = Account.id a /\
    counterpart_name Example.store Example.rent = Some (Account.name a) /\
    Account.type a = "expense"%string.
Proof.
  split; [reflexivity|].
  destruct (posting_policy Example.store Example.rent _ 2 eq_refl)
    as (a & p1 & p2 & H1 & _ & H3 & H4 & _ & _ & H7 & H8).
  exists a, p1, p2. repeat split; try assumption.
  destruct H8 as [H8|(_ & H8)]; [|exact H8].
  exfalso. revert H8. vm_compute. discriminate.
Defined.

(** ** When the generator fails *)

Lemma counterpart_account_raises : forall t prefix generic ty s e,
  counterpart_account t prefix generic ty s = Raise e -> e = AttributeError.
Proof.
  intros t prefix generic ty s e. unfold counterpart_account.
  destruct (Transaction.category_id t) as [cid|]; [|discriminate].
  destruct (cid =? 0); [discriminate|].
  unfold bind at 1. unfold get_category.
  destruct (find (fun c => Category.id c =? cid) (categories (db s))) as [c|];
    simpl.
  - unfold bind at 1. unfold attr, ret. unfold bind at 1. unfold account_by_name.
    destruct (find _ (accounts (db s))); [discriminate|].
    unfold bind. rewrite create_account_eq. discriminate.
  - unfold raise. intro H. inversion H. reflexivity.
Qed.

Lemma generate_raises : forall t s e,
  generate_postings_for_transaction t s = Raise e -> e = AttributeError.
Proof.
  intros t s e. rewrite generate_eq.
  destruct (counterpart_account t (role_prefix t) (role_generic t) (role_type t)
              (deleted (Transaction.id t) s)) as [[[a|] s1]|e'] eqn:Hc;
    intro H; inversion H; subst; [reflexivity|].
  eapply counterpart_account_raises. exact Hc.
Qed.

Lemma generate_fails_iff : forall t s,
  ~ resolvable (db s) t <->
  generate_postings_for_transaction t s = Raise AttributeError.
Proof.
  intros t s. rewrite generate_succeeds_iff.
  destruct (generate_postings_for_transaction t s) as [[n s']|e] eqn:Hg.
  - split; [|discriminate]. intro H. exfalso. apply H.
    pose proof (generate_cases _ _ _ _ Hg) as (-> & _). eauto.
  - apply generate_raises in Hg. subst e. split; [reflexivity|].
    intros _ (s' & H). discriminate.
Qed.

(** X2. The generator run as a unit of work succeeds, returning 2,
    exactly when the counterpart account can be resolved: the assigned
    category is a row of the store, or the transaction has no category
    (or category id 0) and the generic account "Expenses" (outflow) or
    "Income" (otherwise) exists.  In every other case it raises
    [AttributeError] and the store is left as it was. *)
Theorem generate_precondition : forall d t,
  (resolvable d t <->
   exists d', session_scope (generate_postings_for_transaction t) d
              = (d', Ok 2)) /\
  (~ resolvable d t <->
   session_scope (generate_postings_for_transaction t) d
   = (d, Raise AttributeError)).
Proof.
  intros d t.
  pose proof (generate_succeeds_iff t (mkSession d [] [])) as Hok.
  pose proof (generate_fails_iff t (mkSession d [] [])) as Hfail.
  simpl db in Hok, Hfail. unfold session_scope.
  destruct (generate_postings_for_transaction t (mkSession d [] []))
    as [[n s']|e] eqn:Hg.
  - split; split.
    + intros _. destruct (proj1 Hok) as (s'' & Hs'').
      * apply Hok. apply generate_cases in Hg. destruct Hg as (-> & _). eauto.
      * inversion Hs''. eauto.
    + intros _. apply Hok. apply generate_cases in Hg.
      destruct Hg as (-> & _). eauto.
    + intro H. apply Hfail in H. discriminate.
    + discriminate.
  - split; split.
    + intro H. apply Hok in H. destruct H as (s' & H). discriminate.
    + intros (d' & H). discriminate.
    + intro H. apply Hfail in H. inversion H. reflexivity.
    + intro H. inversion H. subst e. apply Hfail. reflexivity.
Qed.

(** ** When the batch fails *)

Lemma created_name_not_generic : forall t t' c,
  String.eqb (String.append (role_prefix t) (String.append ":" c))
    (role_generic t') = false.
Proof.
  intros t t' c. unfold role_prefix, role_generic.
  destruct (Transaction.amount t <? 0); destruct (Transaction.amount t' <? 0);
    reflexivity.
Qed.

Lemma find_app_none : forall A (f : A -> bool) l a,
  f a = false -> find f (l ++ [a]) = find f l.
Proof.
  induction l as [|x l IH]; simpl; intros a H.
  - rewrite H. reflexivity.
  - destruct (f x); [reflexivity | apply IH; exact H].
Qed.

(** A run of the generator does not make another transaction's
    counterpart resolvable: the only account it can add is named after a
    category. *)
Lemma generate_keeps_unresolvable : forall t s n s' t',
  generate_postings_for_transaction t s = Ok (n, s') ->
  resolvable (db s') t' -> resolvable (db s) t'.
Proof.
  intros t s n s' t' H. rewrite generate_eq in H.
  destruct (counterpart_account t (role_prefix t) (role_generic t) (role_type t)
              (deleted (Transaction.id t) s)) as [[[a|] s1]|e] eqn:Hc;
    try discriminate.
  inversion H; subst n s'. clear H. cbn [db].
  pose proof Hc as Hname. apply counterpart_account_name in Hname.
  destruct Hname as (Hname & [(-> & _)|(Hs1 & _ & Hnone & Hacc)]).
  - unfold resolvable. simpl. tauto.
  - assert (Hcat : categories (db s1) = categories (db s)).
    { rewrite Hs1.
      exact (proj1 (flush_frame (deleted (Transaction.id t) s))). }
    assert (Hnm : exists c, Account.name a =
                    String.append (role_prefix t) (String.append ":" c)).
    { revert Hname. unfold counterpart_name.
      destruct (Transaction.category_id t) as [cid|] eqn:Hcid.
      - destruct (cid =? 0) eqn:Hz.
        + intro E. exfalso. inversion E as [E'].
          revert Hc. unfold counterpart_account. rewrite Hcid, Hz.
          unfold account_by_name. rewrite E', Hnone. discriminate.
        + destruct (find _ (categories _)) as [c|]; simpl; [|discriminate].
          intro E. inversion E. eauto.
      - intro E. exfalso. inversion E as [E'].
        revert Hc. unfold counterpart_account. rewrite Hcid.
        unfold account_by_name. rewrite E', Hnone. discriminate. }
    destruct Hnm as (c & Hnm).
    unfold resolvable. rewrite Hcat, Hacc. simpl accounts.
    rewrite find_app_none
      by (rewrite Hnm; apply created_name_not_generic).
    tauto.
Qed.

Lemma generate_each_fails : forall txns count s t,
  In t txns -> ~ resolvable (db s) t ->
  generate_each txns count s = Raise AttributeError.
Proof.
  induction txns as [|t0 txns IH]; intros count s t Hin Hun; simpl.
  - destruct Hin.
  - unfold bind.
    destruct (generate_postings_for_transaction t0 s) as [[n s1]|e] eqn:Hg.
    + destruct Hin as [->|Hin].
      * apply generate_fails_iff in Hun. congruence.
      * apply (IH _ _ t Hin). intro Hr. apply Hun.
        eapply generate_keeps_unresolvable; eauto.
    + apply generate_raises in Hg. subst e. reflexivity.
Qed.

(** X3. If one of the transactions the batch selects cannot resolve its
    counterpart account in the store, [generate_all_postings] run as a
    unit of work raises [AttributeError] and commits nothing, whatever
    it had generated for the transactions before that one; if all of them
    can, the batch returns. *)
Theorem batch_precondition : forall d limit,
  ((exists t, In t (batch_selection limit d) /\ ~ resolvable d t) ->
   session_scope (generate_all_postings limit) d = (d, Raise AttributeError)) /\
  ((forall t, In t (batch_selection limit d) -> resolvable d t) ->
   exists d' n, session_scope (generate_all_postings limit) d = (d', Ok n)).
Proof.
  intros d limit. unfold session_scope, generate_all_postings.
  rewrite unposted_fresh. fold (batch_selection limit d). split.
  - intros (t & Hin & Hun).
    rewrite (generate_each_fails _ 0 (mkSession d [] []) t Hin Hun).
    reflexivity.
  - intro H.
    destruct (generate_each_succeeds (batch_selection limit d) 0
                (mkSession d [] []) H) as (n & s' & ->).
    eauto.
Qed.

Lemma generate_precondition_witness :
  ~ resolvable Sample.bare_store Example.walmart /\
  session_scope (generate_postings_for_transaction Example.walmart)
    Sample.bare_store = (Sample.bare_store, Raise AttributeError).
Proof.
  assert (H : ~ resolvable Sample.bare_store Example.walmart).
  { unfold resolvable. simpl. intro H. apply H. reflexivity. }
  split; [exact H|].
  exact (proj1 (proj2 (generate_precondition Sample.bare_store Example.walmart)) H).
Defined.

Lemma batch_precondition_witness :
  (exists t, In t (batch_selection 10 Sample.bare_store) /\
             ~ resolvable Sample.bare_store t) /\
  session_scope (generate_all_postings 10) Sample.bare_store
  = (Sample.bare_store, Raise AttributeError).
Proof.
  assert (H : exists t, In t (batch_selection 10 Sample.bare_store) /\
                        ~ resolvable Sample.bare_store t).
  { exists Example.walmart. split; [simpl; tauto|].
    unfold resolvable. simpl. intro H. apply H. reflexivity. }
  split; [exact H|].
  exact (proj1 (batch_precondition Sample.bare_store 10) H).
Defined.

(** ** Draining the unposted transactions *)

Lemma filter_after_firstn :
  forall A (f : A -> Z) (p : A -> bool) l n,
  NoDup (map f l) ->
  filter (fun x => p x &&
                   negb (existsb (Z.eqb (f x)) (map f (firstn n (filter p l)))))
    l = skipn n (filter p l).
Proof.
  intros A f p. induction l as [|x l IH]; intros n Hnd.
  - destruct n; reflexivity.
  - inversion Hnd as [|y l' Hnotin Hnd']; subst.
    cbn [filter]. destruct (p x) eqn:Hp.
    + destruct n as [|m].
      * simpl. f_equal. transitivity (filter p l).
        -- apply filter_ext. intro a. destruct (p a); reflexivity.
        -- reflexivity.
      * cbn [firstn map existsb skipn andb]. rewrite Z.eqb_refl. simpl negb.
        rewrite <- (IH m Hnd'). apply filter_ext_in. intros a Ha.
        destruct (Z.eqb_spec (f a) (f x)) as [E|E]; [|reflexivity].
        exfalso. apply Hnotin. rewrite <- E. apply in_map. exact Ha.
    + simpl andb. apply IH. exact Hnd'.
Qed.

Lemma has_posting_same : forall d d' tid,
  postings_of d' tid = postings_of d tid ->
  has_posting d' tid = has_posting d tid.
Proof.
  intros d d' tid H.
  destruct (has_posting d tid) eqn:E.
  - destruct (has_posting d' tid) eqn:E'; [reflexivity|].
    apply has_posting_postings_of in E'. rewrite H in E'.
    apply has_posting_postings_of in E'. congruence.
  - apply has_posting_postings_of. rewrite H.
    apply has_posting_postings_of. exact E.
Qed.

(** What the batch leaves, in terms of the helper lemmas of the loop. *)
Lemma batch_in_scope : forall d limit d' n,
  NoDup (map Transaction.id (transactions d)) ->
  session_scope (generate_all_postings limit) d = (d', Ok n) ->
  n = Z.of_nat (List.length (batch_selection limit d)) /\
  transactions d' = transactions d /\
  (forall t, In t (batch_selection limit d) ->
     exists aid,
       map entry (postings_of d' (Transaction.id t)) = entries_for t aid) /\
  (forall tid, ~ In tid (map Transaction.id (batch_selection limit d)) ->
     postings_of d' tid = postings_of d tid).
Proof.
  intros d limit d' n Hnd. unfold session_scope, generate_all_postings.
  rewrite unposted_fresh. fold (batch_selection limit d).
  destruct (generate_each (batch_selection limit d) 0 (mkSession d [] []))
    as [[k s']|e] eqn:Hg; intro H; inversion H; subst k d'. clear H.
  apply generate_each_ledger in Hg;
    [|apply NoDup_map_firstn, NoDup_map_filter; exact Hnd | reflexivity].
  destruct Hg as (Hn & Hdone & _ & Hkeep & Htx).
  split; [lia|]. split; [rewrite Htx; apply (f_equal transactions (commit_fresh d))|].
  split.
  - intros t Ht. destruct (Hdone t Ht) as (aid & Hl).
    exists aid. rewrite commit_ledger_of. exact Hl.
  - intros tid Hno. destruct (Hkeep tid Hno eq_refl) as (Hk1 & Hk2).
    unfold commit. rewrite flush_postings_of_untouched by exact Hk2. exact Hk1.
Qed.

(** X4. After a successful batch, run as a unit of work on a store with
    distinct transaction ids, the transactions still without postings are
    the unposted transactions of before minus the first [limit] of them:
    the next call picks up where this one stopped.  When the limit
    covered them all, a further call returns 0 and changes nothing. *)
Theorem batch_drains : forall d limit d' n limit',
  NoDup (map Transaction.id (transactions d)) ->
  session_scope (generate_all_postings limit) d = (d', Ok n) ->
  unposted (mkSession d' [] []) = skipn limit (unposted (mkSession d [] [])) /\
  ((List.length (unposted (mkSession d [] [])) <= limit)%nat ->
   session_scope (generate_all_postings limit') d' = (d', Ok 0)).
Proof.
  intros d limit d' n limit' Hnd Hrun.
  destruct (batch_in_scope d limit d' n Hnd Hrun) as (_ & Htx & Hdone & Hkeep).
  assert (Hun : unposted (mkSession d' [] []) =
                skipn limit (unposted (mkSession d [] []))).
  { rewrite !unposted_fresh, Htx.
    rewrite <- (filter_after_firstn _ Transaction.id _ _ limit Hnd).
    apply filter_ext. intro t.
    fold (batch_selection limit d).
    destruct (existsb (Z.eqb (Transaction.id t))
                (map Transaction.id (batch_selection limit d))) eqn:E.
    - apply existsb_exists in E. destruct E as (i & Hi & Heq).
      apply Z.eqb_eq in Heq. subst i.
      apply in_map_iff in Hi. destruct Hi as (t0 & Hid & Ht0).
      destruct (Hdone t0 Ht0) as (aid & He). rewrite Hid in He.
      destruct (has_posting d' (Transaction.id t)) eqn:Hp.
      + simpl. rewrite andb_false_r. reflexivity.
      + apply has_posting_postings_of in Hp. rewrite Hp in He.
        unfold entries_for in He.
        destruct (Transaction.amount t0 <? 0); discriminate.
    - rewrite andb_true_r. f_equal. apply has_posting_same. apply Hkeep.
      intro Hin.
      assert (Ht : existsb (Z.eqb (Transaction.id t))
                     (map Transaction.id (batch_selection limit d)) = true).
      { apply existsb_exists. exists (Transaction.id t).
        split; [exact Hin | apply Z.eqb_refl]. }
      congruence. }
  split; [exact Hun|].
  intro Hle. unfold session_scope, generate_all_postings.
  rewrite Hun, skipn_all2 by exact Hle.
  rewrite firstn_nil. simpl. rewrite commit_fresh. reflexivity.
Qed.

Lemma batch_drains_witness :
  NoDup (map Transaction.id (transactions Example.store)) /\
  session_scope (generate_all_postings 2) Example.store =
    (fst (session_scope (generate_all_postings 2) Example.store), Ok 2) /\
  unposted
    (mkSession (fst (session_scope (generate_all_postings 2) Example.store))
       [] []) = [Example.adjustment].
Proof.
  split; [exact store_ids_distinct|]. split; [reflexivity|].
  exact (proj1 (batch_drains Example.store 2 _ 2 5 store_ids_distinct eq_refl)).
Defined.

(** ** Invariants of the ledger *)

(** X5. A successful batch keeps the ledger sound: if every
    transaction's postings balanced before, they all balance after, and
    if no posting had a negative debit or credit before, none has one
    after (the CHECK constraint of the postings table cannot fire). *)
Theorem batch_keeps_ledger_sound : forall d limit d' n,
  NoDup (map Transaction.id (transactions d)) ->
  session_scope (generate_all_postings limit) d = (d', Ok n) ->
  (balanced d -> balanced d') /\ (non_negative d -> non_negative d').
Proof.
  intros d limit d' n Hnd Hrun.
  destruct (batch_in_scope d limit d' n Hnd Hrun) as (_ & _ & Hdone & Hkeep).
  assert (Hcase : forall tid,
            (exists t aid, map entry (postings_of d' tid) = entries_for t aid) \/
            postings_of d' tid = postings_of d tid).
  { intro tid.
    destruct (in_dec Z.eq_dec tid
                (map Transaction.id (batch_selection limit d))) as [Hin|Hno].
    - left. apply in_map_iff in Hin. destruct Hin as (t & <- & Ht).
      destruct (Hdone t Ht) as (aid & He). eauto.
    - right. apply Hkeep. exact Hno. }
  split.
  - intros Hb tid. destruct (Hcase tid) as [(t & aid & He)|Heq].
    + apply map_entry_entries_for in He. destruct He as (_ & Hd & Hc & _).
      congruence.
    + rewrite Heq. apply Hb.
  - intro Hnn. unfold non_negative in *. apply Forall_forall. intros p Hp.
    assert (Hin : In p (postings_of d' (Posting.transaction_id p))).
    { unfold postings_of. apply filter_In. split; [exact Hp|]. apply Z.eqb_refl. }
    destruct (Hcase (Posting.transaction_id p)) as [(t & aid & He)|Heq].
    + apply map_entry_entries_for in He. destruct He as (_ & _ & _ & Hall).
      rewrite Forall_forall in Hall. exact (Hall p Hin).
    + rewrite Heq in Hin. unfold postings_of in Hin. apply filter_In in Hin.
      rewrite Forall_forall in Hnn. apply Hnn. tauto.
Qed.

Lemma store_sound : balanced Example.store /\ non_negative Example.store.
Proof.
  split.
  - intro tid. unfold postings_of, Example.store, Example.rent_postings.
    cbn [postings filter Posting.transaction_id].
    destruct (3 =? tid); reflexivity.
  - unfold non_negative. simpl. repeat constructor; simpl; lia.
Defined.

Lemma batch_keeps_ledger_sound_witness :
  NoDup (map Transaction.id (transactions Example.store)) /\
  session_scope (generate_all_postings 10) Example.store =
    (fst (session_scope (generate_all_postings 10) Example.store), Ok 3) /\
  balanced (fst (session_scope (generate_all_postings 10) Example.store)) /\
  non_negative (fst (session_scope (generate_all_postings 10) Example.store)).
Proof.
  split; [exact store_ids_distinct|]. split; [reflexivity|].
  destruct (batch_keeps_ledger_sound Example.store 10 _ 3
              store_ids_distinct eq_refl) as (Hb & Hn).
  split; [apply Hb | apply Hn]; apply store_sound.
Defined.

(** ** Keys stay distinct *)

Lemma max_id_bound : forall ids x, In x ids -> x <= fold_right Z.max 0 ids.
Proof.
  induction ids as [|i ids IH]; simpl; intros x H.
  - destruct H.
  - destruct H as [->|H]; [lia|]. specialize (IH x H). lia.
Qed.

Lemma next_id_fresh : forall ids, ~ In (next_id ids) ids.
Proof.
  intros ids H. apply max_id_bound in H. unfold next_id in H. lia.
Qed.

Lemma NoDup_snoc : forall A (l : list A) x,
  NoDup l -> ~ In x l -> NoDup (l ++ [x]).
Proof.
  intros A l x Hnd Hx.
  apply (Permutation_NoDup (l := x :: l)).
  - apply Permutation_cons_append.
  - constructor; assumption.
Qed.

Lemma insert_new_keys : forall l d,
  keys_distinct d -> keys_distinct (fold_left insert_new l d).
Proof.
  induction l as [|o l IH]; intros d H; simpl.
  - exact H.
  - apply IH. destruct H as (Ha & Hn & Hp).
    destruct o as [dt desc amt src|tid aid dr cr]; unfold keys_distinct; simpl.
    + auto.
    + split; [exact Ha|]. split; [exact Hn|].
      rewrite map_app. simpl. apply NoDup_snoc; [exact Hp|].
      apply next_id_fresh.
Qed.

Lemma flush_keys : forall s,
  keys_distinct (db s) -> keys_distinct (db (flush_session s)).
Proof.
  intros s H. unfold flush_session. simpl.
  exact (insert_new_keys (new s) (db s) H).
Qed.

Lemma find_none_name : forall n accs,
  find (fun a => String.eqb (Account.name a) n) accs = None ->
  ~ In n (map Account.name accs).
Proof.
  intros n accs Hf Hin. apply in_map_iff in Hin.
  destruct Hin as (a & Ha & Hin).
  apply (find_none _ _ Hf) in Hin. simpl in Hin.
  rewrite Ha, String.eqb_refl in Hin. discriminate.
Qed.

Lemma with_account_keys : forall n ty s,
  keys_distinct (db s) ->
  find (fun a => String.eqb (Account.name a) n) (accounts (db s)) = None ->
  keys_distinct (db (with_account n ty s)).
Proof.
  intros n ty s H Hf.
  destruct (flush_keys s H) as (Ha & Hn & Hp).
  destruct H as (Ha0 & Hn0 & _).
  unfold keys_distinct. rewrite with_account_accounts.
  split; [|split; [|exact Hp]]; rewrite map_app; cbn [map Account.id Account.name];
    apply NoDup_snoc; try assumption.
  - rewrite flush_accounts. apply next_id_fresh.
  - apply find_none_name. exact Hf.
Qed.

Lemma generate_keys : forall t s n s',
  keys_distinct (db s) ->
  generate_postings_for_transaction t s = Ok (n, s') ->
  keys_distinct (db s') /\ exists l, accounts (db s') = accounts (db s) ++ l.
Proof.
  intros t s n s' H Hg.
  split; [|exact (proj2 (generate_db_grows _ _ _ _ Hg))].
  rewrite generate_eq in Hg.
  destruct (counterpart_account t (role_prefix t) (role_generic t) (role_type t)
              (deleted (Transaction.id t) s)) as [[[a|] s1]|e] eqn:Hc;
    try discriminate.
  inversion Hg; subst n s'. clear Hg. cbn [db].
  assert (Hdel : keys_distinct (db (deleted (Transaction.id t) s))).
  { destruct H as (Ha & Hn & Hp). unfold keys_distinct, deleted. simpl.
    split; [exact Ha|]. split; [exact Hn|]. apply NoDup_map_filter. exact Hp. }
  apply counterpart_account_name in Hc.
  destruct Hc as (_ & [(-> & _)|(-> & _ & Hnone & _)]).
  - exact Hdel.
  - apply with_account_keys; assumption.
Qed.

Lemma generate_each_keys : forall txns count s n s',
  keys_distinct (db s) ->
  generate_each txns count s = Ok (n, s') ->
  keys_distinct (db s') /\ exists l, accounts (db s') = accounts (db s) ++ l.
Proof.
  induction txns as [|t txns IH]; intros count s n s' H Hg; simpl in Hg.
  - unfold ret in Hg. inversion Hg; subst. split; [exact H|].
    exists []. symmetry. apply app_nil_r.
  - apply bind_ok in Hg. destruct Hg as (k & s1 & Hg1 & Hg).
    destruct (generate_keys _ _ _ _ H Hg1) as (H1 & l1 & Hl1).
    destruct (IH _ _ _ _ H1 Hg) as (H2 & l2 & Hl2).
    split; [exact H2|]. exists (l1 ++ l2).
    rewrite Hl2, Hl1. symmetry. apply app_assoc.
Qed.

(** X6. A successful batch never breaks a key: when account ids,
    account names and posting ids were distinct before, they are distinct
    after, although the batch creates accounts and postings; the accounts
    of before are all kept, in place, and new ones come after them. *)
Theorem batch_keeps_keys_distinct : forall d limit d' n,
  keys_distinct d ->
  session_scope (generate_all_postings limit) d = (d', Ok n) ->
  keys_distinct d' /\ exists l, accounts d' = accounts d ++ l.
Proof.
  intros d limit d' n H. unfold session_scope, generate_all_postings.
  destruct (generate_each (firstn limit (unposted (mkSession d [] []))) 0
              (mkSession d [] [])) as [[k s']|e] eqn:Hg;
    intro Hrun; inversion Hrun; subst k d'. clear Hrun.
  destruct (generate_each_keys _ 0 (mkSession d [] []) _ _ H Hg)
    as (Hk & l & Hl).
  split.
  - unfold commit. apply flush_keys. exact Hk.
  - exists l. rewrite commit_accounts. exact Hl.
Qed.

Lemma store_keys_distinct : keys_distinct Example.store.
Proof.
  unfold keys_distinct. simpl.
  repeat split; repeat (constructor; [simpl; intuition discriminate|]);
    constructor.
Defined.

Lemma batch_keeps_keys_distinct_witness :
  keys_distinct Example.store /\
  session_scope (generate_all_postings 10) Example.store =
    (fst (session_scope (generate_all_postings 10) Example.store), Ok 3) /\
  keys_distinct (fst (session_scope (generate_all_postings 10) Example.store)).
Proof.
  split; [exact store_keys_distinct|]. split; [reflexivity|].
  exact (proj1 (batch_keeps_keys_distinct Example.store 10 _ 3
                  store_keys_distinct eq_refl)).
Defined.

(** ** Counting what the rules engine does *)

Lemma assignments_of_perm : forall re_search rs l l',
  Permutation l l' ->
  List.length (assignments_of re_search rs l) =
  List.length (assignments_of re_search rs l').
Proof.
  intros re_search rs l l' H. apply Permutation_length.
  unfold assignments_of. apply Permutation_flat_map. exact H.
Qed.

Lemma matches_of_length : forall re_search rs l,
  List.length (matches_of re_search rs l) =
  List.length (assignments_of re_search rs l).
Proof.
  intros re_search rs. induction l as [|t l IH]; simpl.
  - reflexivity.
  - destruct (matched_rule re_search rs t); simpl; rewrite ?IH; reflexivity.
Qed.

Lemma categorize_count : forall re_search rs l,
  (List.length
     (filter (fun t => is_none (Transaction.category_id t))
        (map (categorize re_search rs) l)) +
   List.length
     (assignments_of re_search rs
        (filter (fun t => is_none (Transaction.category_id t)) l)))%nat =
  List.length (filter (fun t => is_none (Transaction.category_id t)) l).
Proof.
  intros re_search rs. induction l as [|t l IH]; simpl.
  - reflexivity.
  - rewrite categorize_category. unfold matched_category.
    destruct (Transaction.category_id t) as [c|]; simpl.
    + exact IH.
    + destruct (matched_rule re_search rs t) as [r|]; simpl; lia.
Qed.

Lemma apply_rules_count : forall re_search d batch_size d' n,
  session_scope (apply_rules re_search batch_size) d = (d', Ok n) ->
  n = Z.of_nat
        (List.length
           (assignments_of re_search (active_rules (mkSession d [] []))
              (uncategorized (mkSession d [] [])))).
Proof.
  intros re_search d batch_size d' n. unfold session_scope, apply_rules.
  destruct (apply_rules_loop re_search (active_rules (mkSession d [] []))
              (apply_rules_transactions (mkSession d [] [])) 0
              (mkSession d [] [])) as [[k s']|e] eqn:Hl;
    intro H; inversion H; subst k d'. clear H.
  apply apply_rules_loop_eq in Hl. destruct Hl as (_ & -> & _).
  unfold apply_rules_transactions. simpl dirty. rewrite map_load_nil.
  rewrite Z.add_0_l. f_equal.
  apply assignments_of_perm, Permutation_sym, sort_by_perm.
Qed.

(** X7. The number [apply_rules] returns is the number of transactions
    it took out of the uncategorized ones: after a successful run on a
    store with distinct transaction ids, [get_uncategorized_count] gives
    the count of before minus the returned number, which lies between 0
    and that count. *)
Theorem apply_count_is_drop : forall re_search d batch_size d' n,
  NoDup (map Transaction.id (transactions d)) ->
  session_scope (apply_rules re_search batch_size) d = (d', Ok n) ->
  0 <= n <= Z.of_nat (List.length (uncategorized (mkSession d [] []))) /\
  session_scope get_uncategorized_count d' =
    (d', Ok (Z.of_nat (List.length (uncategorized (mkSession d [] []))) - n)).
Proof.
  intros re_search d batch_size d' n Hnd Hrun.
  pose proof (apply_rules_count _ _ _ _ _ Hrun) as Hn.
  apply apply_rules_in_scope in Hrun; [|exact Hnd].
  destruct Hrun as (Hd' & _).
  pose proof (categorize_count re_search (active_rules (mkSession d [] []))
                (transactions d)) as Hc.
  assert (Hunc : uncategorized (mkSession d' [] []) =
                 filter (fun t => is_none (Transaction.category_id t))
                   (map (categorize re_search (active_rules (mkSession d [] [])))
                      (transactions d))).
  { rewrite Hd'. reflexivity. }
  unfold session_scope, get_uncategorized_count. rewrite commit_fresh, Hunc.
  unfold uncategorized in *. simpl db in *.
  split; [lia|]. do 2 f_equal. lia.
Qed.

Lemma apply_count_is_drop_witness :
  NoDup (map Transaction.id (transactions Example.store)) /\
  session_scope (apply_rules PyRe.search 1000) Example.store =
    (fst (session_scope (apply_rules PyRe.search 1000) Example.store), Ok 2) /\
  session_scope get_uncategorized_count
    (fst (session_scope (apply_rules PyRe.search 1000) Example.store)) =
  (fst (session_scope (apply_rules PyRe.search 1000) Example.store), Ok 1).
Proof.
  split; [exact store_ids_distinct|]. split; [reflexivity|].
  exact (proj2 (apply_count_is_drop PyRe.search Example.store 1000 _ 2
                  store_ids_distinct eq_refl)).
Defined.

(** ** What rule application writes *)

Lemma Forall2_map_right : forall A B (R : A -> B -> Prop) (f : A -> B) l,
  (forall x, In x l -> R x (f x)) -> Forall2 R l (map f l).
Proof.
  induction l as [|x l IH]; simpl; intro H.
  - constructor.
  - constructor; [apply H; left; reflexivity|].
    apply IH. intros y Hy. apply H. right. exact Hy.
Qed.

Lemma matched_rule_sound : forall re_search s t r,
  matched_rule re_search (active_rules s) t = Some r ->
  In r (rules (db s)) /\ Rule.active r = true /\
  conditions re_search r (Transaction.description t) (Transaction.amount t).
Proof.
  intros re_search s t r. unfold matched_rule.
  destruct (first_match re_search (active_rules s) (Transaction.description t)
              (Transaction.amount t)) as [[r'|]|e] eqn:Hfm; try discriminate.
  intro H. inversion H; subst r'. clear H.
  destruct (first_match_some _ _ _ _ _ Hfm) as (before & after & Hsplit & Hr & _).
  assert (Hin : In r (active_rules s)).
  { rewrite Hsplit. apply in_or_app. right. left. reflexivity. }
  apply active_rules_In in Hin. destruct Hin as (Hin & Ha).
  split; [exact Hin|]. split; [exact Ha|].
  apply rule_matches_conditions. exact Hr.
Qed.

(** X8. [apply_rules] writes nothing but categories.  After a
    successful run every transaction is still there, in place, with its
    id, date, description, amount, source account and memo; its category
    is the one it had, or it had none and now has the category of an
    active rule of the store whose four conditions it satisfies. *)
Theorem apply_rules_writes_only_categories :
  forall re_search d batch_size d' n,
  NoDup (map Transaction.id (transactions d)) ->
  session_scope (apply_rules re_search batch_size) d = (d', Ok n) ->
  Forall2
    (fun t t' =>
       Transaction.id t' = Transaction.id t /\
       Transaction.date t' = Transaction.date t /\
       Transaction.description t' = Transaction.description t /\
       Transaction.amount t' = Transaction.amount t /\
       Transaction.source_account_id t' = Transaction.source_account_id t /\
       Transaction.normalized_memo t' = Transaction.normalized_memo t /\
       (Transaction.category_id t' = Transaction.category_id t \/
        (Transaction.category_id t = None /\
         exists r,
           In r (rules d) /\ Rule.active r = true /\
           conditions re_search r (Transaction.description t)
             (Transaction.amount t) /\
           Transaction.category_id t' = Some (Rule.category_id r))))
    (transactions d) (transactions d').
Proof.
  intros re_search d batch_size d' n Hnd Hrun.
  apply apply_rules_in_scope in Hrun; [|exact Hnd].
  destruct Hrun as (-> & _). simpl transactions.
  apply Forall2_map_right. intros t _.
  unfold categorize, matched_category.
  destruct (Transaction.category_id t) as [c|] eqn:Hc.
  - repeat split; auto.
  - destruct (matched_rule re_search (active_rules (mkSession d [] [])) t)
      as [r|] eqn:Hm; simpl.
    + unfold set_category. rewrite Z.eqb_refl. simpl.
      repeat split; try reflexivity.
      right. split; [reflexivity|]. exists r.
      apply matched_rule_sound in Hm. simpl in Hm.
      destruct Hm as (H1 & H2 & H3). auto.
    + repeat split; auto.
Qed.

Lemma Forall2_map_eq :
  forall A B C (f : A -> C) (g : B -> C) (R : A -> B -> Prop) l l',
  (forall x y, R x y -> g y = f x) -> Forall2 R l l' -> map g l' = map f l.
Proof.
  intros A B C f g R l l' HR H.
  induction H as [|x y l l' Hxy _ IH]; simpl.
  - reflexivity.
  - rewrite (HR _ _ Hxy), IH. reflexivity.
Qed.

Lemma apply_rules_writes_only_categories_witness :
  NoDup (map Transaction.id (transactions Example.store)) /\
  session_scope (apply_rules PyRe.search 1000) Example.store =
    (fst (session_scope (apply_rules PyRe.search 1000) Example.store), Ok 2) /\
  map Transaction.amount
    (transactions
       (fst (session_scope (apply_rules PyRe.search 1000) Example.store))) =
  map Transaction.amount (transactions Example.store).
Proof.
  split; [exact store_ids_distinct|]. split; [reflexivity|].
  eapply Forall2_map_eq;
    [|exact (apply_rules_writes_only_categories PyRe.search Example.store 1000
               _ 2 store_ids_distinct eq_refl)].
  intros t t' (_ & _ & _ & Ha & _). exact Ha.
Defined.

(** ** The dry run *)

Lemma matches_of_sound : forall re_search s txns m,
  In m (matches_of re_search (active_rules s) txns) ->
  exists t r,
    In t txns /\ In r (rules (db s)) /\ Rule.active r = true /\
    conditions re_search r (Transaction.description t) (Transaction.amount t) /\
    m = RuleMatch.mk (Transaction.id t) (Rule.id r) (Rule.category_id r).
Proof.
  intros re_search s txns m H. unfold matches_of in H.
  apply in_flat_map in H. destruct H as (t & Ht & Hm).
  destruct (matched_rule re_search (active_rules s) t) as [r|] eqn:E;
    [|destruct Hm].
  destruct Hm as [<-|[]]. exists t, r.
  apply matched_rule_sound in E. destruct E as (H1 & H2 & H3). auto.
Qed.

Lemma matches_of_ids : forall re_search rs txns,
  NoDup (map Transaction.id txns) ->
  NoDup (map RuleMatch.transaction_id (matches_of re_search rs txns)).
Proof.
  intros re_search rs. induction txns as [|t txns IH]; simpl; intro H.
  - constructor.
  - inversion H as [|x l Hnotin Hnd]; subst.
    destruct (matched_rule re_search rs t) as [r|]; simpl; [|auto].
    constructor; [|auto].
    intro Hin. apply Hnotin. apply in_map_iff in Hin.
    destruct Hin as (m & Hm & Hin).
    unfold matches_of in Hin. apply in_flat_map in Hin.
    destruct Hin as (t' & Ht' & Hm').
    destruct (matched_rule re_search rs t'); [|destruct Hm'].
    destruct Hm' as [<-|[]]. simpl in Hm. rewrite <- Hm.
    apply in_map. exact Ht'.
Qed.

Lemma dry_run_in_scope : forall re_search d limit d0 results,
  session_scope (dry_run_matches re_search limit) d = (d0, Ok results) ->
  d0 = d /\
  results =
    matches_of re_search (active_rules (mkSession d [] []))
      (firstn limit
         (sort_by (fun a b => date_leb (Transaction.date b) (Transaction.date a))
            (uncategorized (mkSession d [] [])))).
Proof.
  intros re_search d limit d0 results.
  unfold session_scope, dry_run_matches, dry_run_transactions.
  simpl dirty. rewrite map_load_nil.
  destruct (dry_run_loop re_search _ _ []) as [res|e] eqn:Hl;
    intro H; inversion H; subst.
  split; [apply commit_fresh|].
  apply dry_run_loop_eq in Hl. destruct Hl as (-> & _). reflexivity.
Qed.

(** X9. [dry_run_matches] only reads.  Run as a unit of work it leaves
    the store as it was, whether it returns or raises.  When it returns,
    it reports at most [limit] matches and at most one for a transaction,
    and each match names an uncategorized transaction of the store
    together with an active rule of the store whose four conditions the
    transaction satisfies, and that rule's category. *)
Theorem dry_run_is_read_only : forall re_search d limit,
  NoDup (map Transaction.id (transactions d)) ->
  fst (session_scope (dry_run_matches re_search limit) d) = d /\
  forall results,
    snd (session_scope (dry_run_matches re_search limit) d) = Ok results ->
    (List.length results <= limit)%nat /\
    NoDup (map RuleMatch.transaction_id results) /\
    Forall
      (fun m =>
         exists t r,
           In t (transactions d) /\ Transaction.category_id t = None /\
           In r (rules d) /\ Rule.active r = true /\
           conditions re_search r (Transaction.description t)
             (Transaction.amount t) /\
           m = RuleMatch.mk (Transaction.id t) (Rule.id r) (Rule.category_id r))
      results.
Proof.
  intros re_search d limit Hnd.
  destruct (session_scope (dry_run_matches re_search limit) d)
    as [d0 [res|e]] eqn:Hrun.
  - apply dry_run_in_scope in Hrun. destruct Hrun as (-> & Hres).
    split; [reflexivity|]. simpl. intros results H. inversion H; subst results.
    clear H. set (txns := firstn limit _) in Hres.
    assert (Hsub : forall t, In t txns ->
              In t (transactions d) /\ Transaction.category_id t = None).
    { intros t Ht. apply In_firstn in Ht. apply sort_by_In in Ht.
      unfold uncategorized in Ht. apply filter_In in Ht. simpl in Ht.
      destruct Ht as (H1 & H2). split; [exact H1|].
      destruct (Transaction.category_id t); [discriminate | reflexivity]. }
    split; [|split].
    + rewrite Hres, matches_of_length.
      transitivity (List.length txns); [|apply firstn_le_length].
      clear. induction txns as [|t l IH]; simpl; [lia|].
      destruct (matched_rule re_search _ t); simpl; lia.
    + rewrite Hres. apply matches_of_ids.
      apply NoDup_map_firstn, NoDup_map_sort_by.
      unfold uncategorized. apply NoDup_map_filter. exact Hnd.
    + apply Forall_forall. intros m Hm. rewrite Hres in Hm.
      apply matches_of_sound in Hm.
      destruct Hm as (t & r & Ht & Hr & Ha & Hc & ->).
      destruct (Hsub t Ht) as (H1 & H2). exists t, r. simpl in Hr. auto 10.
  - unfold session_scope in Hrun.
    destruct (dry_run_matches re_search limit (mkSession d [] []))
      as [[a s]|e']; inversion Hrun; subst.
    split; [reflexivity|]. simpl. intros results H. discriminate.
Qed.

Lemma dry_run_is_read_only_witness :
  NoDup (map Transaction.id (transactions Example.store)) /\
  fst (session_scope (dry_run_matches PyRe.search 500) Example.store)
  = Example.store /\
  fst (session_scope (dry_run_matches PyRe.search 500) Example.broken_store)
  = Example.broken_store.
Proof.
  split; [exact store_ids_distinct|]. split.
  - exact (proj1 (dry_run_is_read_only PyRe.search Example.store 500
                    store_ids_distinct)).
  - apply (dry_run_is_read_only PyRe.search Example.broken_store 500).
    exact store_ids_distinct.
Defined.

(** X10. When the limit of the dry run covers every uncategorized
    transaction, the number of matches it reports is the number of
    transactions [apply_rules] updates on the same store. *)
Theorem dry_run_count_is_apply_count :
  forall re_search d limit batch_size results d' n,
  (List.length (uncategorized (mkSession d [] [])) <= limit)%nat ->
  snd (session_scope (dry_run_matches re_search limit) d) = Ok results ->
  session_scope (apply_rules re_search batch_size) d = (d', Ok n) ->
  Z.of_nat (List.length results) = n.
Proof.
  intros re_search d limit batch_size results d' n Hlimit Hdry Happly.
  apply apply_rules_count in Happly. subst n.
  destruct (session_scope (dry_run_matches re_search limit) d)
    as [d0 r] eqn:Hrun. simpl in Hdry. subst r.
  apply dry_run_in_scope in Hrun. destruct Hrun as (_ & ->).
  rewrite firstn_all2.
  - rewrite matches_of_length. f_equal.
    apply assignments_of_perm, Permutation_sym, sort_by_perm.
  - rewrite <- (Permutation_length (sort_by_perm _ _ _)). exact Hlimit.
Qed.

Lemma dry_run_count_is_apply_count_witness :
  (List.length (uncategorized (mkSession Example.store [] [])) <= 500)%nat /\
  snd (session_scope (dry_run_matches PyRe.search 500) Example.store) =
    Ok [RuleMatch.mk 1 1 1; RuleMatch.mk 2 2 5] /\
  session_scope (apply_rules PyRe.search 1000) Example.store =
    (fst (session_scope (apply_rules PyRe.search 1000) Example.store), Ok 2) /\
  Z.of_nat (List.length [RuleMatch.mk 1 1 1; RuleMatch.mk 2 2 5]) = 2.
Proof.
  assert (H : (List.length (uncategorized (mkSession Example.store [] []))
               <= 500)%nat) by (simpl; lia).
  split; [exact H|]. split; [reflexivity|]. split; [reflexivity|].
  exact (dry_run_count_is_apply_count PyRe.search Example.store 500 1000
           _ _ 2 H eq_refl eq_refl).
Defined.

(** ** What an import touches *)

Lemma import_transactions_account : forall strptime py_float df mapping d,
  exists account d0,
    import_transactions strptime py_float df mapping (mkSession d [] []) =
      import_rows strptime py_float df mapping account 0 (mkSession d0 [] []) /\
    d0 = mkDb (accounts d0) (categories d) (transactions d) (postings d) (rules d) /\
    find (fun a => String.eqb (Account.name a) (source_account_name mapping))
      (accounts d0) = Some account /\
    (accounts d0 = accounts d \/
     (find (fun a => String.eqb (Account.name a) (source_account_name mapping))
        (accounts d) = None /\
      accounts d0 = accounts d ++ [account] /\
      Account.type account = "asset"%string)).
Proof.
  intros strptime py_float df mapping d.
  unfold import_transactions. unfold bind at 1. unfold account_by_name.
  simpl accounts.
  destruct (find (fun a => String.eqb (Account.name a) (source_account_name mapping))
              (accounts d)) as [a|] eqn:Hf.
  - exists a, d. split; [reflexivity|]. split; [destruct d; reflexivity|].
    split; [exact Hf|]. left. reflexivity.
  - unfold bind. rewrite create_account_eq.
    eexists. eexists. split; [reflexivity|].
    unfold with_account, flush_session. simpl. rewrite map_load_nil.
    split; [reflexivity|]. split.
    + apply find_app_last; [exact Hf | apply String.eqb_refl].
    + right. split; [reflexivity|]. split; reflexivity.
Qed.

Lemma import_rows_ok : forall strptime py_float mapping account rows created s n s',
  import_rows strptime py_float rows mapping account created s = Ok (n, s') ->
  exists news,
    s' = mkSession (db s) (new s ++ news) (dirty s) /\
    n = created + Z.of_nat (List.length news) /\
    (List.length news <= List.length rows)%nat /\
    Forall (fun o => exists dt desc amt,
              o = NewTransaction dt desc amt (Account.id account)) news.
Proof.
  intros strptime py_float mapping account.
  induction rows as [|row rows IH]; intros created s n s' H; simpl in H.
  - unfold ret in H. inversion H; subst. exists [].
    rewrite app_nil_r. destruct s'; simpl.
    split; [reflexivity|]. split; [lia|]. split; [lia|constructor].
  - destruct (row_date strptime row mapping) as [dt|e].
    + apply bind_ok in H. destruct H as (desc & s1 & H1 & H).
      unfold lift in H1. destruct (getitem row (description_col mapping));
        inversion H1; subst. clear H1.
      apply bind_ok in H. destruct H as (cell & s2 & H2 & H).
      unfold lift in H2. destruct (getitem row (amount_col mapping));
        inversion H2; subst. clear H2.
      apply bind_ok in H. destruct H as (amt & s3 & H3 & H).
      unfold lift in H3. destruct (float_cell py_float cell);
        inversion H3; subst. clear H3.
      apply bind_ok in H. destruct H as (u & s4 & H4 & H).
      unfold add in H4. inversion H4; subst. clear H4.
      apply IH in H. destruct H as (news & -> & -> & Hlen & Hall). simpl.
      eexists (_ :: news). rewrite <- app_assoc. simpl.
      split; [reflexivity|]. split; [lia|]. split; [lia|].
      constructor; [eauto | exact Hall].
    + apply IH in H. destruct H as (news & -> & -> & Hlen & Hall).
      exists news. simpl. auto with arith.
Qed.

Lemma insert_new_transactions_only : forall source news d,
  Forall (fun o => exists dt desc amt, o = NewTransaction dt desc amt source)
    news ->
  exists ts,
    fold_left insert_new news d =
      mkDb (accounts d) (categories d) (transactions d ++ ts) (postings d)
        (rules d) /\
    List.length ts = List.length news /\
    Forall (fun t => Transaction.source_account_id t = source /\
                     Transaction.category_id t = None) ts.
Proof.
  intros source. induction news as [|o news IH]; intros d H; simpl.
  - exists []. rewrite app_nil_r. destruct d. simpl. auto.
  - inversion H as [|x l (dt & desc & amt & ->) Hrest]; subst.
    destruct (IH (insert_new d (NewTransaction dt desc amt source)) Hrest)
      as (ts & Hts & Hlen & Hall).
    eexists (_ :: ts). rewrite Hts. simpl. rewrite <- app_assoc. simpl.
    split; [reflexivity|]. split; [lia|].
    constructor; [simpl; auto | exact Hall].
Qed.

(** X11. A successful import touches nothing but the transactions and,
    at most, one account.  The transactions of before are kept and the
    new ones follow them; as many are added as the call returns, never
    more than the frame has rows; each has the source account and no
    category.  The source account is the account named in the mapping: the
    existing one, or one created with type "asset" when none had that
    name.  Postings, categories and rules are exactly as before. *)
Theorem import_frame_effect :
  forall strptime py_float df mapping d d' n,
  session_scope (import_transactions strptime py_float df mapping) d
    = (d', Ok n) ->
  exists a ts,
    transactions d' = transactions d ++ ts /\
    Z.of_nat (List.length ts) = n /\
    (List.length ts <= List.length df)%nat /\
    Forall (fun t => Transaction.source_account_id t = Account.id a /\
                     Transaction.category_id t = None) ts /\
    find (fun x => String.eqb (Account.name x) (source_account_name mapping))
      (accounts d') = Some a /\
    (accounts d' = accounts d \/
     (find (fun x => String.eqb (Account.name x) (source_account_name mapping))
        (accounts d) = None /\
      accounts d' = accounts d ++ [a] /\
      Account.type a = "asset"%string)) /\
    postings d' = postings d /\
    categories d' = categories d /\
    rules d' = rules d.
Proof.
  intros strptime py_float df mapping d d' n.
  destruct (import_transactions_account strptime py_float df mapping d)
    as (a & d0 & Heq & Hd0 & Hfind & Hacc).
  unfold session_scope. rewrite Heq.
  destruct (import_rows strptime py_float df mapping a 0 (mkSession d0 [] []))
    as [[k s']|e] eqn:Hrows; intro H; inversion H; subst k d'. clear H.
  apply import_rows_ok in Hrows.
  destruct Hrows as (news & -> & -> & Hlen & Hall). simpl app.
  destruct (insert_new_transactions_only _ news d0 Hall) as (ts & Hts & Hl & Hsrc).
  unfold commit, flush_session. cbn [db new dirty]. rewrite update_dirty_nil, Hts.
  cbn [transactions accounts postings categories rules].
  rewrite Hd0. cbn [transactions accounts postings categories rules].
  exists a, ts. repeat split; try assumption; try lia.
Qed.

Lemma import_frame_effect_witness :
  session_scope
    (import_transactions PyTime.strptime PyFloat.float Example.frame
       Example.mapping) Sample.bare_store
  = (fst (session_scope
            (import_transactions PyTime.strptime PyFloat.float Example.frame
               Example.mapping) Sample.bare_store), Ok 2) /\
  postings
    (fst (session_scope
            (import_transactions PyTime.strptime PyFloat.float Example.frame
               Example.mapping) Sample.bare_store))
  = postings Sample.bare_store.
Proof.
  split; [reflexivity|].
  destruct (import_frame_effect PyTime.strptime PyFloat.float Example.frame
              Example.mapping Sample.bare_store _ 2 eq_refl)
    as (a & ts & _ & _ & _ & _ & _ & _ & Hp & _).
  exact Hp.
Defined.

(** What a successful import of usable rows commits. *)
Lemma import_valid_in_scope : forall strptime py_float df mapping d,
  Forall (row_valid strptime py_float mapping) df ->
  exists a d0 ts,
    session_scope (import_transactions strptime py_float df mapping) d =
      (mkDb (accounts d0) (categories d) (transactions d ++ ts) (postings d)
         (rules d),
       Ok (Z.of_nat (List.length (filter (date_ok strptime mapping) df)))) /\
    find (fun x => String.eqb (Account.name x) (source_account_name mapping))
      (accounts d0) = Some a /\
    Forall2 (imported strptime py_float mapping (Account.id a))
      (filter (date_ok strptime mapping) df) ts.
Proof.
  intros strptime py_float df mapping d Hall.
  destruct (import_transactions_account strptime py_float df mapping d)
    as (a & d0 & Heq & Hd0 & Hfind & _).
  destruct (import_rows_valid strptime py_float mapping a df 0
              (mkSession d0 [] []) Hall) as (news & Hrun & Hrel).
  destruct (insert_new_imported _ _ _ _ _ _ Hrel d0) as (ts & Hts & Hrel').
  destruct (insert_new_frame news d0) as (Ha & Hc & Hr).
  assert (Hp : postings (fold_left insert_new news d0) = postings d0).
  { destruct (insert_new_postings news d0) as (ps & Hps & He).
    assert (Hnone : pending_entries news = []).
    { clear - Hrel. induction Hrel as [|row o rows news Ho _ IH]; simpl.
      - reflexivity.
      - destruct o; [exact IH | destruct Ho]. }
    rewrite Hnone in He. apply map_eq_nil in He. subst ps.
    rewrite Hps. apply app_nil_r. }
  exists a, d0, ts. split; [|split; [exact Hfind | exact Hrel']].
  unfold session_scope. rewrite Heq, Hrun. simpl app.
  rewrite (Forall2_length Hrel). f_equal.
  unfold commit, flush_session. cbn [db new dirty]. rewrite update_dirty_nil.
  destruct (fold_left insert_new news d0) as [accs cats txns posts rls] eqn:E.
  simpl in Ha, Hc, Hr, Hp, Hts. subst accs cats rls posts txns.
  rewrite Hd0. reflexivity.
Qed.

(** X12. The import does not deduplicate.  Importing a frame of usable
    rows twice in a row succeeds both times with the same count, and the
    store ends with the converted rows twice, one copy after the other;
    the source account is resolved to the same account both times, so the
    second import adds no account. *)
Theorem reimport_duplicates :
  forall strptime py_float df mapping d,
  Forall (row_valid strptime py_float mapping) df ->
  exists d1 d2 ts1 ts2 source,
    session_scope (import_transactions strptime py_float df mapping) d =
      (d1, Ok (Z.of_nat (List.length (filter (date_ok strptime mapping) df)))) /\
    session_scope (import_transactions strptime py_float df mapping) d1 =
      (d2, Ok (Z.of_nat (List.length (filter (date_ok strptime mapping) df)))) /\
    transactions d2 = transactions d ++ ts1 ++ ts2 /\
    Forall2 (imported strptime py_float mapping source)
      (filter (date_ok strptime mapping) df) ts1 /\
    Forall2 (imported strptime py_float mapping source)
      (filter (date_ok strptime mapping) df) ts2 /\
    accounts d2 = accounts d1.
Proof.
  intros strptime py_float df mapping d Hall.
  destruct (import_valid_in_scope strptime py_float df mapping d Hall)
    as (a & d0 & ts1 & Hrun1 & Hfind1 & Hrel1).
  set (d1 := mkDb (accounts d0) (categories d) (transactions d ++ ts1)
               (postings d) (rules d)) in *.
  destruct (import_transactions_account strptime py_float df mapping d1)
    as (a' & d0' & Heq & Hd0' & Hfind2 & Hacc).
  assert (Hsame : accounts d0' = accounts d1).
  { destruct Hacc as [H|(Hnone & _)]; [exact H|].
    simpl in Hnone. rewrite Hfind1 in Hnone. discriminate. }
  assert (Ha : a' = a).
  { rewrite Hsame in Hfind2. simpl in Hfind2. congruence. }
  subst a'.
  destruct (import_rows_valid strptime py_float mapping a df 0
              (mkSession d0' [] []) Hall) as (news & Hrows & Hrel).
  destruct (insert_new_imported _ _ _ _ _ _ Hrel d0') as (ts2 & Hts & Hrel2).
  exists d1, (commit (mkSession d0' news [])), ts1, ts2, (Account.id a).
  split; [exact Hrun1|]. split; [|split; [|split; [|split]]].
  - unfold session_scope. rewrite Heq, Hrows. simpl app.
    rewrite (Forall2_length Hrel). reflexivity.
  - unfold commit, flush_session. cbn [db new dirty].
    rewrite update_dirty_nil, Hts, Hd0'. simpl. symmetry. apply app_assoc.
  - exact Hrel1.
  - exact Hrel2.
  - rewrite commit_accounts. exact Hsame.
Qed.

Lemma frame_rows_valid :
  Forall (row_valid PyTime.strptime PyFloat.float Example.mapping) Example.frame.
Proof.
  unfold Example.frame.
  apply Forall_cons; [usable_row|].
  apply Forall_cons; [left; reflexivity|].
  apply Forall_cons; [usable_row|].
  apply Forall_nil.
Defined.

Lemma reimport_duplicates_witness :
  Forall (row_valid PyTime.strptime PyFloat.float Example.mapping) Example.frame /\
  exists d1 d2 ts1 ts2 source,
    session_scope
      (import_transactions PyTime.strptime PyFloat.float Example.frame
         Example.mapping) Example.store = (d1, Ok 2) /\
    session_scope
      (import_transactions PyTime.strptime PyFloat.float Example.frame
         Example.mapping) d1 = (d2, Ok 2) /\
    transactions d2 = transactions Example.store ++ ts1 ++ ts2 /\
    Forall2 (imported PyTime.strptime PyFloat.float Example.mapping source)
      (filter (date_ok PyTime.strptime Example.mapping) Example.frame) ts1 /\
    Forall2 (imported PyTime.strptime PyFloat.float Example.mapping source)
      (filter (date_ok PyTime.strptime Example.mapping) Example.frame) ts2 /\
    accounts d2 = accounts d1.
Proof.
  split; [exact frame_rows_valid|].
  exact (reimport_duplicates PyTime.strptime PyFloat.float Example.frame
           Example.mapping Example.store frame_rows_valid).
Defined.

(** ** Dates with blanks around *)

Lemma lstrip_all_space : forall l w,
  all_space l = true -> lstrip (String.append l w) = lstrip w.
Proof.
  induction l as [|c l IH]; simpl; intros w H.
  - reflexivity.
  - apply andb_true_iff in H. destruct H as (Hc & Hl).
    rewrite Hc. apply IH. exact Hl.
Qed.

Lemma rstrip_all_space : forall r, all_space r = true -> rstrip r = EmptyString.
Proof.
  induction r as [|c r IH]; simpl; intro H.
  - reflexivity.
  - apply andb_true_iff in H. destruct H as (Hc & Hr).
    rewrite (IH Hr), Hc. reflexivity.
Qed.

Lemma rstrip_append_space : forall w r,
  all_space r = true -> rstrip (String.append w r) = rstrip w.
Proof.
  induction w as [|c w IH]; simpl; intros r H.
  - apply rstrip_all_space. exact H.
  - rewrite (IH r H). reflexivity.
Qed.

Lemma strip_padding : forall l v r,
  all_space l = true -> all_space r = true ->
  strip (String.append l (String.append v r)) = strip v.
Proof.
  intros l v r Hl Hr. unfold strip. rewrite (lstrip_all_space l _ Hl).
  clear l Hl. induction v as [|c v IH]; simpl.
  - assert (E : lstrip r = EmptyString).
    { clear - Hr. induction r as [|c r IH]; simpl in *; [reflexivity|].
      apply andb_true_iff in Hr. destruct Hr as (Hc & Hr).
      rewrite Hc. apply IH. exact Hr. }
    rewrite E. reflexivity.
  - destruct (is_space c).
    + exact IH.
    + change (String c (String.append v r))
        with (String.append (String c v) r).
      apply rstrip_append_space. exact Hr.
Qed.

(** X13. [parse_date] ignores blanks around the date: padding the text
    with spaces, tabs or line ends on either side changes neither the
    date it returns nor whether it raises. *)
Theorem parse_date_ignores_padding : forall strptime l v r,
  all_space l = true -> all_space r = true ->
  parse_date strptime (String.append l (String.append v r)) =
  parse_date strptime v.
Proof.
  intros strptime l v r Hl Hr. unfold parse_date.
  induction SUPPORTED_DATE_FORMATS as [|fmt fmts IH]; simpl.
  - reflexivity.
  - rewrite (strip_padding l v r Hl Hr), IH. reflexivity.
Qed.

Lemma parse_date_ignores_padding_witness :
  all_space "  "%string = true /\
  all_space (String "009" (String "010" EmptyString)) = true /\
  parse_date PyTime.strptime
    (String.append "  "
       (String.append "03/05/2024" (String "009" (String "010" EmptyString))))
  = Ok (mkDate 2024 3 5).
Proof.
  split; [reflexivity|]. split; [reflexivity|].
  rewrite (parse_date_ignores_padding PyTime.strptime "  " "03/05/2024"
             (String "009" (String "010" EmptyString)) eq_refl eq_refl).
  reflexivity.
Defined.

(** ** Seeding *)

Lemma seeded_eq : forall d,
  seeded d =
  mkDb
    (fold_left insert_account
       (filter (fun nt => negb (has_account d (fst nt))) SEED_ACCOUNTS)
       (accounts d))
    (fold_left insert_category
       (filter (fun n => negb (has_category d n)) SEED_CATEGORIES)
       (categories d))
    (transactions d) (postings d) (rules d).
Proof.
  intro d. unfold seeded, seed_minimal. cbn [db].
  change (db (flush_session (mkSession d [] []))) with (update_dirty [] d).
  rewrite update_dirty_nil. reflexivity.
Qed.

Lemma insert_accounts_prefix : forall added accs,
  exists l, fold_left insert_account added accs = accs ++ l.
Proof.
  induction added as [|nt added IH]; intro accs; simpl.
  - exists []. symmetry. apply app_nil_r.
  - destruct (IH (insert_account accs nt)) as (l & ->).
    unfold insert_account. eexists. rewrite <- app_assoc. reflexivity.
Qed.

Lemma insert_categories_prefix : forall added cats,
  exists l, fold_left insert_category added cats = cats ++ l.
Proof.
  induction added as [|n added IH]; intro cats; simpl.
  - exists []. symmetry. apply app_nil_r.
  - destruct (IH (insert_category cats n)) as (l & ->).
    unfold insert_category. eexists. rewrite <- app_assoc. reflexivity.
Qed.

Lemma insert_accounts_has : forall added accs n,
  find (fun a => String.eqb (Account.name a) n) accs <> None \/
  In n (map fst added) ->
  find (fun a => String.eqb (Account.name a) n)
    (fold_left insert_account added accs) <> None.
Proof.
  induction added as [|nt added IH]; intros accs n H; simpl.
  - destruct H as [H|[]]. exact H.
  - apply IH. unfold insert_account.
    destruct (find (fun a => String.eqb (Account.name a) n) accs) as [a|] eqn:E.
    + left. rewrite (find_app_some _ _ _ _ _ E). discriminate.
    + destruct H as [H|[H|H]]; [congruence| |right; exact H].
      left. rewrite (find_app_last _ _ _ _ E); [discriminate|].
      simpl. rewrite H. apply String.eqb_refl.
Qed.

Lemma insert_categories_has : forall added cats n,
  find (fun c => String.eqb (Category.name c) n) cats <> None \/ In n added ->
  find (fun c => String.eqb (Category.name c) n)
    (fold_left insert_category added cats) <> None.
Proof.
  induction added as [|x added IH]; intros cats n H; simpl.
  - destruct H as [H|[]]. exact H.
  - apply IH. unfold insert_category.
    destruct (find (fun c => String.eqb (Category.name c) n) cats) as [c|] eqn:E.
    + left. rewrite (find_app_some _ _ _ _ _ E). discriminate.
    + destruct H as [H|[H|H]]; [congruence| |right; exact H].
      left. rewrite (find_app_last _ _ _ _ E); [discriminate|].
      simpl. rewrite H. apply String.eqb_refl.
Qed.

Lemma seeded_has_account : forall d n,
  In n (map fst SEED_ACCOUNTS) -> has_account (seeded d) n = true.
Proof.
  intros d n Hn. rewrite seeded_eq. unfold has_account at 1. cbn [accounts].
  assert (H : find (fun a => String.eqb (Account.name a) n)
                (fold_left insert_account
                   (filter (fun nt => negb (has_account d (fst nt))) SEED_ACCOUNTS)
                   (accounts d)) <> None).
  { apply insert_accounts_has.
    destruct (find (fun a => String.eqb (Account.name a) n) (accounts d))
      as [a|] eqn:E; [left; discriminate|].
    right. apply in_map_iff in Hn. destruct Hn as (nt & Hfst & Hnt).
    apply in_map_iff. exists nt. split; [exact Hfst|].
    apply filter_In. split; [exact Hnt|].
    unfold has_account. rewrite Hfst, E. reflexivity. }
  destruct (find _ _); [reflexivity | congruence].
Qed.

Lemma seeded_has_category : forall d n,
  In n SEED_CATEGORIES -> has_category (seeded d) n = true.
Proof.
  intros d n Hn. rewrite seeded_eq. unfold has_category at 1. cbn [categories].
  assert (H : find (fun c => String.eqb (Category.name c) n)
                (fold_left insert_category
                   (filter (fun x => negb (has_category d x)) SEED_CATEGORIES)
                   (categories d)) <> None).
  { apply insert_categories_has.
    destruct (find (fun c => String.eqb (Category.name c) n) (categories d))
      as [c|] eqn:E; [left; discriminate|].
    right. apply filter_In. split; [exact Hn|].
    unfold has_category. rewrite E. reflexivity. }
  destruct (find _ _); [reflexivity | congruence].
Qed.

Lemma filter_nothing : forall A (f : A -> bool) l,
  (forall x, In x l -> f x = false) -> filter f l = [].
Proof.
  induction l as [|x l IH]; simpl; intro H.
  - reflexivity.
  - rewrite (H x (or_introl eq_refl)). apply IH.
    intros y Hy. apply H. right. exact Hy.
Qed.

(** X14. [seed_minimal] is idempotent and only adds: seeding a seeded
    store changes nothing, and seeding any store keeps its accounts and
    categories in place (new ones come after them) and leaves
    transactions, postings and rules as they were. *)
Theorem seed_minimal_idempotent : forall d,
  seeded (seeded d) = seeded d /\
  (exists l, accounts (seeded d) = accounts d ++ l) /\
  (exists l, categories (seeded d) = categories d ++ l) /\
  transactions (seeded d) = transactions d /\
  postings (seeded d) = postings d /\
  rules (seeded d) = rules d.
Proof.
  intro d. split.
  - rewrite (seeded_eq (seeded d)).
    rewrite (filter_nothing _ (fun nt => negb (has_account (seeded d) (fst nt)))).
    + rewrite (filter_nothing _ (fun n => negb (has_category (seeded d) n))).
      * cbn [fold_left]. generalize (seeded d). intros [a c t p r].
        reflexivity.
      * intros n Hn. rewrite seeded_has_category by exact Hn. reflexivity.
    + intros nt Hnt. rewrite seeded_has_account; [reflexivity|].
      apply in_map. exact Hnt.
  - rewrite seeded_eq. cbn [accounts categories transactions postings rules].
    split; [apply insert_accounts_prefix|].
    split; [apply insert_categories_prefix|]. auto.
Qed.

Lemma find_not_none_app : forall A (f : A -> bool) l l',
  find f l <> None -> find f (l ++ l') <> None.
Proof.
  intros A f l l' H. destruct (find f l) as [x|] eqn:E; [|congruence].
  rewrite (find_app_some _ _ _ _ _ E). discriminate.
Qed.

(** X15. Seeding establishes what the posting generator needs.  On a
    seeded store the generic accounts exist, so the generator succeeds on
    every transaction whose category, if it has one, is a row of the
    store; hence the batch returns on a seeded store in which every
    assigned category exists. *)
Theorem seeded_store_can_post : forall d limit,
  (forall t cid, In t (transactions d) ->
     Transaction.category_id t = Some cid -> cid <> 0 ->
     find (fun c => Category.id c =? cid) (categories d) <> None) ->
  (forall t, In t (transactions d) -> resolvable (seeded d) t) /\
  exists d' n,
    session_scope (generate_all_postings limit) (seeded d) = (d', Ok n).
Proof.
  intros d limit H.
  assert (Hres : forall t, In t (transactions d) -> resolvable (seeded d) t).
  { intros t Ht. unfold resolvable.
    assert (Hgen : find (fun a => String.eqb (Account.name a) (role_generic t))
                     (accounts (seeded d)) <> None).
    { pose proof (seeded_has_account d (role_generic t)) as Hh.
      unfold has_account in Hh.
      destruct (find _ (accounts (seeded d))); [discriminate|].
      assert (Hin : In (role_generic t) (map fst SEED_ACCOUNTS)).
      { unfold role_generic. destruct (Transaction.amount t <? 0); simpl; tauto. }
      specialize (Hh Hin). discriminate. }
    destruct (Transaction.category_id t) as [cid|] eqn:Hc; [|exact Hgen].
    destruct (Z.eqb_spec cid 0) as [Hz|Hz]; [exact Hgen|].
    rewrite seeded_eq. cbn [categories].
    destruct (insert_categories_prefix
                (filter (fun n => negb (has_category d n)) SEED_CATEGORIES)
                (categories d)) as (l & ->).
    apply find_not_none_app. eapply H; eauto. }
  split; [exact Hres|].
  apply generate_all_postings_succeeds.
  intros t Ht. apply Hres.
  rewrite seeded_eq in Ht. exact Ht.
Qed.

Lemma seeded_store_can_post_witness :
  (forall t cid, In t (transactions Sample.bare_store) ->
     Transaction.category_id t = Some cid -> cid <> 0 ->
     find (fun c => Category.id c =? cid) (categories Sample.bare_store)
     <> None) /\
  exists d' n,
    session_scope (generate_all_postings 10) (seeded Sample.bare_store)
    = (d', Ok n).
Proof.
  assert (H : forall t cid, In t (transactions Sample.bare_store) ->
            Transaction.category_id t = Some cid -> cid <> 0 ->
            find (fun c => Category.id c =? cid) (categories Sample.bare_store)
            <> None).
  { intros t cid Hin Hc _. simpl in Hin.
    destruct Hin as [<-|[<-|[<-|[<-|[]]]]]; simpl in Hc;
      try discriminate; inversion Hc; subst cid; simpl; discriminate. }
  split; [exact H|].
  exact (proj2 (seeded_store_can_post Sample.bare_store 10 H)).
Defined.

(** ** Deactivated rules *)

Lemma apply_rules_loop_db : forall re_search rs txns updated s1 s2,
  dirty s1 = dirty s2 ->
  match apply_rules_loop re_search rs txns updated s1,
        apply_rules_loop re_search rs txns updated s2 with
  | Ok (u1, s1'), Ok (u2, s2') =>
      u1 = u2 /\ dirty s1' = dirty s2' /\
      db s1' = db s1 /\ db s2' = db s2 /\ new s1' = new s1 /\ new s2' = new s2
  | Raise e1, Raise e2 => e1 = e2
  | _, _ => False
  end.
Proof.
  intros re_search rs. induction txns as [|t txns IH]; intros updated s1 s2 Hd.
  - simpl. unfold ret. repeat split; auto.
  - simpl. unfold bind. rewrite !apply_rules_txn_eq.
    destruct (first_match re_search rs (Transaction.description t)
                (Transaction.amount t)) as [[r|]|e].
    + specialize (IH (updated + 1)
                    (mkSession (db s1) (new s1)
                       (dirty s1 ++ [(Transaction.id t, Rule.category_id r)]))
                    (mkSession (db s2) (new s2)
                       (dirty s2 ++ [(Transaction.id t, Rule.category_id r)]))).
      simpl in IH. rewrite Hd in IH. specialize (IH eq_refl).
      rewrite Hd. exact IH.
    + apply IH. exact Hd.
    + reflexivity.
Qed.

(** X16. A deactivated rule is inert, whatever its pattern.  Two stores
    with the same transactions and the same active rules give the same
    result under [apply_rules] (the same count or the same exception) and
    the same transactions afterwards: adding, removing or editing
    inactive rules changes nothing, and deactivating a rule whose pattern
    does not compile removes the failure it caused. *)
Theorem inactive_rules_are_inert : forall re_search d1 d2 batch_size,
  transactions d1 = transactions d2 ->
  filter Rule.active (rules d1) = filter Rule.active (rules d2) ->
  snd (session_scope (apply_rules re_search batch_size) d1) =
  snd (session_scope (apply_rules re_search batch_size) d2) /\
  transactions (fst (session_scope (apply_rules re_search batch_size) d1)) =
  transactions (fst (session_scope (apply_rules re_search batch_size) d2)).
Proof.
  intros re_search d1 d2 batch_size Htx Hrules.
  unfold session_scope, apply_rules.
  assert (Hrs : active_rules (mkSession d1 [] []) = active_rules (mkSession d2 [] []))
    by (unfold active_rules; simpl; rewrite Hrules; reflexivity).
  assert (Htxns : apply_rules_transactions (mkSession d1 [] []) =
                  apply_rules_transactions (mkSession d2 [] []))
    by (unfold apply_rules_transactions, uncategorized; simpl;
        rewrite Htx; reflexivity).
  rewrite Hrs, Htxns.
  pose proof (apply_rules_loop_db re_search (active_rules (mkSession d2 [] []))
                (apply_rules_transactions (mkSession d2 [] [])) 0
                (mkSession d1 [] []) (mkSession d2 [] []) eq_refl) as H.
  destruct (apply_rules_loop re_search _ _ 0 (mkSession d1 [] []))
    as [[u1 s1']|e1];
    destruct (apply_rules_loop re_search _ _ 0 (mkSession d2 [] []))
      as [[u2 s2']|e2]; try contradiction.
  - destruct H as (-> & Hdirty & Hdb1 & Hdb2 & Hn1 & Hn2). simpl in *.
    split; [reflexivity|].
    unfold commit, flush_session. simpl.
    rewrite Hdirty, Hdb1, Hdb2, Hn1, Hn2. simpl. rewrite Htx. reflexivity.
  - subst e2. simpl. auto.
Qed.

Lemma inactive_rules_are_inert_witness :
  transactions Example.store = transactions Example.store /\
  filter Rule.active (rules Example.store) =
  filter Rule.active
    (rules Example.store ++ [Rule.mk 4 "(" 1 None None 1 false]) /\
  snd (session_scope (apply_rules PyRe.search 1000)
         (mkDb (accounts Example.store) (categories Example.store)
            (transactions Example.store) (postings Example.store)
            (rules Example.store ++ [Rule.mk 4 "(" 1 None None 1 false])))
  = Ok 2.
Proof.
  split; [reflexivity|]. split; [reflexivity|].
  rewrite <- (proj1 (inactive_rules_are_inert PyRe.search Example.store
                       (mkDb (accounts Example.store) (categories Example.store)
                          (transactions Example.store) (postings Example.store)
                          (rules Example.store ++
                             [Rule.mk 4 "(" 1 None None 1 false]))
                       1000 eq_refl eq_refl)).
  reflexivity.
Defined.

(** ** Imported transactions start uncategorized *)

Lemma filter_all : forall A (f : A -> bool) l,
  Forall (fun x => f x = true) l -> filter f l = l.
Proof.
  induction l as [|x l IH]; simpl; intro H.
  - reflexivity.
  - inversion H as [|y l' Hx Hl]; subst. rewrite Hx, IH; auto.
Qed.

(** X17. Every imported transaction starts without category: after a
    successful import, [get_uncategorized_count] gives the count of
    before plus the number the import returned. *)
Theorem import_adds_uncategorized :
  forall strptime py_float df mapping d d' n,
  session_scope (import_transactions strptime py_float df mapping) d
    = (d', Ok n) ->
  session_scope get_uncategorized_count d' =
    (d', Ok (Z.of_nat (List.length (uncategorized (mkSession d [] []))) + n)).
Proof.
  intros strptime py_float df mapping d d' n.
  destruct (import_transactions_account strptime py_float df mapping d)
    as (a & d0 & Heq & Hd0 & _ & _).
  unfold session_scope at 1. rewrite Heq.
  destruct (import_rows strptime py_float df mapping a 0 (mkSession d0 [] []))
    as [[k s']|e] eqn:Hrows; intro H; inversion H; subst k d'. clear H.
  apply import_rows_ok in Hrows.
  destruct Hrows as (news & -> & -> & _ & Hall). simpl app.
  destruct (insert_new_transactions_only _ news d0 Hall) as (ts & Hts & Hl & Hsrc).
  unfold session_scope, get_uncategorized_count. rewrite commit_fresh.
  do 2 f_equal.
  unfold commit, flush_session, uncategorized. cbn [db new dirty].
  rewrite update_dirty_nil, Hts. cbn [transactions]. rewrite Hd0.
  cbn [transactions]. rewrite filter_app, length_app.
  rewrite (filter_all _ _ ts).
  - lia.
  - eapply Forall_impl; [|exact Hsrc]. simpl. intros t (_ & Hc).
    rewrite Hc. reflexivity.
Qed.

Lemma import_adds_uncategorized_witness :
  session_scope
    (import_transactions PyTime.strptime PyFloat.float Example.frame
       Example.mapping) Example.store
  = (fst (session_scope
            (import_transactions PyTime.strptime PyFloat.float Example.frame
               Example.mapping) Example.store), Ok 2) /\
  session_scope get_uncategorized_count
    (fst (session_scope
            (import_transactions PyTime.strptime PyFloat.float Example.frame
               Example.mapping) Example.store))
  = (fst (session_scope
            (import_transactions PyTime.strptime PyFloat.float Example.frame
               Example.mapping) Example.store), Ok 5).
Proof.
  split; [reflexivity|].
  exact (import_adds_uncategorized PyTime.strptime PyFloat.float Example.frame
           Example.mapping Example.store _ 2 eq_refl).
Defined.
